(** * Subplot grid geometry of [proplot/subplots.py]

    A shallow embedding of the gridspec geometry engine of
    [src/proplot/subplots.py]:

    - [FlexibleGridSpec.__getitem__], [_normalize], [_positem] and
      [FlexibleSubplotSpec.get_active_rows_columns] (the doubling transform
      between active and physical grid indices);
    - [_subplots_geometry] (the size solve);
    - [FlexibleGridSpec.__init__] / [update] with [_spaces_as_ratios];
    - [Figure._insert_row_column] (panel insertion and placement remap)
      and [Figure._add_axes_panel];
    - the spacing loop of [Figure._adjust_tight_layout];
    - the container [axes_grid], the booking of figure panel slots,
      [_axes_dict], and the array of subplot numbers of [subplots].

    Conventions.

    - Python exceptions are values of [exn]; a call that may raise returns a
      [result].  A method that mutates the figure and may raise afterwards
      returns the mutated state together with the [result].
    - Python [int]s are [Z]; positions produced by enumeration are [nat].
    - Python [float]s are kept behind the interface [Number].  It has two
      instances: exact rationals [Q] (used for the algebraic statements, where
      numeric equality is [Qeq]) and IEEE binary64 primitive floats (used to
      evaluate concrete calls the way the interpreter does).
    - A division whose divisor is zero is [ZeroDivisionError], as it is for
      Python scalars.  Where the operands are numpy scalars the program
      goes on with a non-finite value instead; the rationals have no such
      value, so a statement about what a solve returns names the divisors
      that must not be zero among its hypotheses.
    - The calls into matplotlib ([Figure.set_size_inches],
      [SubplotParams.update], [GridSpec.__init__], the drawing of the axes)
      are outside [src/]; what they check on their own account is not
      modelled.  The statements are about calls that return, or about what
      has been written before such a library call is reached. *)

From Stdlib Require Import ZArith QArith Qminmax Floats Uint63 String Ascii List Sorted Lia Lqa Bool.
From stdpp Require Import base option list gmap.

Set Warnings "-inexact-float".
Local Open Scope Z_scope.

(** ** Exceptions and results *)

Inductive exn : Type :=
| ValueError
| IndexError
| RuntimeError
| ZeroDivisionError
| TypeError
| UnboundLocalError.

Inductive result (A : Type) : Type :=
| Ok (a : A)
| Raise (e : exn).
Arguments Ok {A} a.
Arguments Raise {A} e.

#[global] Instance result_ret : MRet result := fun A a => Ok a.
#[global] Instance result_bind : MBind result :=
  fun A B f m => match m with Ok a => f a | Raise e => Raise e end.
#[global] Instance result_fmap : FMap result :=
  fun A B f m => match m with Ok a => Ok (f a) | Raise e => Raise e end.

Definition is_ok {A} (r : result A) : bool :=
  match r with Ok _ => true | Raise _ => false end.

(** [l[i]] for a position that is known to be non-negative. *)
Definition getitem_nat {A} (l : list A) (i : nat) : result A :=
  match l !! i with Some a => Ok a | None => Raise IndexError end.

(** [l[i]] with Python's negative indices. *)
Definition getitem_Z {A} (l : list A) (i : Z) : result A :=
  let n := Z.of_nat (length l) in
  let j := if i <? 0 then i + n else i in
  if (0 <=? j) && (j <? n) then getitem_nat l (Z.to_nat j) else Raise IndexError.

(** [l[i] = x] with Python's negative indices. *)
Definition setitem_Z {A} (l : list A) (i : Z) (x : A) : result (list A) :=
  let n := Z.of_nat (length l) in
  let j := if i <? 0 then i + n else i in
  if (0 <=? j) && (j <? n) then Ok (<[Z.to_nat j := x]> l) else Raise IndexError.

(** [l.insert(i, x)]: a negative [i] counts from the end, and the position
    is clipped to [0 .. len(l)]. *)
Definition list_insert_Z {A} (l : list A) (i : Z) (x : A) : list A :=
  let n := Z.of_nat (length l) in
  let j := if i <? 0 then Z.max 0 (i + n) else Z.min i n in
  take (Z.to_nat j) l ++ x :: drop (Z.to_nat j) l.

Fixpoint mapM {A B} (f : A -> result B) (l : list A) : result (list B) :=
  match l with
  | [] => Ok []
  | a :: l' => b ← f a; bs ← mapM f l'; Ok (b :: bs)
  end.

(** ** Slices and index normalisation *)

Record slice : Type := Slice {
  start : option Z;
  stop : option Z;
  step : option Z
}.

(** The builtin [slice.indices(length)], restricted to the first two
    components of its result (the source discards the step). *)
Definition slice_indices (s : slice) (len : Z) : result (Z * Z) :=
  let stp := default 1 (step s) in
  if stp =? 0 then Raise ValueError
  else if len <? 0 then Raise ValueError
  else
    let neg := stp <? 0 in
    let lower := if neg then -1 else 0 in
    let upper := if neg then len - 1 else len in
    let clip (v : Z) :=
      if v <? 0 then Z.max (v + len) lower else Z.min v upper in
    let a := match start s with
             | None => if neg then upper else lower
             | Some v => clip v
             end in
    let b := match stop s with
             | None => if neg then lower else upper
             | Some v => clip v
             end in
    Ok (a, b).

Inductive key : Type :=
| KInt (k : Z)
| KSlice (s : slice).

(** [FlexibleGridSpec._normalize] *)
Definition _normalize (k : key) (size : Z) : result (Z * Z) :=
  match k with
  | KSlice s =>
      '(start, stop) ← slice_indices s size;
      if stop >? start then Ok (start, stop - 1) else Raise IndexError
  | KInt k =>
      let k := if k <? 0 then k + size else k in
      if (0 <=? k) && (k <? size) then Ok (k, k) else Raise IndexError
  end.

(** [FlexibleGridSpec._positem] *)
Definition _positem (size : Z) : Z :=
  if size <? 0 then 2 * (size + 1) - 1 else size * 2.

(** [np.ravel_multi_index(((r1, r2), (c1, c2)), (nrows, ncols))] in its
    default mode, which refuses coordinates outside the dimensions. *)
Definition ravel_multi_index (rs cs : Z * Z) (dims : Z * Z) : result (Z * Z) :=
  let '(r1, r2) := rs in
  let '(c1, c2) := cs in
  let '(nrows, ncols) := dims in
  let inside r c := (0 <=? r) && (r <? nrows) && (0 <=? c) && (c <? ncols) in
  if inside r1 c1 && inside r2 c2
  then Ok (r1 * ncols + c1, r2 * ncols + c2)
  else Raise ValueError.

(** ** Grid specifications

    A [FlexibleGridSpec] over [nrows] x [ncols] active slots holds
    [2*nrows-1] x [2*ncols-1] physical slots; the odd ones are spaces. *)

(** What [FlexibleSubplotSpec(gridspec, num1, num2)] keeps: the geometry
    its gridspec reports through [get_geometry()] and the two flat physical
    indices. *)
Record FlexibleSubplotSpec : Type := {
  ss_geometry : Z * Z;
  num1 : Z;
  num2 : option Z
}.

(** [FlexibleSubplotSpec.get_active_rows_columns] *)
Definition get_active_rows_columns (self : FlexibleSubplotSpec)
  : result (Z * Z * Z * Z * Z * Z) :=
  let '(nrows, ncols) := ss_geometry self in
  if ncols =? 0 then Raise ZeroDivisionError
  else
    let '(row1, col1) := (num1 self / ncols, num1 self mod ncols) in
    let '(row2, col2) :=
      match num2 self with
      | Some n2 => (n2 / ncols, n2 mod ncols)
      | None => (row1, col1)
      end in
    Ok (nrows / 2, ncols / 2, row1 / 2, row2 / 2, col1 / 2, col2 / 2).

(** [FlexibleSubplotSpec.get_active_geometry] *)
Definition ss_get_active_geometry (self : FlexibleSubplotSpec)
  : result (Z * Z * Z * Z) :=
  '(nrows, ncols, row1, row2, col1, col2) ← get_active_rows_columns self;
  Ok (nrows, ncols, row1 * ncols + col1, row2 * ncols + col2).

(** A subplot specification either lives on the figure's main gridspec or
    on a [GridSpecFromSubplotSpec] of [n] x [m] cells whose [_subplot_spec]
    is another specification.  Every nested gridspec is taken to carry one
    placement, which is how panel colorbars create them. *)
Inductive SubplotSpec : Type :=
| OnMain (s : FlexibleSubplotSpec)
| Nested (n m : Z) (_subplot_spec : SubplotSpec) (n1 : Z) (n2 : option Z).

(** matplotlib's [SubplotSpec.get_topmost_subplotspec] *)
Fixpoint get_topmost_subplotspec (s : SubplotSpec) : FlexibleSubplotSpec :=
  match s with
  | OnMain f => f
  | Nested _ _ parent _ _ => get_topmost_subplotspec parent
  end.

Inductive index : Type :=
| Single (k : key)
| Tuple (ks : list key).

(** [a:b] *)
Definition range_ (a b : Z) : key := KSlice (Slice (Some a) (Some b) None).

(** ** Numbers *)

Class Number (num : Type) : Type := {
  of_Z : Z -> num;
  nadd : num -> num -> num;
  nsub : num -> num -> num;
  nmul : num -> num -> num;
  (** the quotient by a divisor that is not zero *)
  nquot : num -> num -> num;
  neqb : num -> num -> bool;
  nltb : num -> num -> bool
}.

Declare Scope num_scope.
Delimit Scope num_scope with num.
Infix "+#" := nadd (at level 50, left associativity) : num_scope.
Infix "-#" := nsub (at level 50, left associativity) : num_scope.
Infix "*#" := nmul (at level 40, left associativity) : num_scope.
Infix "=#" := neqb (at level 70, no associativity) : num_scope.
Infix "<#" := nltb (at level 70, no associativity) : num_scope.

#[global] Instance Q_Number : Number Q := {|
  of_Z := inject_Z;
  nadd := Qplus;
  nsub := Qminus;
  nmul := Qmult;
  nquot := Qdiv;
  neqb := Qeq_bool;
  nltb := fun x y => negb (Qle_bool y x)
|}.

(** [float(z)]: the double nearest to the integer, ties to even.  (An
    integer beyond the range of the doubles, which Python refuses to
    convert, becomes an infinity.) *)
Definition float_of_Z (z : Z) : float :=
  SF2Prim (binary_normalize prec emax z 0 false).

#[global] Instance float_Number : Number float := {|
  of_Z := float_of_Z;
  nadd := PrimFloat.add;
  nsub := PrimFloat.sub;
  nmul := PrimFloat.mul;
  nquot := PrimFloat.div;
  neqb := PrimFloat.eqb;
  nltb := PrimFloat.ltb
|}.

Section Arithmetic.
  Context {num : Type} `{Number num}.
  Local Open Scope num_scope.

  (** [x / y] on Python scalars.  On numpy scalars a zero divisor gives
      a non-finite quotient and no exception: see the conventions. *)
Definition ndiv (x y : num) : result num :=
    if y =# of_Z 0 then Raise ZeroDivisionError else Ok (nquot x y).

  (** The builtin [sum]: it starts from the integer [0] and adds from the
      left. *)
Definition sum (l : list num) : num := fold_left nadd l (of_Z 0).

  (** The builtin [max(a, b)]: [b] only when it is strictly greater. *)
Definition max2 (a b : num) : num := if a <# b then b else a.

  (** The builtin [min(a, b)]: [b] only when it is strictly smaller. *)
Definition min2 (a b : num) : num := if b <# a then b else a.

  (** [max(l)] and [min(l)] of a sequence; an empty one is a [ValueError]. *)
Definition max_list (l : list num) : result num :=
    match l with [] => Raise ValueError | a :: l' => Ok (fold_left max2 l' a) end.
Definition min_list (l : list num) : result num :=
    match l with [] => Raise ValueError | a :: l' => Ok (fold_left min2 l' a) end.

  (** [_notNone(a, b)] for two arguments *)
Definition _notNone {A} (a : option A) (b : A) : A := default b a.
End Arithmetic.

Infix "/#" := ndiv (at level 40, left associativity) : num_scope.

(** [l[a:b]] for integer bounds: the builtin slice with step one. *)
Definition list_slice {A} (l : list A) (a b : Z) : list A :=
  match slice_indices (Slice (Some a) (Some b) None) (Z.of_nat (length l)) with
  | Ok (i, j) => take (Z.to_nat (j - i)) (drop (Z.to_nat i) l)
  | Raise _ => []
  end.

(** ** Panel toggles

    The entries of [wpanels] and [hpanels]: the empty string for a main
    slot, one of ['l'], ['r'], ['b'], ['t'] for an axes panel, ['f'] for a
    figure panel. *)
Inductive panel : Type :=
| main_   (* '' *)
| tag_l | tag_r | tag_b | tag_t
| tag_f.

#[global] Instance panel_eq_dec : EqDecision panel.
Proof. solve_decision. Defined.

(** [bool(s)] *)
Definition panel_bool (p : panel) : bool :=
  match p with main_ => false | _ => true end.

(** [s in 'rbf']: a substring test, so it holds of the empty string too. *)
Definition in_rbf (p : panel) : bool :=
  match p with tag_l | tag_t => false | _ => true end.

(** The settings read from [rc], already converted by [units]. *)
Record rc_settings (num : Type) : Type := {
  rc_subplots_axwidth : num;
  rc_subplots_panelwidth : num;
  rc_colorbar_width : num;
  rc_subplots_panelspace : num;
  rc_subplots_xlabspace : num;
  rc_subplots_ylabspace : num;
  rc_subplots_innerspace : num
}.
Arguments rc_subplots_axwidth {num} _.
Arguments rc_subplots_panelwidth {num} _.
Arguments rc_colorbar_width {num} _.
Arguments rc_subplots_panelspace {num} _.
Arguments rc_subplots_xlabspace {num} _.
Arguments rc_subplots_ylabspace {num} _.
Arguments rc_subplots_innerspace {num} _.

Inductive aspect_t (num : Type) : Type :=
| Scalar (a : num)
| Pair (w h : num).
Arguments Scalar {num} a.
Arguments Pair {num} w h.

(** The keyword arguments [subplots_kw] of [_subplots_geometry]. *)
Record subplots_kw (num : Type) : Type := {
  kw_nrows : Z;
  kw_ncols : Z;
  kw_aspect : aspect_t num;
  kw_xref : Z * Z;
  kw_yref : Z * Z;
  kw_width : option num;
  kw_height : option num;
  kw_axwidth : option num;
  kw_axheight : option num;
  kw_wspace : list num;
  kw_hspace : list num;
  kw_wratios : list num;
  kw_hratios : list num;
  kw_left : num;
  kw_bottom : num;
  kw_right : num;
  kw_top : num;
  kw_wpanels : list panel;
  kw_hpanels : list panel
}.
Arguments kw_nrows {num} _.
Arguments kw_ncols {num} _.
Arguments kw_aspect {num} _.
Arguments kw_xref {num} _.
Arguments kw_yref {num} _.
Arguments kw_width {num} _.
Arguments kw_height {num} _.
Arguments kw_axwidth {num} _.
Arguments kw_axheight {num} _.
Arguments kw_wspace {num} _.
Arguments kw_hspace {num} _.
Arguments kw_wratios {num} _.
Arguments kw_hratios {num} _.
Arguments kw_left {num} _.
Arguments kw_bottom {num} _.
Arguments kw_right {num} _.
Arguments kw_top {num} _.
Arguments kw_wpanels {num} _.
Arguments kw_hpanels {num} _.

(** The dictionary [gridspec_kw] that [_subplots_geometry] returns. *)
Record gridspec_kw (num : Type) : Type := {
  gk_ncols : Z;
  gk_nrows : Z;
  gk_wspace : list num;
  gk_hspace : list num;
  gk_width_ratios : list num;
  gk_height_ratios : list num;
  gk_left : num;
  gk_bottom : num;
  gk_right : num;
  gk_top : num
}.
Arguments gk_ncols {num} _.
Arguments gk_nrows {num} _.
Arguments gk_wspace {num} _.
Arguments gk_hspace {num} _.
Arguments gk_width_ratios {num} _.
Arguments gk_height_ratios {num} _.
Arguments gk_left {num} _.
Arguments gk_bottom {num} _.
Arguments gk_right {num} _.
Arguments gk_top {num} _.

(** [np.where(~mask)]: the positions, from [i] on, where the mask is off *)
Fixpoint where_not (i : nat) (mask : list bool) : list nat :=
  match mask with
  | [] => []
  | m :: mask' =>
      if m then where_not (S i) mask' else i :: where_not (S i) mask'
  end.

(** The loop [while panels[idx + offset] not in 'rbf': offset += 1], run
    on the toggles from position [idx + offset] on; it returns the final
    offset, and reading past the end is an [IndexError]. *)
Fixpoint scan_offset (rest : list panel) (offset : nat) : result nat :=
  match rest with
  | [] => Raise IndexError
  | p :: rest' => if in_rbf p then Ok offset else scan_offset rest' (S offset)
  end.

(** The body of [for idx in ratio_idxs[:-1]] *)
Definition space_idxs (panels : list panel) (ratio_idxs : list nat)
  : result (list nat) :=
  mapM (fun idx =>
          offset ← scan_offset (drop (idx + 1) panels) 1;
          Ok (idx + offset - 1)%nat)
       (removelast ratio_idxs).

(** [enumerate(l)] *)
Definition enumerate {A} (l : list A) : list (nat * A) := imap pair l.

(** [x in l] for positions *)
Definition mem_nat (x : nat) (l : list nat) : bool := existsb (Nat.eqb x) l.

(** [[ratio for idx,ratio in enumerate(ratios) if idx not in idxs]] *)
Definition ratios_panels {A} (ratios : list A) (idxs : list nat) : list A :=
  map snd (List.filter (fun p => negb (mem_nat (fst p) idxs)) (enumerate ratios)).

(** [for idx,ratio in zip(idxs, new): ratios[idx] = ratio] *)
Definition write_back {A} (ratios : list A) (idxs : list nat) (new : list A)
  : list A :=
  fold_left (fun l p => <[fst p := snd p]> l) (zip idxs new) ratios.

(** ** The size solve: [_subplots_geometry] *)

Definition len {A} (l : list A) : Z := Z.of_nat (length l).

Section Geometry.
  Context {num : Type} `{Number num}.
  Variable rc : rc_settings num.
  Local Open Scope num_scope.

  (** An operand that is [None] *)
Definition need (o : option num) : result num :=
    match o with Some v => Ok v | None => Raise TypeError end.

  (** A local variable that may not have been assigned *)
Definition bound (o : option num) : result num :=
    match o with Some v => Ok v | None => Raise UnboundLocalError end.

  (** Lines 596-608: the length checks. *)
Definition check_lengths (kw : subplots_kw num) : result unit :=
    if negb (len (kw_hratios kw) =? kw_nrows kw) then Raise ValueError
    else if negb (len (kw_wratios kw) =? kw_ncols kw) then Raise ValueError
    else if negb (len (kw_hspace kw) =? kw_nrows kw - 1) then Raise ValueError
    else if negb (len (kw_wspace kw) =? kw_ncols kw - 1) then Raise ValueError
    else if negb (len (kw_hpanels kw) =? kw_nrows kw) then Raise ValueError
    else if negb (len (kw_wpanels kw) =? kw_ncols kw) then Raise ValueError
    else Ok ().

  (** Lines 610-634: the main slots, the panel slots and the main spaces. *)
Record main_slots : Type := {
    idxs_ratios_h : list nat;
    idxs_ratios_w : list nat;
    idxs_space_h : list nat;
    idxs_space_w : list nat;
    hratios_main : list num;
    wratios_main : list num;
    hratios_panels : list num;
    wratios_panels : list num;
    hspace_main : list num;
    wspace_main : list num
  }.

Definition split_slots (kw : subplots_kw num) : result main_slots :=
    let ratio_idxs_h := where_not 0 (map panel_bool (kw_hpanels kw)) in
    space_idxs_h ← space_idxs (kw_hpanels kw) ratio_idxs_h;
    let ratio_idxs_w := where_not 0 (map panel_bool (kw_wpanels kw)) in
    space_idxs_w ← space_idxs (kw_wpanels kw) ratio_idxs_w;
    hratios_main ← mapM (getitem_nat (kw_hratios kw)) ratio_idxs_h;
    wratios_main ← mapM (getitem_nat (kw_wratios kw)) ratio_idxs_w;
    let hratios_panels := ratios_panels (kw_hratios kw) ratio_idxs_h in
    let wratios_panels := ratios_panels (kw_wratios kw) ratio_idxs_w in
    hspace_main ← mapM (getitem_nat (kw_hspace kw)) space_idxs_h;
    wspace_main ← mapM (getitem_nat (kw_wspace kw)) space_idxs_w;
    Ok {| idxs_ratios_h := ratio_idxs_h; idxs_ratios_w := ratio_idxs_w;
          idxs_space_h := space_idxs_h; idxs_space_w := space_idxs_w;
          hratios_main := hratios_main; wratios_main := wratios_main;
          hratios_panels := hratios_panels; wratios_panels := wratios_panels;
          hspace_main := hspace_main; wspace_main := wspace_main |}.

  (** Lines 636-647: the properties of the reference axes. *)
Record reference : Type := {
    dx : Z;
    dy : Z;
    rwspace : num;
    rhspace : num;
    rwratio : num;
    rhratio : num;
    aspect : num
  }.

Definition reference_of (kw : subplots_kw num) (m : main_slots)
    : result reference :=
    let nrows_main := len (hratios_main m) in
    let ncols_main := len (wratios_main m) in
    let '(x1, x2) := kw_xref kw in
    let '(y1, y2) := kw_yref kw in
    let dx := (x2 - x1 + 1)%Z in
    let dy := (y2 - y1 + 1)%Z in
    let rwspace := sum (list_slice (wspace_main m) x1 x2) in
    let rhspace := sum (list_slice (hspace_main m) y1 y2) in
    rwratio ← (of_Z ncols_main *# sum (list_slice (wratios_main m) x1 (x2 + 1)))
                /# (of_Z dx *# sum (wratios_main m));
    rhratio ← (of_Z nrows_main *# sum (list_slice (hratios_main m) y1 (y2 + 1)))
                /# (of_Z dy *# sum (hratios_main m));
    if (rwratio =# of_Z 0) || (rhratio =# of_Z 0) then Raise RuntimeError
    else
      aspect ← match kw_aspect kw with
               | Scalar a => Ok a
               | Pair w h => w /# h
               end;
      Ok {| dx := dx; dy := dy; rwspace := rwspace; rhspace := rhspace;
            rwratio := rwratio; rhratio := rhratio; aspect := aspect |}.

  (** The local variables of lines 649-683 once they have run. *)
Record locals : Type := {
    width : option num;
    height : option num;
    axwidth : option num;
    axheight : option num;
    axwidth_all : option num;
    axheight_all : option num;
    auto_width : bool;
    auto_height : bool
  }.

  Section Dims.
    Variable kw : subplots_kw num.
    Variable m : main_slots.
    Variable r : reference.

Let nrows_main : Z := len (hratios_main m).
Let ncols_main : Z := len (wratios_main m).

    (** [(nrows_main*(axheight - rhspace))/(dy*rhratio)] *)
Definition axheight_all_of (axheight : num) : result num :=
      (of_Z nrows_main *# (axheight -# rhspace r)) /# (of_Z (dy r) *# rhratio r).

    (** [(ncols_main*(axwidth - rwspace))/(dx*rwratio)] *)
Definition axwidth_all_of (axwidth : num) : result num :=
      (of_Z ncols_main *# (axwidth -# rwspace r)) /# (of_Z (dx r) *# rwratio r).

    (** [axheight_all + top + bottom + sum(hspace) + sum(hratios_panels)] *)
Definition height_of (axheight_all : num) : num :=
      axheight_all +# kw_top kw +# kw_bottom kw +# sum (kw_hspace kw)
        +# sum (hratios_panels m).

    (** [axwidth_all + left + right + sum(wspace) + sum(wratios_panels)] *)
Definition width_of (axwidth_all : num) : num :=
      axwidth_all +# kw_left kw +# kw_right kw +# sum (kw_wspace kw)
        +# sum (wratios_panels m).

    (** Lines 652-673. *)
Definition dims_from_input : result locals :=
      let width := kw_width kw in
      let height := kw_height kw in
      let axwidth := kw_axwidth kw in
      let axheight := kw_axheight kw in
      let auto_width := bool_decide (width = None) && negb (bool_decide (height = None)) in
      let auto_height := bool_decide (height = None) && negb (bool_decide (width = None)) in
      if bool_decide (width = None) && bool_decide (height = None) then
        let axwidth :=
          if bool_decide (axwidth = None) && bool_decide (axheight = None)
          then Some (rc_subplots_axwidth rc) else axwidth in
        '(auto_width, axheight_all, height) ←
          match axheight with
          | Some ah =>
              a ← axheight_all_of ah; Ok (true, Some a, Some (height_of a))
          | None => Ok (auto_width, None, height)
          end;
        '(auto_height, axwidth_all, width) ←
          match axwidth with
          | Some aw =>
              a ← axwidth_all_of aw; Ok (true, Some a, Some (width_of a))
          | None => Ok (auto_height, None, width)
          end;
        let '(auto_width, auto_height) :=
          match axwidth, axheight with
          | Some _, Some _ => (false, false)
          | _, _ => (auto_width, auto_height)
          end in
        Ok {| width := width; height := height;
              axwidth := axwidth; axheight := axheight;
              axwidth_all := axwidth_all; axheight_all := axheight_all;
              auto_width := auto_width; auto_height := auto_height |}
      else
        '(axheight_all, axheight) ←
          match height with
          | Some h =>
              let a := h -# kw_top kw -# kw_bottom kw -# sum (kw_hspace kw)
                         -# sum (hratios_panels m) in
              q ← (a *# of_Z (dy r) *# rhratio r) /# of_Z nrows_main;
              Ok (Some a, Some (q +# rhspace r))
          | None => Ok (None, axheight)
          end;
        '(axwidth_all, axwidth) ←
          match width with
          | Some w =>
              let a := w -# kw_left kw -# kw_right kw -# sum (kw_wspace kw)
                         -# sum (wratios_panels m) in
              q ← (a *# of_Z (dx r) *# rwratio r) /# of_Z ncols_main;
              Ok (Some a, Some (q +# rwspace r))
          | None => Ok (None, axwidth)
          end;
        Ok {| width := width; height := height;
              axwidth := axwidth; axheight := axheight;
              axwidth_all := axwidth_all; axheight_all := axheight_all;
              auto_width := auto_width; auto_height := auto_height |}.

    (** Lines 675-683: the dimension that was not specified. *)
Definition dims_auto (l : locals) : result locals :=
      if auto_height l then
        aw ← need (axwidth l);
        axheight ← aw /# aspect r;
        a ← axheight_all_of axheight;
        Ok {| width := width l; height := Some (height_of a);
              axwidth := axwidth l; axheight := Some axheight;
              axwidth_all := axwidth_all l; axheight_all := Some a;
              auto_width := auto_width l; auto_height := auto_height l |}
      else if auto_width l then
        ah ← need (axheight l);
        let axwidth := ah *# aspect r in
        a ← axwidth_all_of axwidth;
        Ok {| width := Some (width_of a); height := height l;
              axwidth := Some axwidth; axheight := axheight l;
              axwidth_all := Some a; axheight_all := axheight_all l;
              auto_width := auto_width l; auto_height := auto_height l |}
      else Ok l.
  End Dims.

  (** Lines 582-683: everything up to the solved extents. *)
Definition solve_extents (kw : subplots_kw num)
    : result (main_slots * locals) :=
    _ ← check_lengths kw;
    m ← split_slots kw;
    r ← reference_of kw m;
    l ← dims_from_input kw m r;
    l ← dims_auto kw m r l;
    Ok (m, l).

  (** [kwargs] after lines 693-696: the ratio lists are the caller's own
      objects, and they are overwritten in place. *)
Definition set_ratios (kw : subplots_kw num) (wratios hratios : list num)
    : subplots_kw num :=
    {| kw_nrows := kw_nrows kw; kw_ncols := kw_ncols kw;
       kw_aspect := kw_aspect kw; kw_xref := kw_xref kw; kw_yref := kw_yref kw;
       kw_width := kw_width kw; kw_height := kw_height kw;
       kw_axwidth := kw_axwidth kw; kw_axheight := kw_axheight kw;
       kw_wspace := kw_wspace kw; kw_hspace := kw_hspace kw;
       kw_wratios := wratios; kw_hratios := hratios;
       kw_left := kw_left kw; kw_bottom := kw_bottom kw;
       kw_right := kw_right kw; kw_top := kw_top kw;
       kw_wpanels := kw_wpanels kw; kw_hpanels := kw_hpanels kw |}.

  (** [extent*np.array(ratios_main)/sum(ratios_main)] *)
Definition rescale (extent : num) (ratios_main : list num) : list num :=
    map (fun ratio => nquot (extent *# ratio) (sum ratios_main)) ratios_main.

  (** [_subplots_geometry]: the keyword arguments as the call
      leaves them, and either the exception or [(width, height)] with
      [gridspec_kw]. *)
Definition _subplots_geometry (kw : subplots_kw num)
    : subplots_kw num * result (num * num * gridspec_kw num) :=
    match solve_extents kw with
    | Raise e => (kw, Raise e)
    | Ok (m, l) =>
        match bound (axwidth_all l) with
        | Raise e => (kw, Raise e)
        | Ok axwidth_all =>
        if axwidth_all <# of_Z 0 then (kw, Raise ValueError) else
        match bound (axheight_all l) with
        | Raise e => (kw, Raise e)
        | Ok axheight_all =>
        if axheight_all <# of_Z 0 then (kw, Raise ValueError) else
        let wratios_main := rescale axwidth_all (wratios_main m) in
        let hratios_main := rescale axheight_all (hratios_main m) in
        let hratios := write_back (kw_hratios kw) (idxs_ratios_h m) hratios_main in
        let wratios := write_back (kw_wratios kw) (idxs_ratios_w m) wratios_main in
        let kw' := set_ratios kw wratios hratios in
        (kw',
         width ← need (width l);
         height ← need (height l);
         left ← kw_left kw /# width;
         bottom ← kw_bottom kw /# height;
         q ← kw_right kw /# width;
         let right := of_Z 1 -# q in
         q ← kw_top kw /# height;
         let top := of_Z 1 -# q in
         Ok (width, height,
             {| gk_ncols := kw_ncols kw; gk_nrows := kw_nrows kw;
                gk_wspace := kw_wspace kw; gk_hspace := kw_hspace kw;
                gk_width_ratios := wratios; gk_height_ratios := hratios;
                gk_left := left; gk_bottom := bottom;
                gk_right := right; gk_top := top |}))
        end
        end
    end.
End Geometry.

(** ** [FlexibleGridSpec] *)

Record FlexibleGridSpec (num : Type) : Type := {
  _nrows : Z;
  _ncols : Z;
  _nrows_active : Z;
  _ncols_active : Z;
  width_ratios : list num;
  height_ratios : list num;
  gs_left : num;
  gs_bottom : num;
  gs_right : num;
  gs_top : num
}.
Arguments _nrows {num} _.
Arguments _ncols {num} _.
Arguments _nrows_active {num} _.
Arguments _ncols_active {num} _.
Arguments width_ratios {num} _.
Arguments height_ratios {num} _.
Arguments gs_left {num} _.
Arguments gs_bottom {num} _.
Arguments gs_right {num} _.
Arguments gs_top {num} _.

(** The list built by [final = [None]*n; final[::2] = ratios;
    final[1::2] = spaces] when [ratios] has one element more than
    [spaces], which [_spaces_as_ratios] has checked by then. *)
Fixpoint interleave {A} (ratios spaces : list A) : list A :=
  match ratios with
  | [] => []
  | r :: ratios' =>
      match spaces with
      | [] => [r]
      | s :: spaces' => r :: s :: interleave ratios' spaces'
      end
  end.

Section GridSpec.
  Context {num : Type}.

Definition get_geometry (self : FlexibleGridSpec num) : Z * Z :=
    (_nrows self, _ncols self).

Definition get_active_geometry (self : FlexibleGridSpec num) : Z * Z :=
    (_nrows_active self, _ncols_active self).

  (** [if len(a) == 1: a = np.repeat(a, (n,))] *)
Definition repeat_single (a : list num) (n : Z) : result (list num) :=
    match a with
    | [x] => if n <? 0 then Raise ValueError else Ok (replicate (Z.to_nat n) x)
    | _ => Ok a
    end.

  (** [FlexibleGridSpec._spaces_as_ratios], called with the four keywords
      present, on a gridspec of [nrows] x [ncols] active slots. *)
Definition _spaces_as_ratios (active : Z * Z) (kw : gridspec_kw num)
    : result (list num * list num) :=
    let '(nrows, ncols) := active in
    wspace ← repeat_single (gk_wspace kw) (ncols - 1);
    hspace ← repeat_single (gk_hspace kw) (nrows - 1);
    wratios ← repeat_single (gk_width_ratios kw) ncols;
    hratios ← repeat_single (gk_height_ratios kw) nrows;
    if negb (len hratios =? nrows) then Raise ValueError
    else if negb (len wratios =? ncols) then Raise ValueError
    else if negb (len wspace =? ncols - 1) then Raise ValueError
    else if negb (len hspace =? nrows - 1) then Raise ValueError
    else Ok (interleave wratios wspace, interleave hratios hspace).

  (** [FlexibleGridSpec.__init__] on the keywords [gridspec_kw] *)
Definition FlexibleGridSpec_init (kw : gridspec_kw num)
    : result (FlexibleGridSpec num) :=
    let nrows := gk_nrows kw in
    let ncols := gk_ncols kw in
    '(wratios, hratios) ← _spaces_as_ratios (nrows, ncols) kw;
    Ok {| _nrows := nrows * 2 - 1; _ncols := ncols * 2 - 1;
          _nrows_active := nrows; _ncols_active := ncols;
          width_ratios := wratios; height_ratios := hratios;
          gs_left := gk_left kw; gs_bottom := gk_bottom kw;
          gs_right := gk_right kw; gs_top := gk_top kw |}.

  (** [FlexibleGridSpec.update] on the keywords [gridspec_kw], up to line
      539.  What follows is matplotlib's: [fig.subplotpars.update] (line
      541), which has checks of its own on the margins, and the positions
      pushed to the axes. *)
Definition update (self : FlexibleGridSpec num) (kw : gridspec_kw num)
    : result (FlexibleGridSpec num) :=
    '(wratios, hratios) ← _spaces_as_ratios (get_active_geometry self) kw;
    Ok {| _nrows := _nrows self; _ncols := _ncols self;
          _nrows_active := _nrows_active self;
          _ncols_active := _ncols_active self;
          width_ratios := wratios; height_ratios := hratios;
          gs_left := gk_left kw; gs_bottom := gk_bottom kw;
          gs_right := gk_right kw; gs_top := gk_top kw |}.

  (** [FlexibleGridSpec.__getitem__] *)
Definition __getitem__ (self : FlexibleGridSpec num) (key : index)
    : result FlexibleSubplotSpec :=
    let '(nrows, ncols) := get_geometry self in
    let '(nrows_active, ncols_active) := get_active_geometry self in
    '(num1, num2) ←
      match key with
      | Single k => _normalize k (nrows_active * ncols_active)
      | Tuple [k1; k2] =>
          num1 ← _normalize k1 nrows_active;
          num2 ← _normalize k2 ncols_active;
          ravel_multi_index num1 num2 (nrows, ncols)
      | Tuple _ => Raise ValueError
      end;
    let num1 := _positem num1 in
    let num2 := _positem num2 in
    Ok {| ss_geometry := get_geometry self; num1 := num1; num2 := Some num2 |}.
End GridSpec.

(** ** The figure *)

(** [subplots_orig_kw]: the spacings the user gave, [None] where tight
    layout is free to choose. *)
Record orig_kw (num : Type) : Type := {
  ok_left : option num;
  ok_right : option num;
  ok_top : option num;
  ok_bottom : option num;
  ok_wspace : list (option num);
  ok_hspace : list (option num)
}.
Arguments ok_left {num} _.
Arguments ok_right {num} _.
Arguments ok_top {num} _.
Arguments ok_bottom {num} _.
Arguments ok_wspace {num} _.
Arguments ok_hspace {num} _.

(** An axes: its subplot specification, or [None] when it has no
    [get_subplotspec]. *)
Record Axes : Type := {
  subplotspec : option SubplotSpec
}.

(** The state of a [Figure] that the layout methods read and write.
    [fig_axes] is the list
    [[iax for ax in self._iter_axes() for iax in (ax, *ax.child_axes)]]. *)
Record Figure (num : Type) : Type := {
  _subplots_kw : subplots_kw num;
  _subplots_orig_kw : orig_kw num;
  _gridspec_main : FlexibleGridSpec num;
  fig_axes : list Axes;
  size_inches : num * num;
  _pad : num;
  _axpad : num;
  _panelpad : num;
  dpi : num
}.
Arguments _subplots_kw {num} _.
Arguments _subplots_orig_kw {num} _.
Arguments _gridspec_main {num} _.
Arguments fig_axes {num} _.
Arguments size_inches {num} _.
Arguments _pad {num} _.
Arguments _axpad {num} _.
Arguments _panelpad {num} _.
Arguments dpi {num} _.

(** The panel side [s = side[0]] once it has passed [s not in 'lrbt']. *)
Definition side_letter (side : string) : result panel :=
  match side with
  | EmptyString => Raise IndexError
  | String c _ =>
      if Ascii.eqb c "l" then Ok tag_l
      else if Ascii.eqb c "r" then Ok tag_r
      else if Ascii.eqb c "b" then Ok tag_b
      else if Ascii.eqb c "t" then Ok tag_t
      else Raise ValueError
  end.

(** [s in 'br'], [s in 'tl'], [s in 'lr'], [s in 'lt'] for a side letter *)
Definition in_br (s : panel) : bool :=
  match s with tag_b | tag_r => true | _ => false end.
Definition in_tl (s : panel) : bool :=
  match s with tag_t | tag_l => true | _ => false end.
Definition in_lr (s : panel) : bool :=
  match s with tag_l | tag_r => true | _ => false end.

(** [1*bool(b)] *)
Definition int_of_bool (b : bool) : Z := if b then 1 else 0.

(** Lines 1320-1333: the coordinates at or past the inserted slot move by
    one, along the axis of the insertion only. *)
Definition bump (insert : option Z) (coord : Z) : Z :=
  match insert with
  | Some i => if coord >=? i then coord + 1 else coord
  | None => coord
  end.

Definition shift_coords (s : panel) (idx : Z) (coords : Z * Z * Z * Z)
  : Z * Z * Z * Z :=
  let '(i1, i2, i3, i4) :=
    if in_lr s then (None, None, Some idx, Some idx)
    else (Some idx, Some idx, None, None) in
  let '(row1, row2, col1, col2) := coords in
  (bump i1 row1, bump i2 row2, bump i3 col1, bump i4 col2).

Section Figure.
  Context {num : Type} `{Number num}.
  Variable rc : rc_settings num.
  Local Open Scope num_scope.

  (** [_panels_kwargs], on lengths that are numbers already; it returns
      [(share, width, space, space_orig)]. *)
Definition _panels_kwargs (side : string) (share : option bool)
      (width space : option num) (filled figure : bool)
    : result (bool * num * num * option num) :=
    s ← side_letter side;
    let space_orig := space in
    let default_ :=
      if filled then rc_colorbar_width rc else rc_subplots_panelwidth rc in
    let share := _notNone share (negb filled) in
    let width := _notNone width default_ in
    let space :=
      _notNone space
        (if share && negb figure then rc_subplots_panelspace rc
         else if bool_decide (s = tag_b) then rc_subplots_xlabspace rc
         else if bool_decide (s = tag_l) then rc_subplots_ylabspace rc
         else if figure then rc_subplots_innerspace rc
         else rc_subplots_panelspace rc) in
    Ok (share, width, space, space_orig).

  (** The body of the loop of lines 1315-1343 for one axes of the list. *)
Definition reassign_subplotspec (gridspec : FlexibleGridSpec num)
      (s : panel) (idx : Z) (ax : Axes) : result Axes :=
    match subplotspec ax with
    | None => Ok ax
    | Some subplotspec =>
        let topmost := get_topmost_subplotspec subplotspec in
        '(nrows, ncols, row1, row2, col1, col2) ←
          get_active_rows_columns topmost;
        let '(row1, row2, col1, col2) :=
          shift_coords s idx (row1, row2, col1, col2) in
        subplotspec_new ←
          __getitem__ gridspec
            (Tuple [range_ row1 (row2 + 1); range_ col1 (col2 + 1)]);
        match subplotspec with
        | OnMain _ =>
            (* topmost is subplotspec *)
            Ok {| subplotspec := Some (OnMain subplotspec_new) |}
        | Nested n m (OnMain _) n1 n2 =>
            (* topmost is igridspec._subplot_spec *)
            Ok {| subplotspec :=
                    Some (Nested n m (OnMain subplotspec_new) n1 n2) |}
        | Nested _ _ (Nested _ _ _ _ _) _ _ =>
            Raise ValueError
        end
    end.

  (** The loop itself: an exception leaves the axes already visited
      reassigned and the others as they were. *)
Fixpoint reassign_all (gridspec : FlexibleGridSpec num) (s : panel)
      (idx : Z) (axs : list Axes) : list Axes * result unit :=
    match axs with
    | [] => ([], Ok ())
    | ax :: rest =>
        match reassign_subplotspec gridspec s idx ax with
        | Raise e => (ax :: rest, Raise e)
        | Ok ax' =>
            let '(rest', r) := reassign_all gridspec s idx rest in
            (ax' :: rest', r)
        end
    end.

  (** The four arrays of one direction, [w] or [h]. *)
Record arrays : Type := {
    panels : list panel;
    ratios : list num;
    spaces : list num;
    spaces_orig : list (option num)
  }.

Definition load_arrays (lr : bool) (fig : Figure num) : arrays :=
    let kw := _subplots_kw fig in
    let orig := _subplots_orig_kw fig in
    if lr then
      {| panels := kw_wpanels kw; ratios := kw_wratios kw;
         spaces := kw_wspace kw; spaces_orig := ok_wspace orig |}
    else
      {| panels := kw_hpanels kw; ratios := kw_hratios kw;
         spaces := kw_hspace kw; spaces_orig := ok_hspace orig |}.

  (** The figure once the lists of one direction hold [a] and the count
      of that direction has grown by [grow]. *)
Definition store_arrays (lr : bool) (grow : Z) (a : arrays)
      (fig : Figure num) : Figure num :=
    let kw := _subplots_kw fig in
    let orig := _subplots_orig_kw fig in
    {| _subplots_kw :=
         {| kw_nrows := if lr then kw_nrows kw else (kw_nrows kw + grow)%Z;
            kw_ncols := if lr then (kw_ncols kw + grow)%Z else kw_ncols kw;
            kw_aspect := kw_aspect kw;
            kw_xref := kw_xref kw; kw_yref := kw_yref kw;
            kw_width := kw_width kw; kw_height := kw_height kw;
            kw_axwidth := kw_axwidth kw; kw_axheight := kw_axheight kw;
            kw_wspace := if lr then spaces a else kw_wspace kw;
            kw_hspace := if lr then kw_hspace kw else spaces a;
            kw_wratios := if lr then ratios a else kw_wratios kw;
            kw_hratios := if lr then kw_hratios kw else ratios a;
            kw_left := kw_left kw; kw_bottom := kw_bottom kw;
            kw_right := kw_right kw; kw_top := kw_top kw;
            kw_wpanels := if lr then panels a else kw_wpanels kw;
            kw_hpanels := if lr then kw_hpanels kw else panels a |};
       _subplots_orig_kw :=
         {| ok_left := ok_left orig; ok_right := ok_right orig;
            ok_top := ok_top orig; ok_bottom := ok_bottom orig;
            ok_wspace := if lr then spaces_orig a else ok_wspace orig;
            ok_hspace := if lr then ok_hspace orig else spaces_orig a |};
       _gridspec_main := _gridspec_main fig;
       fig_axes := fig_axes fig;
       size_inches := size_inches fig;
       _pad := _pad fig; _axpad := _axpad fig; _panelpad := _panelpad fig;
       dpi := dpi fig |}.

  (** Line 1279: [idx not in (-1, len(panels)) and panels[idx] == entry] *)
Definition slot_exists (panels : list panel) (idx : Z) (entry : panel)
    : result bool :=
    if (idx =? -1) || (idx =? len panels) then Ok false
    else p ← getitem_Z panels idx; Ok (bool_decide (p = entry)).

  (** Lines 1280-1283: the slot exists, only the space is stored. *)
Definition update_space (a : arrays) (idx_space : Z) (space : num)
      (space_orig : option num) : arrays * result unit :=
    match getitem_Z (spaces_orig a) idx_space with
    | Raise e => (a, Raise e)
    | Ok o =>
        match (match o with
               | None => setitem_Z (spaces_orig a) idx_space space_orig
               | Some _ => Ok (spaces_orig a)
               end) with
        | Raise e => (a, Raise e)
        | Ok spaces_orig' =>
            let a' := {| panels := panels a; ratios := ratios a;
                         spaces := spaces a; spaces_orig := spaces_orig' |} in
            match getitem_Z spaces_orig' idx_space with
            | Raise e => (a', Raise e)
            | Ok o' =>
                match setitem_Z (spaces a) idx_space (_notNone o' space) with
                | Raise e => (a', Raise e)
                | Ok spaces' =>
                    ({| panels := panels a; ratios := ratios a;
                        spaces := spaces'; spaces_orig := spaces_orig' |},
                     Ok ())
                end
            end
        end
    end.

  (** Lines 1286-1294: room is made for a new slot. *)
Definition insert_slot (a : arrays) (idx idx_space : Z) (entry : panel)
      (ratio space : num) (space_orig : option num) : arrays :=
    {| spaces_orig := list_insert_Z (spaces_orig a) idx_space space_orig;
       spaces := list_insert_Z (spaces a) idx_space space;
       ratios := list_insert_Z (ratios a) idx ratio;
       panels := list_insert_Z (panels a) idx entry |}.

Definition set_subplots_kw (fig : Figure num) (kw : subplots_kw num)
    : Figure num :=
    {| _subplots_kw := kw; _subplots_orig_kw := _subplots_orig_kw fig;
       _gridspec_main := _gridspec_main fig; fig_axes := fig_axes fig;
       size_inches := size_inches fig;
       _pad := _pad fig; _axpad := _axpad fig; _panelpad := _panelpad fig;
       dpi := dpi fig |}.

  (** What [Figure.set_size_inches] stores.  The method is matplotlib's,
      and refuses the sizes it does not accept with a [ValueError] of its
      own, which is not modelled. *)
Definition set_size_inches (fig : Figure num) (figsize : num * num)
    : Figure num :=
    {| _subplots_kw := _subplots_kw fig;
       _subplots_orig_kw := _subplots_orig_kw fig;
       _gridspec_main := _gridspec_main fig; fig_axes := fig_axes fig;
       size_inches := figsize;
       _pad := _pad fig; _axpad := _axpad fig; _panelpad := _panelpad fig;
       dpi := dpi fig |}.

Definition set_gridspec (fig : Figure num) (gridspec : FlexibleGridSpec num)
      (axs : list Axes) : Figure num :=
    {| _subplots_kw := _subplots_kw fig;
       _subplots_orig_kw := _subplots_orig_kw fig;
       _gridspec_main := gridspec; fig_axes := axs;
       size_inches := size_inches fig;
       _pad := _pad fig; _axpad := _axpad fig; _panelpad := _panelpad fig;
       dpi := dpi fig |}.

  (** Lines 1301-1345: the figure is solved again and, for a new slot,
      gets a new gridspec onto which every axes is reassigned. *)
Definition update_figure (fig : Figure num) (s : panel) (idx : Z)
      (exists_ : bool) : Figure num * result (FlexibleGridSpec num) :=
    let '(kw', solved) := _subplots_geometry rc (_subplots_kw fig) in
    let fig := set_subplots_kw fig kw' in
    match solved with
    | Raise e => (fig, Raise e)
    | Ok (width, height, gridspec_kw) =>
        let fig := set_size_inches fig (width, height) in
        if exists_ then
          match update (_gridspec_main fig) gridspec_kw with
          | Raise e => (fig, Raise e)
          | Ok gridspec => (set_gridspec fig gridspec (fig_axes fig), Ok gridspec)
          end
        else
          match FlexibleGridSpec_init gridspec_kw with
          | Raise e => (fig, Raise e)
          | Ok gridspec =>
              let '(axs, r) := reassign_all gridspec s idx (fig_axes fig) in
              (set_gridspec fig gridspec axs,
               match r with Raise e => Raise e | Ok _ => Ok gridspec end)
          end
    end.

  (** [Figure._insert_row_column] *)
Definition _insert_row_column (fig : Figure num) (side : string) (idx : Z)
      (ratio space : num) (space_orig : option num) (figure : bool)
    : Figure num * result (FlexibleGridSpec num) :=
    match side_letter side with
    | Raise e => (fig, Raise e)
    | Ok s =>
        let idx_space := (idx - int_of_bool (in_br s))%Z in
        let idx_offset := int_of_bool (in_tl s) in
        let lr := in_lr s in
        let a := load_arrays lr fig in
        let entry := if figure then tag_f else s in
        match slot_exists (panels a) idx entry with
        | Raise e => (fig, Raise e)
        | Ok true =>
            let '(a', r) := update_space a idx_space space space_orig in
            let fig := store_arrays lr 0 a' fig in
            match r with
            | Raise e => (fig, Raise e)
            | Ok _ => update_figure fig s idx true
            end
        | Ok false =>
            let idx := (idx + idx_offset)%Z in
            let idx_space := (idx_space + idx_offset)%Z in
            let a' := insert_slot a idx idx_space entry ratio space space_orig in
            update_figure (store_arrays lr 1 a' fig) s idx false
        end
    end.
End Figure.

(** ** Tight layout: [Figure._adjust_tight_layout] *)

(** What the renderer and the axes report for one axes of the figure:
    [_range_gridspec('x')], [_range_gridspec('y')] (inclusive ranges of
    active columns and rows) and [_range_tightbbox('x')],
    [_range_tightbbox('y')] (the extent of the drawn content, in dots). *)
Record measured (num : Type) : Type := {
  range_gridspec_x : Z * Z;
  range_gridspec_y : Z * Z;
  range_tightbbox_x : num * num;
  range_tightbbox_y : num * num
}.
Arguments range_gridspec_x {num} _.
Arguments range_gridspec_y {num} _.
Arguments range_tightbbox_x {num} _.
Arguments range_tightbbox_y {num} _.

Record Bbox (num : Type) : Type := {
  xmin : num;
  ymin : num;
  xmax : num;
  ymax : num
}.
Arguments xmin {num} _.
Arguments ymin {num} _.
Arguments xmax {num} _.
Arguments ymax {num} _.

(** Lines 1055-1057: the spaces that get [panelpad] rather than
    [axpad]. *)
Definition is_panel_space (p0 p1 : panel) : bool :=
  match p0, p1 with
  | (tag_l | tag_t), (tag_l | tag_t | main_) => true
  | (main_ | tag_r | tag_b), (tag_r | tag_b) => true
  | tag_f, tag_f => true
  | _, _ => false
  end.

(** [np.where(mask)] over the axes list *)
Fixpoint where_ {A} (f : A -> bool) (i : nat) (l : list A) : list nat :=
  match l with
  | [] => []
  | a :: l' => if f a then i :: where_ f (S i) l' else where_ f (S i) l'
  end.

(** Lines 1082-1090: the pair joins the first group that holds one of its
    axes, or opens a new group. *)
Fixpoint add_group (ax1 ax2 : nat) (groups : list (gset nat * gset nat))
  : list (gset nat * gset nat) :=
  match groups with
  | [] => [({[ ax1 ]}, {[ ax2 ]})]
  | (group1, group2) :: rest =>
      if bool_decide (ax1 ∈ group1 ∨ ax2 ∈ group2)
      then ({[ ax1 ]} ∪ group1, {[ ax2 ]} ∪ group2) :: rest
      else (group1, group2) :: add_group ax1 ax2 rest
  end.

Section TightLayout.
  Context {num : Type} `{Number num}.
  Variable rc : rc_settings num.
  Local Open Scope num_scope.

  (** Which direction a pass of the loop of line 1042 works along. *)
Definition ralong (x_is_x : bool) (ax : measured num) : Z * Z :=
    if x_is_x then range_gridspec_x ax else range_gridspec_y ax.
Definition racross (x_is_x : bool) (ax : measured num) : Z * Z :=
    if x_is_x then range_gridspec_y ax else range_gridspec_x ax.
Definition _range_tightbbox (x_is_x : bool) (ax : measured num) : num * num :=
    if x_is_x then range_tightbbox_x ax else range_tightbbox_y ax.

  (** Lines 1063-1090 for one [j]. *)
Definition group_step (x_is_x : bool) (axs : list (measured num)) (i : Z)
      (groups : list (gset nat * gset nat)) (j : Z)
    : list (gset nat * gset nat) :=
    let filt ax := (fst (racross x_is_x ax) <=? j) && (j <=? snd (racross x_is_x ax)) in
    let filt1 ax := snd (ralong x_is_x ax) =? i in
    let filt2 ax := fst (ralong x_is_x ax) =? i + 1 in
    if (length (where_ filt 0 axs) <? 2)%nat then groups
    else
      let idx1 := where_ (fun ax => filt ax && filt1 ax) 0 axs in
      let idx2 := where_ (fun ax => filt ax && filt2 ax) 0 axs in
      if (1 <? length idx1)%nat || (2 <? length idx2)%nat then groups
      else
        match idx1, idx2 with
        | idx1 :: _, idx2 :: _ =>
            let '(ax1, ax2) := if x_is_x then (idx1, idx2) else (idx2, idx1) in
            add_group ax1 ax2 groups
        | _, _ => groups
        end.

  (** [range(n)] *)
Definition range (n : Z) : list Z := map Z.of_nat (seq 0 (Z.to_nat n)).

  (** Lines 1060-1090: the groups of axes that face each other across
      space [i]. *)
Definition groups_of (x_is_x : bool) (axs : list (measured num)) (i : Z)
      (nacross : Z) : list (gset nat * gset nat) :=
    fold_left (group_step x_is_x axs i) (range nacross) [].

  (** Lines 1096-1098 for one group. *)
Definition group_space (dpi : num) (x_is_x : bool) (axs : list (measured num))
      (g : gset nat * gset nat) : result num :=
    hi ← mapM (fun k => ax ← getitem_nat axs k; Ok (snd (_range_tightbbox x_is_x ax)))
             (elements (fst g));
    lo ← mapM (fun k => ax ← getitem_nat axs k; Ok (fst (_range_tightbbox x_is_x ax)))
             (elements (snd g));
    x1 ← max_list hi;
    x2 ← min_list lo;
    (x2 -# x1) /# dpi.

  (** Lines 1051-1102: the body of the loop for space [i]; it returns the
      value stored in [jspace[i]]. *)
Definition tight_space (fig : Figure num) (x_is_x : bool)
      (axs : list (measured num)) (panels : list panel) (nacross : Z)
      (i : nat) (space : num) (space_orig : option num) : result num :=
    p0 ← getitem_nat panels i;
    p1 ← getitem_nat panels (i + 1);
    let pad := if is_panel_space p0 p1 then _panelpad fig else _axpad fig in
    let groups := groups_of x_is_x axs (Z.of_nat i) nacross in
    jspaces ← mapM (group_space (dpi fig) x_is_x axs) groups;
    match jspaces with
    | [] => Ok space
    | _ :: _ =>
        m ← min_list jspaces;
        let space := max2 (of_Z 0) (space -# m +# pad) in
        Ok (_notNone space_orig space)
    end.

  (** The loop of line 1051 over [enumerate(zip(ispace, ispace_orig))],
      writing into the copy [jspace] of [ispace]. *)
Definition tight_spaces (fig : Figure num) (x_is_x : bool)
      (axs : list (measured num)) (panels : list panel) (nacross : Z)
      (ispace : list num) (ispace_orig : list (option num))
    : result (list num) :=
    fold_left
      (fun (acc : result (list num)) (e : nat * (num * option num)) =>
         jspace ← acc;
         space ← tight_space fig x_is_x axs panels nacross
                   (fst e) (fst (snd e)) (snd (snd e));
         Ok (<[fst e := space]> jspace))
      (enumerate (zip ispace ispace_orig))
      (Ok ispace).

  (** Lines 1018-1031: the margins. *)
Definition tight_margins (fig : Figure num) (obox bbox : Bbox num)
    : subplots_kw num :=
    let kw := _subplots_kw fig in
    let orig := _subplots_orig_kw fig in
    let pad := _pad fig in
    let left := xmin bbox in
    let bottom := ymin bbox in
    let right := xmax obox -# xmax bbox in
    let top := ymax obox -# ymax bbox in
    {| kw_nrows := kw_nrows kw; kw_ncols := kw_ncols kw;
       kw_aspect := kw_aspect kw; kw_xref := kw_xref kw; kw_yref := kw_yref kw;
       kw_width := kw_width kw; kw_height := kw_height kw;
       kw_axwidth := kw_axwidth kw; kw_axheight := kw_axheight kw;
       kw_wspace := kw_wspace kw; kw_hspace := kw_hspace kw;
       kw_wratios := kw_wratios kw; kw_hratios := kw_hratios kw;
       kw_left := _notNone (ok_left orig) (kw_left kw -# left +# pad);
       kw_bottom := _notNone (ok_bottom orig) (kw_bottom kw -# bottom +# pad);
       kw_right := _notNone (ok_right orig) (kw_right kw -# right +# pad);
       kw_top := _notNone (ok_top orig) (kw_top kw -# top +# pad);
       kw_wpanels := kw_wpanels kw; kw_hpanels := kw_hpanels kw |}.

  (** Lines 1106-1108: [subplots_kw.update] with the new spaces. *)
Definition set_spaces (kw : subplots_kw num) (wspace hspace : list num)
    : subplots_kw num :=
    {| kw_nrows := kw_nrows kw; kw_ncols := kw_ncols kw;
       kw_aspect := kw_aspect kw; kw_xref := kw_xref kw; kw_yref := kw_yref kw;
       kw_width := kw_width kw; kw_height := kw_height kw;
       kw_axwidth := kw_axwidth kw; kw_axheight := kw_axheight kw;
       kw_wspace := wspace; kw_hspace := hspace;
       kw_wratios := kw_wratios kw; kw_hratios := kw_hratios kw;
       kw_left := kw_left kw; kw_bottom := kw_bottom kw;
       kw_right := kw_right kw; kw_top := kw_top kw;
       kw_wpanels := kw_wpanels kw; kw_hpanels := kw_hpanels kw |}.

  (** [Figure._adjust_tight_layout]; [axs] is what the axes of
      [_iter_axes()] report, [obox] is [bbox_inches] and [bbox] the tight
      bounding box of the figure. *)
Definition _adjust_tight_layout (fig : Figure num)
      (axs : list (measured num)) (obox bbox : Bbox num)
    : Figure num * result unit :=
    match axs with
    | [] => (fig, Ok ())
    | _ :: _ =>
        let fig := set_subplots_kw fig (tight_margins fig obox bbox) in
        let kw := _subplots_kw fig in
        let orig := _subplots_orig_kw fig in
        let '(nrows, ncols) := get_active_geometry (_gridspec_main fig) in
        match
          (wspace ← tight_spaces fig true axs (kw_wpanels kw) nrows
                      (kw_wspace kw) (ok_wspace orig);
           hspace ← tight_spaces fig false axs (kw_hpanels kw) ncols
                      (kw_hspace kw) (ok_hspace orig);
           Ok (wspace, hspace))
        with
        | Raise e => (fig, Raise e)
        | Ok (wspace, hspace) =>
            let fig := set_subplots_kw fig (set_spaces kw wspace hspace) in
            let '(kw', solved) := _subplots_geometry rc (_subplots_kw fig) in
            let fig := set_subplots_kw fig kw' in
            match solved with
            | Raise e => (fig, Raise e)
            | Ok (width, height, gridspec_kw) =>
                match update (_gridspec_main fig) gridspec_kw with
                | Raise e => (fig, Raise e)
                | Ok gridspec =>
                    (set_size_inches
                       (set_gridspec fig gridspec (fig_axes fig))
                       (width, height),
                     Ok ())
                end
            end
        end
    end.
End TightLayout.

(** ** Creating the figure: the end of [subplots] *)

Section Subplots.
  Context {num : Type} `{Number num}.
  Variable rc : rc_settings num.

  (** Lines 2086-2119 of [subplots]: the geometry is solved, the figure
      and its gridspec are created, and one axes is drawn for each pair of
      inclusive ranges [((x0, x1), (y0, y1))] of active columns and rows. *)
Definition subplots_figure (kw : subplots_kw num) (orig : orig_kw num)
      (ranges : list ((Z * Z) * (Z * Z))) (pad axpad panelpad dpi : num)
    : result (Figure num) :=
    let '(subplots_kw, solved) := _subplots_geometry rc kw in
    '(width, height, gridspec_kw) ← solved;
    gridspec ← FlexibleGridSpec_init gridspec_kw;
    axs ← mapM (fun '((x0, x1), (y0, y1)) =>
                  subplotspec ←
                    __getitem__ gridspec
                      (Tuple [range_ y0 (y1 + 1); range_ x0 (x1 + 1)]);
                  Ok {| subplotspec := Some (OnMain subplotspec) |})
               ranges;
    Ok {| _subplots_kw := subplots_kw; _subplots_orig_kw := orig;
          _gridspec_main := gridspec; fig_axes := axs;
          size_inches := (width, height);
          _pad := pad; _axpad := axpad; _panelpad := panelpad; dpi := dpi |}.
End Subplots.

(** ** Reading a gridspec back *)

(** [l[::2]] *)
Fixpoint evens {A} (l : list A) : list A :=
  match l with
  | [] => []
  | [x] => [x]
  | x :: _ :: l' => x :: evens l'
  end.

(** [l[1::2]] *)
Definition odds {A} (l : list A) : list A := evens (tail l).

(** [FlexibleGridSpec.get_hspace] *)
Definition get_hspace {num} (self : FlexibleGridSpec num) : list num :=
  odds (height_ratios self).

(** [FlexibleGridSpec.get_wspace] *)
Definition get_wspace {num} (self : FlexibleGridSpec num) : list num :=
  odds (width_ratios self).

(** [FlexibleGridSpec.get_active_height_ratios] *)
Definition get_active_height_ratios {num} (self : FlexibleGridSpec num)
  : list num :=
  evens (height_ratios self).

(** [FlexibleGridSpec.get_active_width_ratios] *)
Definition get_active_width_ratios {num} (self : FlexibleGridSpec num)
  : list num :=
  evens (width_ratios self).

(** [FlexibleGridSpec.get_margins] *)
Definition get_margins {num} (self : FlexibleGridSpec num)
  : num * num * num * num :=
  (gs_left self, gs_bottom self, gs_right self, gs_top self).

(** ** The container of axes: [axes_grid] *)

(** [[*range(start, stop, step)]] *)
Definition py_range (start stop step : Z) : result (list Z) :=
  if step =? 0 then Raise ValueError
  else
    let n := if 0 <? step then (stop - start + step - 1) / step
             else (start - stop - step - 1) / (- step) in
    Ok (map (fun k => start + Z.of_nat k * step) (seq 0 (Z.to_nat n))).

(** [list.__getitem__(l, s)] for a slice [s] *)
Definition list_getslice {A} (l : list A) (s : slice) : result (list A) :=
  '(a, b) ← slice_indices s (len l);
  positions ← py_range a b (default 1 (step s));
  mapM (fun i => getitem_nat l (Z.to_nat i)) positions.

(** An [axes_grid]: the list itself, [_n], whether [_order] is ['C'], and
    [shape]. *)
Record axes_grid (A : Type) : Type := {
  items : list A;
  _n : Z;
  _order_C : bool;
  shape : Z * Z
}.
Arguments items {A} _.
Arguments _n {A} _.
Arguments _order_C {A} _.
Arguments shape {A} _.

(** [axes_grid.__init__] on a list of axes *)
Definition axes_grid_init {A} (objs : list A) (n : Z) (order_C : bool)
  : result (axes_grid A) :=
  if n =? 0 then Raise ZeroDivisionError
  else
    Ok {| items := objs; _n := n; _order_C := order_C;
          shape := if order_C then (len objs / n, n) else (n, len objs / n) |}.

(** What [axes_grid.__getitem__] returns: one axes, or an [axes_grid]. *)
Inductive picked (A : Type) : Type :=
| One (a : A)
| Many (g : axes_grid A).
Arguments One {A} a.
Arguments Many {A} g.

Definition is_slice (k : key) : bool :=
  match k with KSlice _ => true | KInt _ => false end.

(** Lines 199-215: the positions one key of a pair stands for, along a
    dimension of length [n]. *)
Definition expand_key (ikey : key) (n : Z) : result (list Z) :=
  match ikey with
  | KSlice s =>
      let start := match start s with
                   | None => 0
                   | Some v => if v <? 0 then n + v else v
                   end in
      let stop := match stop s with
                  | None => n
                  | Some v => if v <? 0 then n + v else v
                  end in
      py_range start stop (default 1 (step s))
  | KInt ikey => Ok [if ikey <? 0 then n + ikey else ikey]
  end.

(** [[f(a, b) for a in l1 for b in l2]] *)
Definition for_for {A B C} (f : A -> B -> C) (l1 : list A) (l2 : list B)
  : list C :=
  concat (map (fun a => map (f a) l2) l1).

(** [axes_grid.__getitem__] *)
Definition axes_grid_getitem {A} (self : axes_grid A) (key : index)
  : result (picked A) :=
  let key := match key with Tuple [k] => Single k | _ => key end in
  match key with
  | Single (KInt i) => a ← getitem_Z (items self) i; Ok (One a)
  | Single (KSlice s) =>
      objs ← list_getslice (items self) s;
      g ← axes_grid_init objs 1 true;
      Ok (Many g)
  | Tuple [k0; k1] =>
      let axlist := is_slice k0 || is_slice k1 in
      let other := if _n self =? 0 then Raise ZeroDivisionError
                   else Ok (len (items self) / _n self) in
      n0 ← (if _order_C self then other else Ok (_n self));
      keys0 ← expand_key k0 n0;
      n1 ← (if _order_C self then Ok (_n self) else other);
      keys1 ← expand_key k1 n1;
      let idxs :=
        if _order_C self
        then for_for (fun key0 key1 => key0 * _n self + key1) keys0 keys1
        else for_for (fun key1 key0 => key1 * _n self + key0) keys1 keys0 in
      objs ← mapM (getitem_Z (items self)) idxs;
      if axlist then g ← axes_grid_init objs 1 true; Ok (Many g)
      else match objs with
           | a :: _ => Ok (One a)
           | [] => Raise IndexError
           end
  | Tuple _ => Raise IndexError
  end.

(** ** Figure panels: the slot search of [Figure._add_figure_panel] *)

(** One of the arrays [_larray], [_rarray], [_barray], [_tarray]: a row
    of booleans for every figure panel slot of the side, [shape[1]]
    entries in each. *)
Record bool_array : Type := {
  ba_rows : list (list bool);
  ba_nalong : Z
}.

(** [any(l)] *)
Definition any_ (l : list bool) : bool := existsb id l.

(** [row[a:b] = x] *)
Definition set_slice {A} (row : list A) (a b : Z) (x : A) : list A :=
  match slice_indices (Slice (Some a) (Some b) None) (len row) with
  | Ok (i, j) =>
      imap (fun k y => if (i <=? Z.of_nat k) && (Z.of_nat k <? j) then x else y)
           row
  | Raise _ => row
  end.

(** Lines 913-921: the span, given as nothing, as one number (a list of
    one element here) or as a sequence, becomes [(start, stop)]. *)
Definition span_bounds (span : option (list Z)) (nalong : Z)
  : result (Z * Z) :=
  let span := default [1; nalong] span in
  let span := match span with [v] => [v; v] | _ => span end in
  match span with
  | [s0; s1] =>
      if (s0 <? 1) || (nalong <? s1) then Raise ValueError
      else Ok (s0 - 1, s1)
  | _ => Raise ValueError
  end.

(** The loop of line 928, from row [i] on: the first row whose span is
    free. *)
Fixpoint find_free (rows : list (list bool)) (start stop : Z) (i : nat)
  : option nat :=
  match rows with
  | [] => None
  | row :: rows' =>
      if negb (any_ (list_slice row start stop)) then Some i
      else find_free rows' start stop (S i)
  end.

(** Lines 927-946: the slot [iratio] for a figure panel over
    [start:stop] on side [s], and the array with the span booked. *)
Definition book_slot (s : panel) (nacross : Z) (array : bool_array)
    (start stop : Z) : Z * bool_array :=
  let npanels := len (ba_rows array) in
  let nalong := ba_nalong array in
  let '(iratio, rows) :=
    match find_free (ba_rows array) start stop 0 with
    | Some i =>
        (if in_tl s then npanels - 1 - Z.of_nat i
         else nacross - (npanels - Z.of_nat i),
         alter (fun row => set_slice row start stop true) i (ba_rows array))
    | None => (if in_tl s then -1 else nacross, ba_rows array)
    end in
  if (iratio =? -1) || (iratio =? nacross)
  then
    (iratio,
     {| ba_rows :=
          rows ++ [set_slice (replicate (Z.to_nat nalong) false) start stop true];
        ba_nalong := nalong |})
  else (iratio, {| ba_rows := rows; ba_nalong := nalong |}).

(** ** Properties per axes: [_axes_dict] *)

(** [[*range(1, naxs+1)]] *)
Definition axes_numbers (naxs : Z) : list Z :=
  map (fun k => Z.of_nat k + 1) (seq 0 (Z.to_nat naxs)).

(** What [_axes_dict] is given as [value]: one value for all axes (for
    [kw=True], a dictionary none of whose values is a dictionary), a
    sequence with one item per axes, a dictionary from axes numbers or
    tuples of axes numbers to items, listed in the order of its keys, or
    (for [kw=True]) a dictionary only some of whose values are
    dictionaries. *)
Inductive axes_value (V : Type) : Type :=
| ForAll (v : V)
| PerAxes (l : list V)
| ByNumber (d : list (list Z * V))
| Mixed.
Arguments ForAll {V} v.
Arguments PerAxes {V} l.
Arguments ByNumber {V} d.
Arguments Mixed {V}.

(** Lines 1704-1711: the keys that stand for several axes are unfurled. *)
Definition unfurl {V} (value : list (list Z * V)) : gmap Z V :=
  fold_left
    (fun (kwargs : gmap Z V) (e : list Z * V) =>
       fold_left (fun (kwargs : gmap Z V) num => <[num := snd e]> kwargs)
                 (fst e) kwargs)
    value ∅.

(** Lines 1712-1718: the axes without an entry get the default. *)
Definition fill_default {V} (naxs : Z) (default : V) (kwargs : gmap Z V)
  : gmap Z V :=
  fold_left
    (fun (kwargs : gmap Z V) num =>
       match kwargs !! num with
       | Some _ => kwargs
       | None => <[num := default]> kwargs
       end)
    (axes_numbers naxs) kwargs.

(** [_axes_dict]; [default] is the empty dictionary when [kw=True]. *)
Definition _axes_dict {V} (naxs : Z) (value : axes_value V) (default : V)
  : result (gmap Z V) :=
  value ← match value with
          | ForAll v => Ok [(axes_numbers naxs, v)]
          | PerAxes l => Ok (imap (fun num item => ([Z.of_nat num + 1], item)) l)
          | ByNumber d => Ok d
          | Mixed => Raise ValueError
          end;
  let kwargs := fill_default naxs default (unfurl value) in
  if bool_decide (list_to_set (axes_numbers naxs) = dom kwargs)
  then Ok kwargs else Raise ValueError.

(** ** Axes panels: [Figure._add_axes_panel] *)

(** [SIDE_TRANSLATE[s]] *)
Definition SIDE_TRANSLATE (s : panel) : result string :=
  match s with
  | tag_l => Ok "left"%string
  | tag_r => Ok "right"%string
  | tag_b => Ok "bottom"%string
  | tag_t => Ok "top"%string
  | _ => Raise IndexError
  end.

(** The one-letter string [s = side[0]] *)
Definition panel_letter (s : panel) : string :=
  match s with
  | tag_l => "l" | tag_r => "r" | tag_b => "b" | tag_t => "t"
  | tag_f => "f" | main_ => EmptyString
  end%string.

(** [idx += 1] on a key that is an integer *)
Definition key_succ (k : key) : key :=
  match k with KInt i => KInt (i + 1) | KSlice s => KSlice s end.

Section AxesPanel.
  Context {num : Type} `{Number num}.
  Variable rc : rc_settings num.

  (** Lines 825-864 of [Figure._add_axes_panel], up to the placement that
      is handed to [add_subplot]: [subplotspec] is the placement of the
      main axes the panel belongs to, [npanels] the number of panels the
      axes already has on that side.  The new gridspec is another object
      than the previous one exactly when [_insert_row_column] has made
      room for a slot, which it does when the slot did not exist. *)
Definition _add_axes_panel (fig : Figure num) (subplotspec : FlexibleSubplotSpec)
      (npanels : Z) (side : string) (share : option bool)
      (width space : option num) (filled : bool)
    : Figure num * result FlexibleSubplotSpec :=
    match side_letter side with
    | Raise e => (fig, Raise e)
    | Ok s =>
    match
      (side ← SIDE_TRANSLATE s;
       kwargs ← _panels_kwargs rc (panel_letter s) share width space filled false;
       coords ← get_active_rows_columns subplotspec;
       Ok (side, kwargs, coords))
    with
    | Raise e => (fig, Raise e)
    | Ok (side, (share, width, space, space_orig),
          (nrows, ncols, row1, row2, col1, col2)) =>
        let offset := (npanels * int_of_bool (negb (npanels =? 0)) + 1)%Z in
        let iratio :=
          if in_lr s
          then (if bool_decide (s = tag_l) then col1 - offset else col2 + offset)%Z
          else (if bool_decide (s = tag_t) then row1 - offset else row2 + offset)%Z in
        let '(idx1, idx2) :=
          if in_lr s then (range_ row1 (row2 + 1), KInt iratio)
          else (KInt iratio, range_ col1 (col2 + 1)) in
        let is_not_prev :=
          match slot_exists (panels (load_arrays (in_lr s) fig)) iratio s with
          | Ok exists_ => negb exists_
          | Raise _ => false
          end in
        let '(fig, r) :=
          _insert_row_column rc fig side iratio width space space_orig false in
        match r with
        | Raise e => (fig, Raise e)
        | Ok gridspec =>
            let '(idx1, idx2) :=
              if is_not_prev then
                if bool_decide (s = tag_t) then (key_succ idx1, idx2)
                else if bool_decide (s = tag_l) then (idx1, key_succ idx2)
                else (idx1, idx2)
              else (idx1, idx2) in
            (fig, __getitem__ gridspec (Tuple [idx1; idx2]))
        end
    end
    end.
End AxesPanel.

(** ** The array of subplot numbers: the beginning of [subplots] *)

(** What [subplots] is given as [array]: nothing, a sequence of numbers,
    or a sequence of rows of numbers. *)
Inductive array_arg : Type :=
| NoArray
| Array1D (l : list Z)
| Array2D (rows : list (list Z)).

(** [np.arange(1, nrows*ncols+1)[...,None].reshape((nrows, ncols), order=order)],
    as the list of its rows *)
Definition default_array (nrows ncols : Z) (order_C : bool) : list (list Z) :=
  map (fun r =>
         map (fun c => if order_C then r * ncols + c + 1 else c * nrows + r + 1)
             (range ncols))
      (range nrows).

(** Lines 1929-1941: the array as a two-dimensional array of integers,
    given as the list of its rows.  With a negative [nrows] or [ncols],
    [reshape] raises [ValueError] or gives an array without entries, which
    line 1947 refuses with [ValueError].  Rows of different lengths make
    no array of integers. *)
Definition standardize (array : array_arg) (nrows ncols : Z) (order_C : bool)
  : result (list (list Z)) :=
  let one_dim (l : list Z) :=
    if order_C then [l] else map (fun v => [v]) l in
  match array with
  | NoArray =>
      if (nrows <? 0) || (ncols <? 0) then Raise ValueError
      else Ok (default_array nrows ncols order_C)
  | Array1D l => Ok (one_dim l)
  | Array2D [] => Ok (one_dim [])
  | Array2D (row :: rows) =>
      if forallb (fun r => len r =? len row) rows then Ok (row :: rows)
      else Raise ValueError
  end.

(** [np.unique]: the values of a list, in increasing order and once each *)
Fixpoint insert_sorted (x : Z) (l : list Z) : list Z :=
  match l with
  | [] => [x]
  | y :: l' =>
      if x <? y then x :: l
      else if x =? y then l
      else y :: insert_sorted x l'
  end.

Definition np_unique (l : list Z) : list Z := foldr insert_sorted [] l.

(** The entries of an array with their row and their column, row by row *)
Definition entries (array : list (list Z)) : list (Z * Z * Z) :=
  concat (imap (fun r row => imap (fun c v => (Z.of_nat r, Z.of_nat c, v)) row)
               array).

(** [np.where(array == i)]: the rows and the columns of the entries [i] *)
Definition np_where (array : list (list Z)) (i : Z) : list Z * list Z :=
  let hits := List.filter (fun e => snd e =? i) (entries array) in
  (map (fun e => fst (fst e)) hits, map (fun e => snd (fst e)) hits).

(** [x.min()] and [x.max()] *)
Definition np_min (x : list Z) : result Z :=
  match x with
  | [] => Raise ValueError
  | v :: x' => Ok (foldr Z.min v x')
  end.

Definition np_max (x : list Z) : result Z :=
  match x with
  | [] => Raise ValueError
  | v :: x' => Ok (foldr Z.max v x')
  end.

(** [[x.min(), x.max()]] for [_, x] in [axids], and [[y.min(), y.max()]]
    for [y, _] *)
Definition column_range (axid : list Z * list Z) : result (Z * Z) :=
  let '(_, x) := axid in lo ← np_min x; hi ← np_max x; Ok (lo, hi).

Definition row_range (axid : list Z * list Z) : result (Z * Z) :=
  let '(y, _) := axid in lo ← np_min y; hi ← np_max y; Ok (lo, hi).

(** What the beginning of [subplots] works out from the array. *)
Record subplot_layout : Type := {
  sl_naxs : Z;
  sl_nrows : Z;
  sl_ncols : Z;
  sl_xrange : list (Z * Z);
  sl_yrange : list (Z * Z);
  sl_xref : Z * Z;
  sl_yref : Z * Z
}.

(** Lines 1929-1971 of [subplots].  [order_C] says which of ['C'] and
    ['F'] the order is (line 1927 refuses anything else); [sharex] and
    [sharey] are the sharing levels of lines 1953-1954. *)
Definition subplot_array (array : array_arg) (nrows ncols ref sharex sharey : Z)
    (order_C : bool) : result subplot_layout :=
  array ← standardize array nrows ncols order_C;
  let nums := np_unique (List.filter (fun v => negb (v =? 0)) (concat array)) in
  let naxs := len nums in
  if negb (bool_decide (list_to_set nums =@{gset Z} list_to_set (axes_numbers naxs)))
  then Raise ValueError
  else if negb (bool_decide (ref ∈ nums)) then Raise ValueError
  else
    let '(nrows, ncols) := (len array, len (hd [] array)) in
    if negb ((0 <=? sharex) && (sharex <? 4))
       || negb ((0 <=? sharey) && (sharey <? 4))
    then Raise ValueError
    else
      let axids :=
        map (np_where array)
            (List.filter (fun i => 0 <? i) (np_unique (concat array))) in
      xrange ← mapM column_range axids;
      yrange ← mapM row_range axids;
      xref ← getitem_Z xrange (ref - 1);
      yref ← getitem_Z yrange (ref - 1);
      Ok {| sl_naxs := naxs; sl_nrows := nrows; sl_ncols := ncols;
            sl_xrange := xrange; sl_yrange := yrange;
            sl_xref := xref; sl_yref := yref |}.

(** ** [subplots], from the array to the container of the axes *)

Section SubplotsCall.
  Context {num : Type} `{Number num}.
  Variable rc : rc_settings num.

  (** Lines 1929-1971 and 2086-2123 of [subplots].  The sizes, ratios,
      spaces and margins that lines 2027-2084 work out from the arguments
      are the fields of [kw] and [orig]; the call of line 2087 gives the
      grid of the array, the ranges of the reference axes and no
      panels. *)
Definition subplots (array : array_arg) (nrows ncols ref sharex sharey : Z)
      (order_C : bool) (kw : subplots_kw num) (orig : orig_kw num)
      (pad axpad panelpad dpi : num)
    : result (Figure num * axes_grid Axes) :=
    L ← subplot_array array nrows ncols ref sharex sharey order_C;
    let kw :=
      {| kw_nrows := sl_nrows L; kw_ncols := sl_ncols L;
         kw_aspect := kw_aspect kw;
         kw_xref := sl_xref L; kw_yref := sl_yref L;
         kw_width := kw_width kw; kw_height := kw_height kw;
         kw_axwidth := kw_axwidth kw; kw_axheight := kw_axheight kw;
         kw_wspace := kw_wspace kw; kw_hspace := kw_hspace kw;
         kw_wratios := kw_wratios kw; kw_hratios := kw_hratios kw;
         kw_left := kw_left kw; kw_bottom := kw_bottom kw;
         kw_right := kw_right kw; kw_top := kw_top kw;
         kw_wpanels := replicate (Z.to_nat (sl_ncols L)) main_;
         kw_hpanels := replicate (Z.to_nat (sl_nrows L)) main_ |} in
    fig ← subplots_figure rc kw orig (zip (sl_xrange L) (sl_yrange L))
            pad axpad panelpad dpi;
    axs ← axes_grid_init (fig_axes fig)
            (if order_C then sl_ncols L else sl_nrows L) order_C;
    Ok (fig, axs).
End SubplotsCall.

(** * Vocabulary of the statements *)

(** A key whose slice, if it is one, runs forward. *)
Definition forward (k : key) : Prop :=
  match k with
  | KInt _ => True
  | KSlice s => 0 < default 1 (step s)
  end.

(** The keys [_normalize] accepts over a dimension of size [size]. *)
Definition accepted (k : key) (size : Z) : Prop :=
  match k with
  | KInt i => - size <= i < size
  | KSlice s => exists a b, slice_indices s size = Ok (a, b) /\ a < b
  end.

(** A gridspec as [FlexibleGridSpec.__init__] leaves it. *)
Definition doubled {num} (gs : FlexibleGridSpec num) : Prop :=
  _nrows gs = _nrows_active gs * 2 - 1 /\ _ncols gs = _ncols_active gs * 2 - 1.

(** The request of the end-to-end example: two rows and two columns of
    main slots with equal ratios [one], a reference axes in the first cell
    that is [axwidth] wide with aspect [one], the four margins [margin] and
    one space [gap] in each direction. *)
Definition grid_2x2 {num} (one axwidth margin gap : num) : subplots_kw num :=
  {| kw_nrows := 2; kw_ncols := 2;
     kw_aspect := Scalar one; kw_xref := (0, 0); kw_yref := (0, 0);
     kw_width := None; kw_height := None;
     kw_axwidth := Some axwidth; kw_axheight := None;
     kw_wspace := [gap]; kw_hspace := [gap];
     kw_wratios := [one; one]; kw_hratios := [one; one];
     kw_left := margin; kw_bottom := margin;
     kw_right := margin; kw_top := margin;
     kw_wpanels := [main_; main_]; kw_hpanels := [main_; main_] |}.

(** The entries of a ratio array that sit in main slots. *)
Fixpoint main_entries {A} (panels : list panel) (ratios : list A) : list A :=
  match panels, ratios with
  | p :: panels', r :: ratios' =>
      if panel_bool p then main_entries panels' ratios'
      else r :: main_entries panels' ratios'
  | _, _ => []
  end.

(** A request the solve can divide on: the reference axes spans at least
    one column and one row, the main ratios of neither direction sum to
    zero, and the aspect ratio is not zero.  With a figure size that is
    not zero either, no division of the solve has a zero divisor. *)
Definition valid_request (kw : subplots_kw Q) : Prop :=
  fst (kw_xref kw) <= snd (kw_xref kw) /\
  fst (kw_yref kw) <= snd (kw_yref kw) /\
  ~ (sum (main_entries (kw_wpanels kw) (kw_wratios kw)) == 0)%Q /\
  ~ (sum (main_entries (kw_hpanels kw) (kw_hratios kw)) == 0)%Q /\
  match kw_aspect kw with
  | Scalar a => ~ (a == 0)%Q
  | Pair a b => ~ (a == 0)%Q /\ ~ (b == 0)%Q
  end.

(** A ratio array whose unmasked entries are replaced, in order, by the
    elements of [new]. *)
Fixpoint merge {A} (mask : list bool) (ratios new : list A) : list A :=
  match mask, ratios with
  | b :: mask', r :: ratios' =>
      if b then r :: merge mask' ratios' new
      else match new with
           | n :: new' => n :: merge mask' ratios' new'
           | [] => r :: ratios'
           end
  | _, _ => ratios
  end.

(** Settings for the examples, in inches. *)
Definition example_rc : rc_settings Q :=
  {| rc_subplots_axwidth := 2; rc_subplots_panelwidth := 0.5;
     rc_colorbar_width := 0.25; rc_subplots_panelspace := 0.1;
     rc_subplots_xlabspace := 0.55; rc_subplots_ylabspace := 0.55;
     rc_subplots_innerspace := 0.1 |}%Q.

(** The request of the end-to-end example over the rationals. *)
Definition example_kw : subplots_kw Q := (grid_2x2 1 2 0.5 0.2)%Q.

(** The request of the end-to-end example with a reference axes that
    spans both columns and both rows. *)
Definition spanning_kw : subplots_kw Q :=
  {| kw_nrows := 2; kw_ncols := 2;
     kw_aspect := Scalar 1%Q; kw_xref := (0, 1); kw_yref := (0, 1);
     kw_width := None; kw_height := None;
     kw_axwidth := Some 2%Q; kw_axheight := None;
     kw_wspace := [0.2%Q]; kw_hspace := [0.2%Q];
     kw_wratios := [1%Q; 3%Q]; kw_hratios := [1%Q; 1%Q];
     kw_left := 0.5%Q; kw_bottom := 0.5%Q;
     kw_right := 0.5%Q; kw_top := 0.5%Q;
     kw_wpanels := [main_; main_]; kw_hpanels := [main_; main_] |}.



(** Lists whose lengths do not fit a grid of [nrows] x [ncols]: one of
    them has neither one element nor the length the grid asks for. *)
Definition misfit {num} (kw : gridspec_kw num) (nrows ncols : Z) : Prop :=
  (len (gk_width_ratios kw) <> 1 /\ len (gk_width_ratios kw) <> ncols) \/
  (len (gk_height_ratios kw) <> 1 /\ len (gk_height_ratios kw) <> nrows) \/
  (len (gk_wspace kw) <> 1 /\ len (gk_wspace kw) <> ncols - 1) \/
  (len (gk_hspace kw) <> 1 /\ len (gk_hspace kw) <> nrows - 1).


(** The claim that a call leaves the ratio and space arrays of its caller
    as they were. *)
Definition leaves_arrays_unchanged (rc : rc_settings Q) (kw : subplots_kw Q)
  : Prop :=
  let kw' := fst (_subplots_geometry rc kw) in
  Forall2 Qeq (kw_wratios kw') (kw_wratios kw) /\
  Forall2 Qeq (kw_hratios kw') (kw_hratios kw) /\
  Forall2 Qeq (kw_wspace kw') (kw_wspace kw) /\
  Forall2 Qeq (kw_hspace kw') (kw_hspace kw).

(** The ratio arrays after lines 693-696. *)
Definition solved_wratios {num} `{Number num} (kw : subplots_kw num)
    (m : main_slots) (aw : num) : list num :=
  write_back (kw_wratios kw) (idxs_ratios_w m) (rescale aw (wratios_main m)).
Definition solved_hratios {num} `{Number num} (kw : subplots_kw num)
    (m : main_slots) (ah : num) : list num :=
  write_back (kw_hratios kw) (idxs_ratios_h m) (rescale ah (hratios_main m)).

(** ** Placements *)

(** How many [GridSpecFromSubplotSpec] lie between a specification and the
    main gridspec. *)
Fixpoint nesting (s : SubplotSpec) : nat :=
  match s with
  | OnMain _ => 0
  | Nested _ _ parent _ _ => S (nesting parent)
  end.

(** The two ownership relations the remap recognizes: the topmost
    specification is the one of the axes, or the one its gridspec hangs
    from. *)
Definition recognized (ax : Axes) : Prop :=
  match subplotspec ax with
  | None => True
  | Some s => (nesting s <= 1)%nat
  end.

(** The inclusive active rows and columns [(row1, row2, col1, col2)] of
    the topmost specification of a placement. *)
Definition has_coords (s : SubplotSpec) (coords : Z * Z * Z * Z) : Prop :=
  let '(row1, row2, col1, col2) := coords in
  exists nrows ncols,
    get_active_rows_columns (get_topmost_subplotspec s)
    = Ok (nrows, ncols, row1, row2, col1, col2).

(** The placement of an axes lies on a grid of [nrows] x [ncols] active
    slots. *)
Definition placed_in (nrows ncols : Z) (ax : Axes) : Prop :=
  match subplotspec ax with
  | None => True
  | Some s =>
      exists row1 row2 col1 col2,
        has_coords s (row1, row2, col1, col2) /\
        0 <= row1 <= row2 /\ row2 < nrows /\ 0 <= col1 <= col2 /\ col2 < ncols
  end.

(** A coordinate at or past the inserted slot moves by one. *)
Definition moved (i c : Z) : Z := if c >=? i then c + 1 else c.

(** What the remap after an insertion at slot [i] on side [s] does to one
    axes: the coordinates along the direction of the insertion move, the
    others stay, and so does the nesting. *)
Definition remapped (s : panel) (i : Z) (ax ax' : Axes) : Prop :=
  match subplotspec ax with
  | None => ax' = ax
  | Some sp =>
      exists sp' row1 row2 col1 col2,
        subplotspec ax' = Some sp' /\ nesting sp' = nesting sp /\
        has_coords sp (row1, row2, col1, col2) /\
        has_coords sp'
          (if in_lr s then (row1, row2, moved i col1, moved i col2)
           else (moved i row1, moved i row2, col1, col2))
  end.

(** The active grid after a slot was inserted on side [s]. *)
Definition grown (s : panel) (nrows ncols : Z) : Z * Z :=
  if in_lr s then (nrows, ncols + 1) else (nrows + 1, ncols).

(** The figure after lines 1286-1294 have made room for a new slot. *)
Definition made_room {num} (fig : Figure num) (s : panel) (idx : Z)
    (ratio space : num) (space_orig : option num) (figure : bool)
  : Figure num :=
  let lr := in_lr s in
  let idx_space := idx - int_of_bool (in_br s) in
  let idx_offset := int_of_bool (in_tl s) in
  store_arrays lr 1
    (insert_slot (load_arrays lr fig) (idx + idx_offset)
       (idx_space + idx_offset) (if figure then tag_f else s)
       ratio space space_orig)
    fig.

(** No spacing was given by the user of the examples. *)
Definition example_orig : orig_kw Q :=
  {| ok_left := None; ok_right := None; ok_top := None; ok_bottom := None;
     ok_wspace := [None]; ok_hspace := [None] |}.

(** The figure of the examples: the grid of the end-to-end example with
    one axes over the placements [ranges], given as inclusive ranges of
    columns and of rows. *)
Definition example_figure (ranges : list ((Z * Z) * (Z * Z)))
  : result (Figure Q) :=
  subplots_figure example_rc example_kw example_orig ranges
    0.1%Q 0.1%Q 0.05%Q 100%Q.

(** The same figure with the axes [axs] instead of its own. *)
Definition with_axes {num} (fig : Figure num) (axs : list Axes) : Figure num :=
  set_gridspec fig (_gridspec_main fig) axs.

(** An axes inside a gridspec that is itself nested in a gridspec hanging
    from the placement [s]. *)
Definition twice_nested (s : SubplotSpec) : Axes :=
  {| subplotspec := Some (Nested 1 3 (Nested 1 3 s 1 (Some 1)) 1 (Some 1)) |}.

(** Two states of a figure with the same grid: the same counts of rows
    and columns, arrays of the same lengths, a gridspec of the same
    geometry. *)
Definition same_structure {num} (fig1 fig2 : Figure num) : Prop :=
  let kw1 := _subplots_kw fig1 in
  let kw2 := _subplots_kw fig2 in
  let orig1 := _subplots_orig_kw fig1 in
  let orig2 := _subplots_orig_kw fig2 in
  kw_nrows kw2 = kw_nrows kw1 /\ kw_ncols kw2 = kw_ncols kw1 /\
  length (kw_wpanels kw2) = length (kw_wpanels kw1) /\
  length (kw_hpanels kw2) = length (kw_hpanels kw1) /\
  length (kw_wratios kw2) = length (kw_wratios kw1) /\
  length (kw_hratios kw2) = length (kw_hratios kw1) /\
  length (kw_wspace kw2) = length (kw_wspace kw1) /\
  length (kw_hspace kw2) = length (kw_hspace kw1) /\
  length (ok_wspace orig2) = length (ok_wspace orig1) /\
  length (ok_hspace orig2) = length (ok_hspace orig1) /\
  get_geometry (_gridspec_main fig2) = get_geometry (_gridspec_main fig1) /\
  get_active_geometry (_gridspec_main fig2)
  = get_active_geometry (_gridspec_main fig1).

(** ** Tight layout *)

(** The value stored for a gap: the space itself when no axes face each
    other across it, and otherwise the override if there is one, or the
    space less the smallest measured separation plus the pad, when that is
    positive. *)
Definition tight_value {num} `{Number num} (axpad panelpad : num)
    (p0 p1 : panel) (separations : list num) (space : num)
    (space_orig : option num) : num :=
  match separations with
  | [] => space
  | s0 :: rest =>
      _notNone space_orig
        (max2 (of_Z 0)
           (space -# fold_left min2 rest s0
              +# (if is_panel_space p0 p1 then panelpad else axpad))%num)
  end.

(** The pad as C7 words it: [axpad] between two main slots, [panelpad]
    wherever a panel is on one side of the gap. *)
Definition claimed_pad {num} (axpad panelpad : num) (p0 p1 : panel) : num :=
  if negb (panel_bool p0) && negb (panel_bool p1) then axpad else panelpad.

(** What the axes of the tight layout example report: a main axes in
    column 0 and, in column 1, the left panel of the axes of column 2;
    both in row 0, one tenth of an inch apart at 100 dots per inch. *)
Definition example_measured : list (measured Q) :=
  [ {| range_gridspec_x := (0, 0); range_gridspec_y := (0, 0);
       range_tightbbox_x := (50, 250)%Q; range_tightbbox_y := (300, 500)%Q |};
    {| range_gridspec_x := (1, 1); range_gridspec_y := (0, 0);
       range_tightbbox_x := (260, 300)%Q; range_tightbbox_y := (300, 500)%Q |} ].

Definition example_obox : Bbox Q :=
  {| xmin := 0; ymin := 0; xmax := 5.9; ymax := 5.2 |}%Q.
Definition example_bbox : Bbox Q :=
  {| xmin := 0.4; ymin := 0.4; xmax := 5.5; ymax := 4.8 |}%Q.

(** The figure of the tight layout example: main axes in the two cells of
    the first row, and a left panel for the second. *)
Definition example_panel_figure : result (Figure Q) :=
  fig0 ← example_figure [((0, 0), (0, 0)); ((1, 1), (0, 0))];
  let '(fig, r) :=
    _insert_row_column example_rc fig0 "left" 0 0.5%Q 0.1%Q None false in
  _ ← r; Ok fig.

(** Keywords for a gridspec of four rows and four columns. *)
Definition example_gridspec_kw : gridspec_kw Q :=
  {| gk_ncols := 4; gk_nrows := 4;
     gk_wspace := [0.2; 0.2; 0.2]%Q; gk_hspace := [0.2; 0.2; 0.2]%Q;
     gk_width_ratios := [1; 1; 1; 1]%Q; gk_height_ratios := [1; 1; 1; 1]%Q;
     gk_left := 0.1%Q; gk_bottom := 0.1%Q; gk_right := 0.9%Q; gk_top := 0.9%Q |}.

(** One pass of the loop of [tight_spaces]. *)
Definition tight_step {num} `{Number num} (fig : Figure num) (x_is_x : bool)
    (axs : list (measured num)) (pnls : list panel) (nacross : Z)
    (acc : result (list num)) (e : nat * (num * option num))
  : result (list num) :=
  jspace ← acc;
  space ← tight_space fig x_is_x axs pnls nacross (fst e) (fst (snd e)) (snd (snd e));
  Ok (<[fst e := space]> jspace).

(** ** Containers of axes *)

(** The list [objs] holds the axes [m r c] of a grid of [R] rows and [C]
    columns: row by row for order ['C'], column by column otherwise. *)
Definition holds_grid {A} (objs : list A) (R C : Z) (order_C : bool)
    (m : Z -> Z -> A) : Prop :=
  0 < R /\ 0 < C /\ len objs = R * C /\
  forall r c, 0 <= r < R -> 0 <= c < C ->
    objs !! Z.to_nat (if order_C then r * C + c else c * R + r) = Some (m r c).

(** ** Figure panel slots *)

(** The entry of row [i] and column [k] of a boolean array. *)
Definition cell (array : bool_array) (i k : nat) : option bool :=
  match ba_rows array !! i with
  | Some row => row !! k
  | None => None
  end.

(** Column [k] lies in the span [start:stop]. *)
Definition in_span (start stop : Z) (k : nat) : Prop :=
  start <= Z.of_nat k < stop.

(** A boolean array whose rows all have [nalong] entries. *)
Definition rectangular (array : bool_array) : Prop :=
  Forall (fun row => len row = ba_nalong array) (ba_rows array).

(** ** Axes panels *)

(** Where a panel on side [s] lies that is [offset] slots away from an
    axes with the inclusive coordinates [(row1, row2, col1, col2)]. *)
Definition panel_coords (s : panel) (offset : Z) (coords : Z * Z * Z * Z)
  : Z * Z * Z * Z :=
  let '(row1, row2, col1, col2) := coords in
  match s with
  | tag_l => (row1, row2, col1 - offset, col1 - offset)
  | tag_r => (row1, row2, col2 + offset, col2 + offset)
  | tag_t => (row1 - offset, row1 - offset, col1, col2)
  | _ => (row2 + offset, row2 + offset, col1, col2)
  end.

(** The slot [_add_axes_panel] asks for. *)
Definition panel_slot (s : panel) (offset : Z) (coords : Z * Z * Z * Z) : Z :=
  let '(row1, row2, col1, col2) := coords in
  match s with
  | tag_l => col1 - offset
  | tag_r => col2 + offset
  | tag_t => row1 - offset
  | _ => row2 + offset
  end.

(** A figure whose keywords and gridspec agree on the grid. *)
Definition consistent {num} (fig : Figure num) : Prop :=
  let kw := _subplots_kw fig in
  doubled (_gridspec_main fig) /\
  get_active_geometry (_gridspec_main fig) = (kw_nrows kw, kw_ncols kw) /\
  len (kw_wpanels kw) = kw_ncols kw /\ len (kw_hpanels kw) = kw_nrows kw.

(** ** The array of subplot numbers *)

(** The entry of an array in row [r] and column [c]. *)
Definition entry (array : list (list Z)) (r c : Z) : option Z :=
  if (0 <=? r) && (0 <=? c)
  then row ← array !! Z.to_nat r; row !! Z.to_nat c
  else None.

(** The rows [y0 .. y1] and the columns [x0 .. x1] are the smallest ones
    that hold every entry [k] of the array. *)
Definition bounding_box (array : list (list Z)) (k : Z)
    (y0 y1 x0 x1 : Z) : Prop :=
  (forall r c, entry array r c = Some k -> y0 <= r <= y1 /\ x0 <= c <= x1) /\
  (exists c, entry array y0 c = Some k) /\
  (exists c, entry array y1 c = Some k) /\
  (exists r, entry array r x0 = Some k) /\
  (exists r, entry array r x1 = Some k).

(** The entries of the array other than 0 are the numbers [1 .. n], none
    of them skipped. *)
Definition numbered (array : list (list Z)) (n : Z) : Prop :=
  (forall r c v, entry array r c = Some v -> 0 <= v <= n) /\
  (forall k, 1 <= k <= n -> exists r c, entry array r c = Some k).

(** What [subplots] makes of an array whose numbers are [1 .. n]: the
    shape of the array, and for the axes [k] the smallest ranges of
    columns and of rows that hold its entries, with those of the
    reference axes apart. *)
Definition layout_of (array : list (list Z)) (n ref : Z) (L : subplot_layout)
  : Prop :=
  sl_naxs L = n /\ sl_nrows L = len array /\ sl_ncols L = len (hd [] array) /\
  len (sl_xrange L) = n /\ len (sl_yrange L) = n /\
  (forall k, 1 <= k <= n ->
     exists x0 x1 y0 y1,
       sl_xrange L !! Z.to_nat (k - 1) = Some (x0, x1) /\
       sl_yrange L !! Z.to_nat (k - 1) = Some (y0, y1) /\
       bounding_box array k y0 y1 x0 x1) /\
  sl_xrange L !! Z.to_nat (ref - 1) = Some (sl_xref L) /\
  sl_yrange L !! Z.to_nat (ref - 1) = Some (sl_yref L).

(** * Properties *)

(** Case analysis on the integer comparisons of a goal. *)
Ltac Zcases :=
  rewrite ?Z.gtb_ltb, ?Z.geb_leb in *;
  repeat match goal with
    | |- context [?a <? ?b] => destruct (Z.ltb_spec a b)
    | |- context [?a <=? ?b] => destruct (Z.leb_spec a b)
    | |- context [?a =? ?b] => destruct (Z.eqb_spec a b)
    | H : context [?a <? ?b] |- _ => destruct (Z.ltb_spec a b)
    | H : context [?a <=? ?b] |- _ => destruct (Z.leb_spec a b)
    | H : context [?a =? ?b] |- _ => destruct (Z.eqb_spec a b)
    end;
  cbn beta iota delta [andb orb negb] in *.

(** ** Index translation *)

Lemma positem_half (x : Z) : _positem x / 2 = x.
Proof.
  unfold _positem. destruct (Z.ltb_spec x 0).
  - replace (2 * (x + 1) - 1) with (1 + x * 2) by lia.
    rewrite Z.div_add by lia. reflexivity.
  - apply Z.div_mul. lia.
Qed.

Lemma bind_Ok {A B} (m : result A) (f : A -> result B) (b : B) :
  m ≫= f = Ok b -> exists a, m = Ok a /\ f a = Ok b.
Proof. destruct m as [a|e]; cbn; [eauto | discriminate]. Qed.

Lemma normalize_slice (s : slice) (size a b : Z) :
  slice_indices s size = Ok (a, b) ->
  _normalize (KSlice s) size = if b >? a then Ok (a, b - 1) else Raise IndexError.
Proof. intros E. cbn. rewrite E. reflexivity. Qed.

Lemma slice_indices_forward (s : slice) (size a b : Z) :
  0 < default 1 (step s) ->
  slice_indices s size = Ok (a, b) -> 0 <= a <= size /\ 0 <= b <= size.
Proof.
  unfold slice_indices. intros Hs E.
  destruct (start s) as [v|], (stop s) as [w|]; Zcases;
    try discriminate; try lia; injection E as <- <-; lia.
Qed.

Lemma normalize_upper (k : key) (size a b : Z) :
  _normalize k size = Ok (a, b) -> a <= b < size.
Proof.
  destruct k as [i|s]; cbn.
  - intros E. Zcases; try discriminate; injection E as <- <-; lia.
  - unfold slice_indices. intros E.
    destruct (start s) as [v|], (stop s) as [w|]; cbn in E; Zcases;
    try discriminate; cbn in E; Zcases; try discriminate; injection E as <- <-; lia.
Qed.

Lemma normalize_forward (k : key) (size a b : Z) :
  forward k -> _normalize k size = Ok (a, b) -> 0 <= a.
Proof.
  destruct k as [i|s]; cbn.
  - intros _ E. Zcases; try discriminate; injection E as <- <-; lia.
  - intros Hs E. destruct (slice_indices s size) as [[a' b']|] eqn:Es; [|discriminate].
    apply slice_indices_forward in Es; [|assumption]. cbn in E.
    Zcases; try discriminate. injection E as <- <-. lia.
Qed.

Lemma divmod_doubled (r c n : Z) :
  0 <= r -> 0 <= c -> 2 * c < n ->
  (_positem (r * n + c)) / n / 2 = r /\ (_positem (r * n + c)) mod n / 2 = c.
Proof.
  intros Hr Hc Hn.
  assert (E : _positem (r * n + c) = 2 * c + (2 * r) * n).
  { unfold _positem. destruct (Z.ltb_spec (r * n + c) 0); [nia|ring]. }
  rewrite E, Z.div_add, Z.mod_add by lia.
  rewrite (Z.div_small (2 * c) n), (Z.mod_small (2 * c) n) by lia.
  split.
  - rewrite Z.add_0_l, Z.mul_comm. apply Z.div_mul. lia.
  - rewrite Z.mul_comm. apply Z.div_mul. lia.
Qed.

Section IndexProperties.
  Context {num : Type}.

Lemma init_doubled (kw : gridspec_kw num) (gs : FlexibleGridSpec num) :
    FlexibleGridSpec_init kw = Ok gs ->
    doubled gs /\ _nrows_active gs = gk_nrows kw /\ _ncols_active gs = gk_ncols kw.
  Proof.
    unfold FlexibleGridSpec_init. intros E.
    apply bind_Ok in E as [[wr hr] [_ E]]. injection E as <-.
    repeat split.
  Qed.

Lemma update_geometry (gs gs' : FlexibleGridSpec num) (kw : gridspec_kw num) :
    update gs kw = Ok gs' ->
    get_geometry gs' = get_geometry gs /\
    get_active_geometry gs' = get_active_geometry gs.
  Proof.
    unfold update. intros E.
    apply bind_Ok in E as [[wr hr] [_ E]]. injection E as <-.
    split; reflexivity.
  Qed.

  (** Indexing with two keys whose normal forms are in range gives a
      specification that reads back as these normal forms. *)
Lemma getitem_roundtrip (gs : FlexibleGridSpec num) (k1 k2 : key)
      (r1 r2 c1 c2 : Z) :
    doubled gs ->
    _normalize k1 (_nrows_active gs) = Ok (r1, r2) ->
    _normalize k2 (_ncols_active gs) = Ok (c1, c2) ->
    0 <= r1 -> 0 <= c1 ->
    exists ss,
      __getitem__ gs (Tuple [k1; k2]) = Ok ss /\
      ss_geometry ss = get_geometry gs /\
      get_active_rows_columns ss =
        Ok (_nrows gs / 2, _ncols gs / 2, r1, r2, c1, c2).
  Proof.
    intros [Hr Hc] E1 E2 Hr1 Hc1.
    pose proof (normalize_upper _ _ _ _ E1) as B1.
    pose proof (normalize_upper _ _ _ _ E2) as B2.
    unfold __getitem__, get_geometry, get_active_geometry.
    cbn. rewrite E1, E2. cbn. unfold ravel_multi_index.
    replace ((0 <=? r1) && (r1 <? _nrows gs) && (0 <=? c1) && (c1 <? _ncols gs)
             && ((0 <=? r2) && (r2 <? _nrows gs) && (0 <=? c2) && (c2 <? _ncols gs)))
      with true by (symmetry; Zcases; first [reflexivity | lia]).
    cbn. eexists. split; [reflexivity|]. split; [reflexivity|].
    unfold get_active_rows_columns. cbn.
    destruct (Z.eqb_spec (_ncols gs) 0) as [E0|_]; [lia|].
    destruct (divmod_doubled r1 c1 (_ncols gs)) as [-> ->]; [lia..|].
    destruct (divmod_doubled r2 c2 (_ncols gs)) as [-> ->]; [lia..|].
    reflexivity.
  Qed.
End IndexProperties.

(** C2 - Round-trip indexing.  [_normalize] turns a slice over an active
    dimension of size [size] into the inclusive pair [(a, b - 1)] of the
    endpoints [slice.indices(size)] gives (negative and omitted bounds
    included); doubling the pair with [_positem] and halving it again gives
    it back.  Through [FlexibleGridSpec.__getitem__], two keys whose normal
    forms are [(r1, r2)] and [(c1, c2)] give a subplot specification on
    which [get_active_rows_columns] reads these four endpoints again.  Over
    size 4 the slice [-2:] has the active endpoints [2, 3] and the physical
    endpoints [4, 6]. *)
Theorem roundtrip_indexing :
  (forall (s : slice) (size a b : Z),
      slice_indices s size = Ok (a, b) -> a < b ->
      _normalize (KSlice s) size = Ok (a, b - 1) /\
      _positem a / 2 = a /\ _positem (b - 1) / 2 = b - 1) /\
  (forall (num : Type) (kw : gridspec_kw num) (gs : FlexibleGridSpec num)
          (k1 k2 : key) (r1 r2 c1 c2 : Z),
      FlexibleGridSpec_init kw = Ok gs ->
      forward k1 -> forward k2 ->
      _normalize k1 (_nrows_active gs) = Ok (r1, r2) ->
      _normalize k2 (_ncols_active gs) = Ok (c1, c2) ->
      exists ss nrows ncols,
        __getitem__ gs (Tuple [k1; k2]) = Ok ss /\
        get_active_rows_columns ss = Ok (nrows, ncols, r1, r2, c1, c2)) /\
  (let s := Slice (Some (-2)) None None in
   slice_indices s 4 = Ok (2, 4) /\
   _normalize (KSlice s) 4 = Ok (2, 3) /\
   (_positem 2, _positem 3) = (4, 6)).
Proof.
  split; [|split].
  - intros s size a b E Hab. rewrite (normalize_slice _ _ _ _ E).
    destruct (Z.gtb_spec b a); [|lia]. auto using positem_half.
  - intros num kw gs k1 k2 r1 r2 c1 c2 Hinit F1 F2 E1 E2.
    apply init_doubled in Hinit as [Hd _].
    destruct (getitem_roundtrip gs k1 k2 r1 r2 c1 c2) as (ss & E & _ & R);
      eauto using normalize_forward.
  - repeat split.
Qed.

Lemma normalize_accepted (k : key) (size : Z) (n : Z * Z) :
  _normalize k size = Ok n -> accepted k size.
Proof.
  destruct k as [i|s]; cbn.
  - intros E. Zcases; try discriminate; lia.
  - destruct (slice_indices s size) as [[a b]|]; [|discriminate]. cbn.
    intros E. exists a, b. split; [reflexivity|]. Zcases; [lia|discriminate].
Qed.

(** C10 - Empty slices are refused.  A slice whose normalised start is not
    below its normalised stop makes [_normalize] raise [IndexError], and so
    does [FlexibleGridSpec.__getitem__] when the slice is the key, the first
    key of a pair, or the second key after a first key that is accepted.
    What [_normalize] accepts is a non-empty slice or an integer in
    [-size, size). *)
Theorem empty_slice_IndexError (s : slice) (size a b : Z) :
  slice_indices s size = Ok (a, b) -> b <= a ->
  _normalize (KSlice s) size = Raise IndexError /\
  (forall (num : Type) (gs : FlexibleGridSpec num) (k1 k2 : key) (n1 : Z * Z),
      (_nrows_active gs * _ncols_active gs = size ->
       __getitem__ gs (Single (KSlice s)) = Raise IndexError) /\
      (_nrows_active gs = size ->
       __getitem__ gs (Tuple [KSlice s; k2]) = Raise IndexError) /\
      (_ncols_active gs = size ->
       _normalize k1 (_nrows_active gs) = Ok n1 ->
       __getitem__ gs (Tuple [k1; KSlice s]) = Raise IndexError)) /\
  (forall (k : key) (n : Z * Z), _normalize k size = Ok n -> accepted k size).
Proof.
  intros E Hab.
  assert (N : _normalize (KSlice s) size = Raise IndexError).
  { rewrite (normalize_slice _ _ _ _ E). destruct (Z.gtb_spec b a); [lia|reflexivity]. }
  split; [exact N|]. split.
  - intros num gs k1 k2 n1. unfold __getitem__. cbn -[_normalize].
    repeat split.
    + intros ->. rewrite N. reflexivity.
    + intros ->. rewrite N. reflexivity.
    + intros -> ->. rewrite N. reflexivity.
  - intros k n. apply normalize_accepted.
Qed.

Lemma empty_slice_IndexError_witness :
  slice_indices (Slice (Some 0) (Some 0) None) 3 = Ok (0, 0) /\ 0 <= 0 /\
  _normalize (range_ 0 0) 3 = Raise IndexError.
Proof.
  split; [reflexivity|]. split; [lia|].
  apply (empty_slice_IndexError (Slice (Some 0) (Some 0) None) 3 0 0);
    [reflexivity | lia].
Defined.

(** ** The size solve *)

(** C1 - End-to-end example.  For two rows and two columns with equal
    ratios, [axwidth=2], [aspect=1], margins of 0.5, spaces of 0.2, a
    reference axes in one cell and no figure width or height, the solve
    returns the figure size 5.2 by 5.2: exactly over the rationals, and as
    the double nearest to 5.2 in binary64 arithmetic. *)
Theorem end_to_end_example :
  (forall rc : rc_settings Q,
      exists kw' w h gk,
        _subplots_geometry rc (grid_2x2 1 2 0.5 0.2)%Q = (kw', Ok (w, h, gk)) /\
        (w == 5.2)%Q /\ (h == 5.2)%Q) /\
  (forall rc : rc_settings float,
      exists kw' gk,
        _subplots_geometry rc (grid_2x2 1 2 0.5 0.2)%float
        = (kw', Ok (5.2, 5.2, gk)%float)).
Proof.
  split; intros rc.
  - eexists _, _, _, _. split; [vm_compute; reflexivity|]. split; reflexivity.
  - eexists _, _. vm_compute. reflexivity.
Qed.

(** Inversion of a computation in [result] that is known to succeed. *)
Ltac inv_result H :=
  cbn beta iota in H;
  lazymatch type of H with
  | Ok _ = Ok _ => injection H as H; subst
  | Raise _ = Ok _ => discriminate H
  | _ ≫= _ = Ok _ =>
      let x := fresh "x" in
      let Ex := fresh "Ex" in
      apply bind_Ok in H as (x & Ex & H); inv_result Ex; inv_result H
  | (match ?p with _ => _ end) = Ok _ =>
      destruct p eqn:?; inv_result H
  | _ => idtac
  end.

Lemma mapM_length {A B} (f : A -> result B) (l : list A) (bs : list B) :
  mapM f l = Ok bs -> length bs = length l.
Proof.
  revert bs. induction l as [|a l IH]; cbn; intros bs E.
  - injection E as <-. reflexivity.
  - apply bind_Ok in E as (b & _ & E). apply bind_Ok in E as (bs' & E' & E).
    injection E as <-. cbn. f_equal. auto.
Qed.

Lemma mapM_lookup {A B} (f : A -> result B) (l : list A) (bs : list B) (i : nat) (a : A) :
  mapM f l = Ok bs -> l !! i = Some a -> exists b, bs !! i = Some b /\ f a = Ok b.
Proof.
  revert bs i. induction l as [|a' l IH]; cbn; intros bs i E Hi; [discriminate|].
  apply bind_Ok in E as (b & Eb & E). apply bind_Ok in E as (bs' & E' & E).
  injection E as <-. destruct i as [|i]; cbn in *.
  - injection Hi as ->. eauto.
  - eauto.
Qed.

Section GeometryStructure.
  Context {num : Type} `{Number num}.
  Variable rc : rc_settings num.

Lemma check_lengths_Ok (kw : subplots_kw num) :
    check_lengths kw = Ok () ->
    len (kw_hratios kw) = kw_nrows kw /\ len (kw_wratios kw) = kw_ncols kw /\
    len (kw_hspace kw) = kw_nrows kw - 1 /\ len (kw_wspace kw) = kw_ncols kw - 1 /\
    len (kw_hpanels kw) = kw_nrows kw /\ len (kw_wpanels kw) = kw_ncols kw.
  Proof.
    unfold check_lengths. intros E. Zcases; try discriminate. auto 10.
  Qed.

Lemma split_slots_Ok (kw : subplots_kw num) (m : main_slots) :
    split_slots kw = Ok m ->
    idxs_ratios_h m = where_not 0 (map panel_bool (kw_hpanels kw)) /\
    idxs_ratios_w m = where_not 0 (map panel_bool (kw_wpanels kw)) /\
    mapM (getitem_nat (kw_hratios kw)) (idxs_ratios_h m) = Ok (hratios_main m) /\
    mapM (getitem_nat (kw_wratios kw)) (idxs_ratios_w m) = Ok (wratios_main m) /\
    hratios_panels m = ratios_panels (kw_hratios kw) (idxs_ratios_h m) /\
    wratios_panels m = ratios_panels (kw_wratios kw) (idxs_ratios_w m).
  Proof.
    unfold split_slots. intros E.
    apply bind_Ok in E as (sh & _ & E). apply bind_Ok in E as (sw & _ & E).
    apply bind_Ok in E as (hm & Eh & E). apply bind_Ok in E as (wm & Ew & E).
    apply bind_Ok in E as (hs & _ & E). apply bind_Ok in E as (ws & _ & E).
    injection E as <-. cbn. auto 10.
  Qed.

Lemma ndiv_Ok (x y q : num) :
    ndiv x y = Ok q -> neqb y (of_Z 0) = false /\ q = nquot x y.
  Proof.
    unfold ndiv. destruct (neqb y (of_Z 0)); [discriminate|].
    intros [= <-]. auto.
  Qed.

Lemma reference_of_Ok (kw : subplots_kw num) (m : main_slots) (r : reference) :
    reference_of kw m = Ok r ->
    neqb (nmul (of_Z (dx r)) (sum (wratios_main m))) (of_Z 0) = false /\
    neqb (nmul (of_Z (dy r)) (sum (hratios_main m))) (of_Z 0) = false.
  Proof.
    unfold reference_of. destruct (kw_xref kw) as [x1 x2], (kw_yref kw) as [y1 y2].
    intros E.
    apply bind_Ok in E as (rw & Ew & E). apply bind_Ok in E as (rh & Eh & E).
    destruct (_ || _); [discriminate|].
    apply bind_Ok in E as (a & _ & E). injection E as <-. cbn.
    apply ndiv_Ok in Ew as [Ew _]. apply ndiv_Ok in Eh as [Eh _]. auto.
  Qed.

  (** The two extents and the two figure dimensions are assigned on every
      path through lines 649-683. *)
Lemma dims_bound (kw : subplots_kw num) (m : main_slots) (r : reference)
      (l0 l : locals) :
    dims_from_input rc kw m r = Ok l0 -> dims_auto kw m r l0 = Ok l ->
    is_Some (width l) /\ is_Some (height l) /\
    is_Some (axwidth_all l) /\ is_Some (axheight_all l).
  Proof.
    unfold dims_from_input, dims_auto.
    destruct (kw_width kw) as [w|], (kw_height kw) as [h|],
             (kw_axwidth kw) as [aw|], (kw_axheight kw) as [ah|];
      cbn; intros E0 E; inv_result E0; cbn in E; inv_result E; cbn; eauto 10.
  Qed.
End GeometryStructure.

Section GeometryOutcome.
  Context {num : Type} `{Number num}.
  Variable rc : rc_settings num.

Lemma solve_extents_Ok (kw : subplots_kw num) (m : main_slots) (l : locals) :
    solve_extents rc kw = Ok (m, l) ->
    check_lengths kw = Ok () /\ split_slots kw = Ok m /\
    exists r l0, reference_of kw m = Ok r /\
                 dims_from_input rc kw m r = Ok l0 /\ dims_auto kw m r l0 = Ok l.
  Proof.
    unfold solve_extents. intros E.
    apply bind_Ok in E as ([] & E1 & E). apply bind_Ok in E as (m' & E2 & E).
    apply bind_Ok in E as (r & E3 & E). apply bind_Ok in E as (l0 & E4 & E).
    apply bind_Ok in E as (l' & E5 & E). injection E as <- <-. eauto 10.
  Qed.

Lemma solve_extents_bound (kw : subplots_kw num) (m : main_slots) (l : locals) :
    solve_extents rc kw = Ok (m, l) ->
    is_Some (width l) /\ is_Some (height l) /\
    is_Some (axwidth_all l) /\ is_Some (axheight_all l).
  Proof.
    intros E. apply solve_extents_Ok in E as (_ & _ & r & l0 & _ & E0 & E).
    eapply dims_bound; eauto.
  Qed.

  (** What a call that returns has computed. *)
Lemma geometry_Ok (kw kw' : subplots_kw num) (w h : num) (gk : gridspec_kw num) :
    _subplots_geometry rc kw = (kw', Ok (w, h, gk)) ->
    exists m l aw ah,
      solve_extents rc kw = Ok (m, l) /\
      axwidth_all l = Some aw /\ axheight_all l = Some ah /\
      nltb aw (of_Z 0) = false /\ nltb ah (of_Z 0) = false /\
      width l = Some w /\ height l = Some h /\
      gk_width_ratios gk =
        write_back (kw_wratios kw) (idxs_ratios_w m) (rescale aw (wratios_main m)) /\
      gk_height_ratios gk =
        write_back (kw_hratios kw) (idxs_ratios_h m) (rescale ah (hratios_main m)) /\
      gk_wspace gk = kw_wspace kw /\ gk_hspace gk = kw_hspace kw /\
      gk_ncols gk = kw_ncols kw /\ gk_nrows gk = kw_nrows kw /\
      kw' = set_ratios kw (gk_width_ratios gk) (gk_height_ratios gk).
  Proof.
    unfold _subplots_geometry.
    destruct (solve_extents rc kw) as [[m l]|e] eqn:Es; [|discriminate].
    destruct (axwidth_all l) as [aw|] eqn:Eaw; cbn; [|discriminate].
    destruct (nltb aw (of_Z 0)) eqn:Law; [discriminate|].
    destruct (axheight_all l) as [ah|] eqn:Eah; cbn; [|discriminate].
    destruct (nltb ah (of_Z 0)) eqn:Lah; [discriminate|].
    intros E. injection E as <- E.
    exists m, l, aw, ah.
    destruct (width l) as [w'|]; [|discriminate].
    destruct (height l) as [h'|]; [|discriminate].
    cbn in E. inv_result E. cbn. auto 20.
  Qed.

  (** A call that raises has either changed nothing or failed on a
      division by zero after the ratios were written back. *)
Lemma geometry_Raise (kw kw' : subplots_kw num) (e : exn) :
    _subplots_geometry rc kw = (kw', Raise e) ->
    kw' = kw \/ e = ZeroDivisionError.
  Proof.
    unfold _subplots_geometry.
    destruct (solve_extents rc kw) as [[m l]|e'] eqn:Es;
      [|intros [= <- _]; auto].
    destruct (solve_extents_bound _ _ _ Es) as ([w Ew] & [h Eh] & [aw Eaw] & [ah Eah]).
    rewrite Eaw, Eah, Ew, Eh. cbn.
    destruct (nltb aw (of_Z 0)); [intros [= <- _]; auto|].
    destruct (nltb ah (of_Z 0)); [intros [= <- _]; auto|].
    intros [= _ E]. right.
    unfold ndiv in E.
    destruct (neqb w (of_Z 0)); cbn in E; [congruence|].
    destruct (neqb h (of_Z 0)); cbn in E; [congruence|].
    discriminate.
  Qed.

End GeometryOutcome.

(** ** Writing the solved ratios back *)

Lemma write_back_nil {A} (ratios : list A) (idxs : list nat) :
  write_back ratios idxs [] = ratios.
Proof. unfold write_back. destruct idxs; reflexivity. Qed.

Lemma write_back_merge {A} (mask : list bool) :
  forall (pre ratios new : list A),
    length ratios = length mask ->
    write_back (pre ++ ratios) (where_not (length pre) mask) new
    = pre ++ merge mask ratios new.
Proof.
  induction mask as [|b mask IH]; intros pre ratios new Hl.
  - destruct ratios; [|discriminate]. cbn. unfold write_back. reflexivity.
  - destruct ratios as [|r ratios]; [discriminate|]. cbn in Hl.
    injection Hl as Hl. cbn [where_not merge]. destruct b.
    + specialize (IH (pre ++ [r]) ratios new Hl).
      rewrite length_app, Nat.add_1_r, <- !app_assoc in IH. exact IH.
    + destruct new as [|n new]; [apply write_back_nil|].
      unfold write_back. cbn [zip zip_with fold_left fst snd].
      replace (<[length pre := n]> (pre ++ r :: ratios)) with ((pre ++ [n]) ++ ratios).
      * specialize (IH (pre ++ [n]) ratios new Hl).
        rewrite length_app, Nat.add_1_r, <- !app_assoc in IH.
        rewrite <- app_assoc. exact IH.
      * rewrite <- app_assoc. cbn [app].
        rewrite insert_app_r_alt by lia. rewrite Nat.sub_diag. reflexivity.
Qed.

Lemma where_not_length (mask : list bool) (k : nat) :
  length (where_not k mask) = length (List.filter negb mask).
Proof.
  revert k. induction mask as [|b mask IH]; intros k; [reflexivity|].
  cbn. destruct b; cbn; auto.
Qed.

Lemma merge_length {A} (mask : list bool) (ratios new : list A) :
  length (merge mask ratios new) = length ratios.
Proof.
  revert ratios new. induction mask as [|b mask IH]; intros [|r ratios] new;
    try reflexivity.
  cbn. destruct b; cbn; [auto|]. destruct new; cbn; auto.
Qed.

(** The main slots of the merged array hold the new values. *)
Lemma main_entries_merge {A} (panels : list panel) :
  forall (ratios new : list A),
    length ratios = length panels ->
    length new = length (List.filter negb (map panel_bool panels)) ->
    main_entries panels (merge (map panel_bool panels) ratios new) = new.
Proof.
  induction panels as [|p panels IH]; intros ratios new Hr Hn.
  - destruct new; [reflexivity|discriminate].
  - destruct ratios as [|r ratios]; [discriminate|]. injection Hr as Hr.
    cbn in *. destruct (panel_bool p); cbn in *.
    + auto.
    + destruct new as [|n new]; [discriminate|]. injection Hn as Hn.
      cbn. destruct (panel_bool p) eqn:Ep; f_equal; auto.
Qed.

(** The panel slots of the merged array keep the old values. *)
Lemma merge_lookup_panel {A} (panels : list panel) :
  forall (ratios new : list A) (i : nat) (p : panel),
    panels !! i = Some p -> panel_bool p = true ->
    merge (map panel_bool panels) ratios new !! i = ratios !! i.
Proof.
  induction panels as [|q panels IH]; intros ratios new i p Hi Hp; [discriminate|].
  destruct ratios as [|r ratios]; [reflexivity|].
  cbn. destruct i as [|i]; cbn in Hi.
  - injection Hi as ->. rewrite Hp. reflexivity.
  - destruct (panel_bool q); cbn; [eauto|].
    destruct new as [|n new]; cbn; eauto.
Qed.

(** ** Exact arithmetic *)

Local Open Scope Q_scope.

Lemma fold_Qplus_acc (l : list Q) (a : Q) :
  fold_left Qplus l a == a + fold_left Qplus l 0.
Proof.
  revert a. induction l as [|x l IH]; intros a; cbn.
  - ring.
  - rewrite (IH (a + x)), (IH (0 + x)). ring.
Qed.

Lemma sum_Q (l : list Q) : sum l = fold_left Qplus l 0.
Proof. reflexivity. Qed.

Lemma sum_cons (x : Q) (l : list Q) : sum (x :: l) == x + sum l.
Proof.
  rewrite !sum_Q. change (fold_left Qplus (x :: l) 0) with (fold_left Qplus l (0 + x)).
  rewrite fold_Qplus_acc. ring.
Qed.

Lemma sum_nil : sum (@nil Q) == 0.
Proof. reflexivity. Qed.

Lemma sum_map_scale (a s : Q) (l : list Q) :
  sum (map (fun r => nquot (a *# r)%num s) l) == a * sum l / s.
Proof.
  induction l as [|x l IH].
  - change (0 == a * 0 / s). unfold Qdiv. ring.
  - cbn [map]. rewrite !sum_cons, IH.
    change (nquot (a *# x)%num s) with (a * x / s). unfold Qdiv. ring.
Qed.

Lemma sum_rescale (a : Q) (l : list Q) :
  ~ sum l == 0 -> sum (rescale a l) == a.
Proof.
  intros Hs. unfold rescale. rewrite sum_map_scale. field. exact Hs.
Qed.


Lemma neqb_Q_false (x : Q) : neqb x (of_Z 0) = false -> ~ x == 0.
Proof.
  cbn. intros E Hx. apply Qeq_bool_iff in Hx. change (inject_Z 0) with 0 in E.
  congruence.
Qed.


Lemma nltb_Q_false (x y : Q) : nltb x y = false <-> y <= x.
Proof.
  cbn. rewrite negb_false_iff. apply Qle_bool_iff.
Qed.

Lemma mul_nonzero_r (x y : Q) : ~ x * y == 0 -> ~ y == 0.
Proof. intros H E. apply H. rewrite E. ring. Qed.

Local Close Scope Q_scope.

Lemma panel_bool_true (p : panel) : p <> main_ -> panel_bool p = true.
Proof. destruct p; [congruence|reflexivity..]. Qed.

Lemma write_back_main {A} (panels : list panel) (ratios mains new : list A)
    (idxs : list nat) :
  length ratios = length panels ->
  idxs = where_not 0 (map panel_bool panels) ->
  mapM (getitem_nat ratios) idxs = Ok mains ->
  length new = length mains ->
  main_entries panels (write_back ratios idxs new) = new /\
  (forall i p, panels !! i = Some p -> p <> main_ ->
               write_back ratios idxs new !! i = ratios !! i) /\
  length (write_back ratios idxs new) = length ratios.
Proof.
  intros Hl -> Hm Hn.
  pose proof (write_back_merge (map panel_bool panels) [] ratios new) as E.
  cbn [app length] in E. rewrite E by (rewrite length_map; exact Hl).
  apply mapM_length in Hm. rewrite where_not_length in Hm.
  split; [|split].
  - apply main_entries_merge; [exact Hl|congruence].
  - intros i p Hi Hp. eapply merge_lookup_panel; eauto using panel_bool_true.
  - apply merge_length.
Qed.

Lemma rescale_length {num} `{Number num} (a : num) (l : list num) :
  length (rescale a l) = length l.
Proof. unfold rescale. apply length_map. Qed.

Lemma len_eq {A B} (l : list A) (l' : list B) (n : Z) :
  len l = n -> len l' = n -> length l = length l'.
Proof. unfold len. lia. Qed.

(** The main entries the solve reads are the entries of the main slots. *)
Lemma main_entries_where_not {A} (panels : list panel) :
  forall (pre ratios mains : list A),
    length ratios = length panels ->
    mapM (getitem_nat (pre ++ ratios))
         (where_not (length pre) (map panel_bool panels)) = Ok mains ->
    mains = main_entries panels ratios.
Proof.
  induction panels as [|p panels IH]; intros pre ratios mains Hl E.
  - cbn in E. injection E as <-. reflexivity.
  - destruct ratios as [|r ratios]; [discriminate|]. injection Hl as Hl.
    cbn [map where_not] in E. cbn [main_entries].
    assert (Hpre : forall mains',
               mapM (getitem_nat (pre ++ r :: ratios))
                    (where_not (S (length pre)) (map panel_bool panels))
               = Ok mains' ->
               mains' = main_entries panels ratios).
    { intros mains' E'. apply (IH (pre ++ [r]) ratios mains' Hl).
      rewrite length_app, Nat.add_1_r, <- app_assoc. exact E'. }
    destruct (panel_bool p); [apply Hpre, E|].
    cbn [mapM] in E. apply bind_Ok in E as (b & Eb & E).
    apply bind_Ok in E as (bs & Ebs & E). injection E as <-.
    unfold getitem_nat in Eb. rewrite list_lookup_middle in Eb by reflexivity.
    injection Eb as <-. f_equal. apply Hpre, Ebs.
Qed.

Lemma main_slots_entries {num} `{Number num} (kw : subplots_kw num)
    (m : main_slots) :
  check_lengths kw = Ok () -> split_slots kw = Ok m ->
  wratios_main m = main_entries (kw_wpanels kw) (kw_wratios kw) /\
  hratios_main m = main_entries (kw_hpanels kw) (kw_hratios kw).
Proof.
  intros Hc Hs.
  apply check_lengths_Ok in Hc as (Lh & Lw & _ & _ & Ph & Pw).
  apply split_slots_Ok in Hs as (Ih & Iw & Mh & Mw & _).
  rewrite Ih in Mh. rewrite Iw in Mw. split.
  - apply (main_entries_where_not (kw_wpanels kw) [] (kw_wratios kw));
      [eauto using len_eq|exact Mw].
  - apply (main_entries_where_not (kw_hpanels kw) [] (kw_hratios kw));
      [eauto using len_eq|exact Mh].
Qed.


Lemma example_kw_valid : valid_request example_kw.
Proof.
  unfold valid_request. cbn.
  split; [lia|]. split; [lia|]. repeat split; intros E; vm_compute in E;
    discriminate E.
Qed.




Section GivenDimensions.
  Context {num : Type} `{Number num}.
  Variable rc : rc_settings num.
  Local Open Scope num_scope.


  (** With a figure height, the main-content height is what the margins,
      the spaces and the panels leave of it (line 669). *)
Lemma extent_of_height (kw : subplots_kw num) (m : main_slots) (l : locals)
      (h : num) :
    kw_height kw = Some h ->
    solve_extents rc kw = Ok (m, l) ->
    axheight_all l =
      Some (h -# kw_top kw -# kw_bottom kw -# sum (kw_hspace kw)
              -# sum (hratios_panels m)).
  Proof.
    intros Eh Es.
    apply solve_extents_Ok in Es as (_ & _ & r & l0 & _ & E0 & E).
    unfold dims_from_input, dims_auto in *. rewrite Eh in E0.
    destruct (kw_width kw) as [w|], (kw_axwidth kw) as [aw|],
             (kw_axheight kw) as [ah|];
      cbn in E0; inv_result E0; cbn in E; inv_result E; reflexivity.
  Qed.
End GivenDimensions.



Section GeometryFrame.
  Context {num : Type} `{Number num}.
  Variable rc : rc_settings num.

  (** A call either raises before it has written anything, or it writes
      the solved ratios back and then returns, or fails on a division by
      zero. *)
Lemma geometry_cases (kw : subplots_kw num) :
    (exists e, _subplots_geometry rc kw = (kw, Raise e)) \/
    (exists m l aw ah r,
        solve_extents rc kw = Ok (m, l) /\
        axwidth_all l = Some aw /\ axheight_all l = Some ah /\
        _subplots_geometry rc kw =
          (set_ratios kw (solved_wratios kw m aw) (solved_hratios kw m ah), r) /\
        match r with
        | Ok (_, _, gk) =>
            gk_width_ratios gk = solved_wratios kw m aw /\
            gk_height_ratios gk = solved_hratios kw m ah
        | Raise e => e = ZeroDivisionError
        end).
  Proof.
    destruct (_subplots_geometry rc kw) as [kw' [[[w h] gk]|e]] eqn:E.
    - right. apply geometry_Ok in E
        as (m & l & aw & ah & Es & Eaw & Eah & _ & _ & _ & _ & Ew & Eh & _ & _ & _ & _ & ->).
      exists m, l, aw, ah, (Ok (w, h, gk)). unfold solved_wratios, solved_hratios.
      rewrite Ew, Eh. auto 10.
    - unfold _subplots_geometry in E.
      destruct (solve_extents rc kw) as [[m l]|e'] eqn:Es;
        [|injection E as <- <-; eauto].
      destruct (solve_extents_bound _ _ _ _ Es) as ([w Ew] & [h Eh] & [aw Eaw] & [ah Eah]).
      rewrite Eaw, Eah, Ew, Eh in E. cbn in E.
      destruct (nltb aw (of_Z 0)); [injection E as <- <-; eauto|].
      destruct (nltb ah (of_Z 0)); [injection E as <- <-; eauto|].
      right. exists m, l, aw, ah, (Raise e). injection E as <- E.
      repeat split; auto.
      unfold ndiv in E.
      destruct (neqb w (of_Z 0)); cbn in E; [congruence|].
      destruct (neqb h (of_Z 0)); cbn in E; [congruence|].
      discriminate.
  Qed.
End GeometryFrame.

Lemma set_ratios_id {num} (kw : subplots_kw num) :
  set_ratios kw (kw_wratios kw) (kw_hratios kw) = kw.
Proof. destruct kw; reflexivity. Qed.

(** C9 - Effects of the solve.  The solve is a function of its keyword
    arguments and of the configured reference width.  It does write to
    its arguments: a call that gets past the checks overwrites the main
    slots of the caller's two ratio arrays with the rescaled ratios.
    Everything else is left as supplied: the other keywords (the two space
    arrays among them), the lengths of the ratio arrays and their panel
    slots.  A call that raises anything but a division by zero has written
    nothing. *)
Theorem solve_overwrites_main_ratios {num : Type} `{Number num}
    (rc : rc_settings num) (kw kw' : subplots_kw num)
    (r : result (num * num * gridspec_kw num)) :
  _subplots_geometry rc kw = (kw', r) ->
  kw' = set_ratios kw (kw_wratios kw') (kw_hratios kw') /\
  length (kw_wratios kw') = length (kw_wratios kw) /\
  length (kw_hratios kw') = length (kw_hratios kw) /\
  (forall i p, kw_wpanels kw !! i = Some p -> p <> main_ ->
               kw_wratios kw' !! i = kw_wratios kw !! i) /\
  (forall i p, kw_hpanels kw !! i = Some p -> p <> main_ ->
               kw_hratios kw' !! i = kw_hratios kw !! i) /\
  (forall e, r = Raise e -> e <> ZeroDivisionError -> kw' = kw) /\
  (forall w h gk,
      r = Ok (w, h, gk) ->
      exists m l aw ah,
        solve_extents rc kw = Ok (m, l) /\
        axwidth_all l = Some aw /\ axheight_all l = Some ah /\
        main_entries (kw_wpanels kw) (kw_wratios kw')
        = rescale aw (main_entries (kw_wpanels kw) (kw_wratios kw)) /\
        main_entries (kw_hpanels kw) (kw_hratios kw')
        = rescale ah (main_entries (kw_hpanels kw) (kw_hratios kw)) /\
        gk_width_ratios gk = kw_wratios kw' /\
        gk_height_ratios gk = kw_hratios kw') /\
  (forall kw2, kw2 = kw -> _subplots_geometry rc kw2 = (kw', r)).
Proof.
  intros E.
  destruct (geometry_cases rc kw) as [[e E']|(m & l & aw & ah & r' & Es & Eaw & Eah & E' & Hr)];
    rewrite E in E'; injection E' as -> ->.
  - rewrite set_ratios_id. repeat split; auto; try discriminate.
    intros ? ->. exact E.
  - cbn [kw_wratios kw_hratios set_ratios].
    pose proof Es as Es'.
    apply solve_extents_Ok in Es' as (Hc & Hs & _).
    apply check_lengths_Ok in Hc as (Lh & Lw & _ & _ & Ph & Pw).
    apply split_slots_Ok in Hs as (Ih & Iw & Mh & Mw & _).
    destruct (write_back_main (kw_wpanels kw) (kw_wratios kw) (wratios_main m)
                (rescale aw (wratios_main m)) (idxs_ratios_w m))
      as (Mw' & Pw' & Lw'); eauto using len_eq, rescale_length.
    destruct (write_back_main (kw_hpanels kw) (kw_hratios kw) (hratios_main m)
                (rescale ah (hratios_main m)) (idxs_ratios_h m))
      as (Mh' & Ph' & Lh'); eauto using len_eq, rescale_length.
    fold (solved_wratios kw m aw) in Mw', Pw', Lw'.
    fold (solved_hratios kw m ah) in Mh', Ph', Lh'.
    split; [reflexivity|]. split; [exact Lw'|]. split; [exact Lh'|].
    split; [exact Pw'|]. split; [exact Ph'|]. split; [|split].
    + intros e ->. congruence.
    + intros w h gk ->. destruct Hr as [Gw Gh].
      exists m, l, aw, ah. rewrite Mw', Mh'.
      rewrite Iw in Mw. rewrite Ih in Mh.
      apply (main_entries_where_not _ []) in Mw; [|eauto using len_eq].
      apply (main_entries_where_not _ []) in Mh; [|eauto using len_eq].
      rewrite <- Mw, <- Mh. auto 10.
    + intros ? ->. exact E.
Qed.

Lemma solve_overwrites_main_ratios_witness :
  exists kw' r,
    _subplots_geometry example_rc example_kw = (kw', r) /\
    kw' = set_ratios example_kw (kw_wratios kw') (kw_hratios kw') /\
    length (kw_wratios kw') = length (kw_wratios example_kw).
Proof.
  eexists _, _. split; [vm_compute; reflexivity|].
  edestruct (solve_overwrites_main_ratios example_rc example_kw) as (F & L & _).
  - vm_compute. reflexivity.
  - split; [exact F|exact L].
Defined.

(** C9, as the claim states it, fails on the end-to-end example: the call
    returns with the caller's ratio arrays changed from [1, 1] to [2, 2]. *)
Lemma solve_changes_ratio_arrays :
  ~ leaves_arrays_unchanged example_rc example_kw.
Proof.
  unfold leaves_arrays_unchanged. intros [W _].
  vm_compute in W. inversion W as [|? ? ? ? Hq _]. discriminate Hq.
Qed.

(** ** Gridspecs made from a solved geometry *)

Lemma normalize_range (a b size : Z) :
  0 <= a <= b -> b < size -> _normalize (range_ a (b + 1)) size = Ok (a, b).
Proof.
  intros Hab Hb. unfold range_, _normalize, slice_indices. cbn.
  Zcases; try lia. cbn. Zcases; try lia.
  f_equal. f_equal; lia.
Qed.

Section GridSpecProperties.
  Context {num : Type} `{Number num}.
  Variable rc : rc_settings num.

Lemma repeat_single_same (a : list num) (n : Z) :
    len a = n -> repeat_single a n = Ok a.
  Proof.
    intros <-. destruct a as [|x [|y a]]; reflexivity.
  Qed.

Lemma spaces_as_ratios_Ok (gk : gridspec_kw num) (nrows ncols : Z) :
    len (gk_height_ratios gk) = nrows -> len (gk_width_ratios gk) = ncols ->
    len (gk_hspace gk) = nrows - 1 -> len (gk_wspace gk) = ncols - 1 ->
    _spaces_as_ratios (nrows, ncols) gk
    = Ok (interleave (gk_width_ratios gk) (gk_wspace gk),
          interleave (gk_height_ratios gk) (gk_hspace gk)).
  Proof.
    intros Lh Lw Sh Sw. unfold _spaces_as_ratios.
    rewrite !repeat_single_same by assumption. cbn.
    rewrite Lh, Lw, Sh, Sw, !Z.eqb_refl. reflexivity.
  Qed.

  (** The keywords a successful solve returns are consistent. *)
Lemma geometry_gridspec_kw (kw kw' : subplots_kw num) (w h : num)
      (gk : gridspec_kw num) :
    _subplots_geometry rc kw = (kw', Ok (w, h, gk)) ->
    gk_nrows gk = kw_nrows kw /\ gk_ncols gk = kw_ncols kw /\
    len (gk_height_ratios gk) = kw_nrows kw /\
    len (gk_width_ratios gk) = kw_ncols kw /\
    len (gk_hspace gk) = kw_nrows kw - 1 /\
    len (gk_wspace gk) = kw_ncols kw - 1.
  Proof.
    intros E.
    apply geometry_Ok in E
      as (m & l & aw & ah & Es & _ & _ & _ & _ & _ & _ & Ew & Eh & Sw & Sh & Ec & Er & _).
    apply solve_extents_Ok in Es as (Hc & Hs & _).
    apply check_lengths_Ok in Hc as (Lh & Lw & Lhs & Lws & Ph & Pw).
    apply split_slots_Ok in Hs as (Ih & Iw & Mh & Mw & _).
    destruct (write_back_main (kw_wpanels kw) (kw_wratios kw) (wratios_main m)
                (rescale aw (wratios_main m)) (idxs_ratios_w m))
      as (_ & _ & Lw'); eauto using len_eq, rescale_length.
    destruct (write_back_main (kw_hpanels kw) (kw_hratios kw) (hratios_main m)
                (rescale ah (hratios_main m)) (idxs_ratios_h m))
      as (_ & _ & Lh'); eauto using len_eq, rescale_length.
    rewrite Ew, Eh, Sw, Sh. unfold len in *. rewrite Lw', Lh'. auto 10.
  Qed.

Lemma init_Ok (gk : gridspec_kw num) :
    len (gk_height_ratios gk) = gk_nrows gk ->
    len (gk_width_ratios gk) = gk_ncols gk ->
    len (gk_hspace gk) = gk_nrows gk - 1 ->
    len (gk_wspace gk) = gk_ncols gk - 1 ->
    exists gs, FlexibleGridSpec_init gk = Ok gs /\ doubled gs /\
               _nrows_active gs = gk_nrows gk /\ _ncols_active gs = gk_ncols gk.
  Proof.
    intros Lh Lw Sh Sw. unfold FlexibleGridSpec_init.
    rewrite spaces_as_ratios_Ok by assumption. cbn.
    eexists. split; [reflexivity|]. repeat split.
  Qed.

Lemma update_Ok (gs : FlexibleGridSpec num) (gk : gridspec_kw num) :
    len (gk_height_ratios gk) = _nrows_active gs ->
    len (gk_width_ratios gk) = _ncols_active gs ->
    len (gk_hspace gk) = _nrows_active gs - 1 ->
    len (gk_wspace gk) = _ncols_active gs - 1 ->
    exists gs', update gs gk = Ok gs' /\
                get_geometry gs' = get_geometry gs /\
                get_active_geometry gs' = get_active_geometry gs.
  Proof.
    intros Lh Lw Sh Sw. unfold update, get_active_geometry.
    rewrite spaces_as_ratios_Ok by assumption. cbn.
    eexists. split; [reflexivity|]. split; reflexivity.
  Qed.
End GridSpecProperties.

(** ** Reassigning the placements *)

Lemma moved_bounds (i c n : Z) : 0 <= c -> c < n -> 0 <= moved i c /\ moved i c < n + 1.
Proof. unfold moved. intros. Zcases; lia. Qed.

Lemma moved_mono (i c1 c2 : Z) : c1 <= c2 -> moved i c1 <= moved i c2.
Proof. unfold moved. intros. Zcases; lia. Qed.

Lemma shift_coords_moved (s : panel) (i row1 row2 col1 col2 : Z) :
  shift_coords s i (row1, row2, col1, col2)
  = if in_lr s then (row1, row2, moved i col1, moved i col2)
    else (moved i row1, moved i row2, col1, col2).
Proof. unfold shift_coords, bump, moved. destruct (in_lr s); reflexivity. Qed.

Section Reassign.
  Context {num : Type} `{Number num}.

Lemma reassign_recognized (gs : FlexibleGridSpec num) (s : panel) (i : Z)
      (nrows ncols : Z) (ax : Axes) :
    doubled gs ->
    get_active_geometry gs = grown s nrows ncols ->
    placed_in nrows ncols ax -> recognized ax ->
    exists ax',
      reassign_subplotspec gs s i ax = Ok ax' /\
      remapped s i ax ax' /\
      placed_in (fst (grown s nrows ncols)) (snd (grown s nrows ncols)) ax' /\
      recognized ax'.
  Proof.
    intros Hd Hg Hp Hr. unfold reassign_subplotspec, placed_in, recognized, remapped in *.
    destruct (subplotspec ax) as [sp|] eqn:Esp.
    2:{ exists ax. rewrite Esp. auto. }
    destruct Hp as (r1 & r2 & c1 & c2 & (nr & nc & Hc) & Hr1 & Hr2 & Hc1 & Hc2).
    rewrite Hc. cbn -[__getitem__ shift_coords range_]. rewrite shift_coords_moved.
    set (coords' := if in_lr s then (r1, r2, moved i c1, moved i c2)
                    else (moved i r1, moved i r2, c1, c2)).
    assert (exists r1' r2' c1' c2',
               coords' = (r1', r2', c1', c2') /\
               0 <= r1' <= r2' /\ r2' < _nrows_active gs /\
               0 <= c1' <= c2' /\ c2' < _ncols_active gs) as
      (r1' & r2' & c1' & c2' & Ec & B1 & B2 & B3 & B4).
    { unfold get_active_geometry, grown in Hg. subst coords'.
      pose proof (moved_bounds i c1 ncols) as M1.
      pose proof (moved_bounds i c2 ncols) as M2.
      pose proof (moved_bounds i r1 nrows) as M3.
      pose proof (moved_bounds i r2 nrows) as M4.
      pose proof (moved_mono i c1 c2) as M5.
      pose proof (moved_mono i r1 r2) as M6.
      destruct (in_lr s); injection Hg as -> ->;
        eexists _, _, _, _; (split; [reflexivity|]); lia. }
    rewrite Ec. cbn -[__getitem__ range_].
    destruct (getitem_roundtrip gs (range_ r1' (r2' + 1)) (range_ c1' (c2' + 1))
                r1' r2' c1' c2') as (ss & Eg & _ & Ecoords);
      auto using normalize_range; try lia.
    rewrite Eg. cbn.
    assert (Hnew : forall sp', get_topmost_subplotspec sp' = ss ->
                               has_coords sp' coords').
    { intros sp' Et. rewrite Ec. unfold has_coords. rewrite Et. eauto. }
    assert (Hin : forall sp', get_topmost_subplotspec sp' = ss ->
              exists row1 row2 col1 col2,
                has_coords sp' (row1, row2, col1, col2) /\
                0 <= row1 <= row2 /\ row2 < fst (grown s nrows ncols) /\
                0 <= col1 <= col2 /\ col2 < snd (grown s nrows ncols)).
    { intros sp' Et. exists r1', r2', c1', c2'. rewrite <- Ec.
      split; [auto|]. rewrite <- Hg. cbn. lia. }
    destruct sp as [f|n m [f|? ? ? ? ?] n1 n2]; cbn in Hr; [| |lia].
    - eexists. split; [reflexivity|]. cbn [subplotspec].
      split; [|split; [exact (Hin (OnMain ss) eq_refl)|cbn; lia]].
      exists (OnMain ss), r1, r2, c1, c2. split; [reflexivity|].
      split; [reflexivity|]. split; [exists nr, nc; exact Hc|].
      exact (Hnew (OnMain ss) eq_refl).
    - eexists. split; [reflexivity|]. cbn [subplotspec].
      split; [|split; [exact (Hin (Nested n m (OnMain ss) n1 n2) eq_refl)|cbn; lia]].
      exists (Nested n m (OnMain ss) n1 n2), r1, r2, c1, c2. split; [reflexivity|].
      split; [reflexivity|]. split; [exists nr, nc; exact Hc|].
      exact (Hnew (Nested n m (OnMain ss) n1 n2) eq_refl).
  Qed.

Lemma reassign_unrecognized (gs : FlexibleGridSpec num) (s : panel) (i : Z)
      (nrows ncols : Z) (ax : Axes) :
    doubled gs ->
    get_active_geometry gs = grown s nrows ncols ->
    placed_in nrows ncols ax -> ~ recognized ax ->
    reassign_subplotspec gs s i ax = Raise ValueError.
  Proof.
    intros Hd Hg Hp Hr. unfold reassign_subplotspec, placed_in, recognized in *.
    destruct (subplotspec ax) as [sp|] eqn:Esp; [|tauto].
    destruct Hp as (r1 & r2 & c1 & c2 & (nr & nc & Hc) & Hr1 & Hr2 & Hc1 & Hc2).
    rewrite Hc. cbn -[__getitem__ shift_coords range_]. rewrite shift_coords_moved.
    set (coords' := if in_lr s then (r1, r2, moved i c1, moved i c2)
                    else (moved i r1, moved i r2, c1, c2)).
    assert (exists r1' r2' c1' c2',
               coords' = (r1', r2', c1', c2') /\
               0 <= r1' <= r2' /\ r2' < _nrows_active gs /\
               0 <= c1' <= c2' /\ c2' < _ncols_active gs) as
      (r1' & r2' & c1' & c2' & Ec & B1 & B2 & B3 & B4).
    { unfold get_active_geometry, grown in Hg. subst coords'.
      pose proof (moved_bounds i c1 ncols) as M1.
      pose proof (moved_bounds i c2 ncols) as M2.
      pose proof (moved_bounds i r1 nrows) as M3.
      pose proof (moved_bounds i r2 nrows) as M4.
      pose proof (moved_mono i c1 c2) as M5.
      pose proof (moved_mono i r1 r2) as M6.
      destruct (in_lr s); injection Hg as -> ->;
        eexists _, _, _, _; (split; [reflexivity|]); lia. }
    rewrite Ec. cbn -[__getitem__ range_].
    destruct (getitem_roundtrip gs (range_ r1' (r2' + 1)) (range_ c1' (c2' + 1))
                r1' r2' c1' c2') as (ss & Eg & _ & Ecoords);
      auto using normalize_range; try lia.
    rewrite Eg. cbn.
    destruct sp as [f|n m [f|? ? ? ? ?] n1 n2]; cbn in Hr; try (exfalso; lia).
    reflexivity.
  Qed.
End Reassign.

Section ReassignAll.
  Context {num : Type} `{Number num}.
  Variable rc : rc_settings num.


Lemma recognized_dec (ax : Axes) : {recognized ax} + {~ recognized ax}.
  Proof.
    unfold recognized. destruct (subplotspec ax) as [sp|]; [|left; exact I].
    apply le_dec.
  Defined.

Lemma reassign_all_unrecognized (gs : FlexibleGridSpec num) (s : panel) (i : Z)
      (nrows ncols : Z) (axs : list Axes) :
    doubled gs ->
    get_active_geometry gs = grown s nrows ncols ->
    Forall (placed_in nrows ncols) axs ->
    Exists (fun ax => ~ recognized ax) axs ->
    snd (reassign_all gs s i axs) = Raise ValueError.
  Proof.
    intros Hd Hg Hp Hr. induction axs as [|ax axs IH].
    - apply Exists_nil in Hr. contradiction.
    - apply Forall_cons_1 in Hp as [Hp Hps]. cbn.
      destruct (recognized_dec ax) as [Hy|Hn].
      + destruct (reassign_recognized gs s i nrows ncols ax) as (ax' & E & _); auto.
        rewrite E. apply Exists_cons in Hr as [Hr|Hr]; [contradiction|].
        specialize (IH Hps Hr). destruct (reassign_all gs s i axs). exact IH.
      + rewrite (reassign_unrecognized gs s i nrows ncols ax); auto.
  Qed.

  (** The figure is solved again and gets a new gridspec (lines
      1301-1310). *)
Lemma made_room_gridspec (fig : Figure num) (s : panel) (idx : Z)
      (ratio space : num) (space_orig : option num) (figure : bool) :
    let fig1 := made_room fig s idx ratio space space_orig figure in
    is_ok (snd (_subplots_geometry rc (_subplots_kw fig1))) = true ->
    exists kw' w h gk gs,
      _subplots_geometry rc (_subplots_kw fig1) = (kw', Ok (w, h, gk)) /\
      FlexibleGridSpec_init gk = Ok gs /\ doubled gs /\
      get_active_geometry gs
      = grown s (kw_nrows (_subplots_kw fig)) (kw_ncols (_subplots_kw fig)).
  Proof.
    intros fig1 Hok.
    destruct (_subplots_geometry rc (_subplots_kw fig1)) as [kw' [[[w h] gk]|e]] eqn:E;
      [|discriminate].
    destruct (geometry_gridspec_kw rc _ _ _ _ _ E) as (Er & Ec & Lh & Lw & Sh & Sw).
    destruct (init_Ok gk) as (gs & Ei & Hd & Ar & Ac); try congruence.
    exists kw', w, h, gk, gs. repeat split; auto; try apply Hd.
    unfold get_active_geometry. rewrite Ar, Ac, Er, Ec.
    subst fig1. unfold made_room, grown. cbn. destruct (in_lr s); reflexivity.
  Qed.
End ReassignAll.

Section Insertion.
  Context {num : Type} `{Number num}.
  Variable rc : rc_settings num.

  (** A call that makes room: what it returns once the new gridspec
      exists, in terms of the remap loop. *)
Lemma insert_new_slot (fig : Figure num) (side : string) (idx : Z)
      (ratio space : num) (space_orig : option num) (figure : bool)
      (s : panel) :
    side_letter side = Ok s ->
    slot_exists (panels (load_arrays (in_lr s) fig)) idx
      (if figure then tag_f else s) = Ok false ->
    is_ok (snd (_subplots_geometry rc
                  (_subplots_kw (made_room fig s idx ratio space space_orig figure))))
    = true ->
    exists gs fig1,
      doubled gs /\
      get_active_geometry gs
      = grown s (kw_nrows (_subplots_kw fig)) (kw_ncols (_subplots_kw fig)) /\
      _insert_row_column rc fig side idx ratio space space_orig figure
      = (let '(axs, r) :=
           reassign_all gs s (idx + int_of_bool (in_tl s)) (fig_axes fig) in
         (set_gridspec fig1 gs axs,
          match r with Raise e => Raise e | Ok _ => Ok gs end)).
  Proof.
    intros Es Ex Hok.
    destruct (made_room_gridspec rc fig s idx ratio space space_orig figure Hok)
      as (kw' & w & h & gk & gs & Eg & Ei & Hd & Ha).
    exists gs. eexists. split; [exact Hd|]. split; [exact Ha|].
    unfold _insert_row_column. rewrite Es, Ex.
    fold (made_room fig s idx ratio space space_orig figure).
    unfold update_figure. rewrite Eg.
    cbn -[reassign_all FlexibleGridSpec_init]. rewrite Ei.
    cbn -[reassign_all]. reflexivity.
  Qed.
End Insertion.


(** C8 - Unexpected nesting.  When a panel insertion makes room for a new
    slot and some placement of the figure is owned in neither of the two
    recognized ways, the call raises: the exception is a [ValueError]. *)
Theorem unexpected_nesting_ValueError {num : Type} `{Number num}
    (rc : rc_settings num) (fig : Figure num) (side : string) (idx : Z)
    (ratio space : num) (space_orig : option num) (figure : bool) (s : panel) :
  side_letter side = Ok s ->
  slot_exists (panels (load_arrays (in_lr s) fig)) idx
    (if figure then tag_f else s) = Ok false ->
  is_ok (snd (_subplots_geometry rc
                (_subplots_kw (made_room fig s idx ratio space space_orig figure))))
  = true ->
  Forall (placed_in (kw_nrows (_subplots_kw fig)) (kw_ncols (_subplots_kw fig)))
         (fig_axes fig) ->
  Exists (fun ax => ~ recognized ax) (fig_axes fig) ->
  snd (_insert_row_column rc fig side idx ratio space space_orig figure)
  = Raise ValueError.
Proof.
  intros Es Ex Hok Hp Hr.
  destruct (insert_new_slot rc fig side idx ratio space space_orig figure s Es Ex Hok)
    as (gs & fig1 & Hd & Ha & E).
  pose proof (reassign_all_unrecognized gs s (idx + int_of_bool (in_tl s)) _ _
                (fig_axes fig) Hd Ha Hp Hr) as Er.
  rewrite E. destruct (reassign_all gs s _ (fig_axes fig)) as [axs r].
  cbn in *. rewrite Er. reflexivity.
Qed.

Lemma has_coords_fun (sp : SubplotSpec) (c c' : Z * Z * Z * Z) :
  has_coords sp c -> has_coords sp c' -> c = c'.
Proof.
  destruct c as [[[r1 r2] c1] c2], c' as [[[r1' r2'] c1'] c2'].
  intros (nr & nc & E) (nr' & nc' & E'). congruence.
Qed.


Lemma unexpected_nesting_ValueError_witness :
  exists fig0 sp,
    example_figure [((0, 1), (0, 1))] = Ok fig0 /\
    fig_axes fig0 = [{| subplotspec := Some sp |}] /\
    snd (_insert_row_column example_rc (with_axes fig0 [twice_nested sp])
           "left" (-1) 0.5%Q 0.1%Q None true)
    = Raise ValueError.
Proof.
  assert (E0 : exists fig0, example_figure [((0, 1), (0, 1))] = Ok fig0)
    by (eexists; vm_compute; reflexivity).
  destruct E0 as [fig0 E0]. exists fig0.
  pose proof E0 as E0'. vm_compute in E0'. injection E0' as E0'. subst fig0.
  eexists. split; [exact E0|]. split; [reflexivity|].
  apply (unexpected_nesting_ValueError example_rc) with (s := tag_l).
  - reflexivity.
  - reflexivity.
  - vm_compute. reflexivity.
  - repeat constructor. exists 0, 1, 0, 1. split; [|cbn; lia]. eexists _, _. reflexivity.
  - constructor. cbn. lia.
Defined.

(** C8, as the claim states it, fails: on a placement nested twice the
    call raises [ValueError], which is not the [RuntimeError] of the
    claim. *)
Lemma nesting_error_is_not_RuntimeError :
  exists fig0 sp,
    example_figure [((0, 1), (0, 1))] = Ok fig0 /\
    fig_axes fig0 = [{| subplotspec := Some sp |}] /\
    snd (_insert_row_column example_rc (with_axes fig0 [twice_nested sp])
           "left" (-1) 0.5%Q 0.1%Q None true)
    <> Raise RuntimeError.
Proof.
  eexists _, _. split; [vm_compute; reflexivity|]. split; [reflexivity|].
  vm_compute. discriminate.
Qed.

(** ** Python lists *)

Lemma getitem_Z_inside {A} (l : list A) (i : Z) (x : A) :
  0 <= i -> l !! Z.to_nat i = Some x -> getitem_Z l i = Ok x.
Proof.
  intros Hi Hl. unfold getitem_Z, len.
  pose proof (lookup_lt_Some _ _ _ Hl) as Hlt.
  destruct (Z.ltb_spec i 0); [lia|].
  destruct (Z.leb_spec 0 i); [|lia].
  destruct (Z.ltb_spec i (Z.of_nat (length l))); [|lia].
  cbn. unfold getitem_nat. rewrite Hl. reflexivity.
Qed.

Lemma setitem_Z_inside {A} (l : list A) (i : Z) (x : A) :
  0 <= i < len l -> setitem_Z l i x = Ok (<[Z.to_nat i := x]> l).
Proof.
  intros Hi. unfold setitem_Z, len in *.
  destruct (Z.ltb_spec i 0); [lia|].
  destruct (Z.leb_spec 0 i); [|lia].
  destruct (Z.ltb_spec i (Z.of_nat (length l))); [|lia].
  reflexivity.
Qed.

Lemma getitem_Z_insert {A} (l : list A) (i : Z) (x : A) :
  0 <= i < len l -> getitem_Z (<[Z.to_nat i := x]> l) i = Ok x.
Proof.
  intros Hi. apply getitem_Z_inside; [lia|].
  apply list_lookup_insert_eq. unfold len in Hi. lia.
Qed.

Lemma list_insert_Z_inside {A} (l : list A) (i : Z) (x : A) :
  0 <= i <= len l ->
  list_insert_Z l i x = take (Z.to_nat i) l ++ x :: drop (Z.to_nat i) l.
Proof.
  intros Hi. unfold list_insert_Z, len in *.
  destruct (Z.ltb_spec i 0); [lia|].
  rewrite Z.min_l by lia. reflexivity.
Qed.

Lemma list_insert_Z_length {A} (l : list A) (i : Z) (x : A) :
  length (list_insert_Z l i x) = S (length l).
Proof.
  unfold list_insert_Z. rewrite length_app. cbn.
  rewrite length_take, length_drop. lia.
Qed.

Lemma list_insert_Z_getitem {A} (l : list A) (i : Z) (x : A) :
  0 <= i <= len l -> getitem_Z (list_insert_Z l i x) i = Ok x.
Proof.
  intros Hi. apply getitem_Z_inside; [lia|].
  rewrite list_insert_Z_inside by exact Hi. unfold len in Hi.
  rewrite lookup_app_r by (rewrite length_take; lia).
  rewrite length_take, Nat.min_l by lia. rewrite Nat.sub_diag. reflexivity.
Qed.

Lemma write_back_length {A} (ratios : list A) (idxs : list nat) (new : list A) :
  length (write_back ratios idxs new) = length ratios.
Proof.
  unfold write_back. generalize (zip idxs new). intros ps. revert ratios.
  induction ps as [|p ps IH]; intros ratios; [reflexivity|].
  cbn. rewrite IH. apply length_insert.
Qed.

Section GeometryKeeps.
  Context {num : Type} `{Number num}.
  Variable rc : rc_settings num.

  (** Whatever the outcome, a solve keeps the counts, the toggles and the
      spaces, and the lengths of the ratio arrays. *)
Lemma geometry_keeps (kw kw' : subplots_kw num)
      (r : result (num * num * gridspec_kw num)) :
    _subplots_geometry rc kw = (kw', r) ->
    kw_nrows kw' = kw_nrows kw /\ kw_ncols kw' = kw_ncols kw /\
    kw_wpanels kw' = kw_wpanels kw /\ kw_hpanels kw' = kw_hpanels kw /\
    kw_wspace kw' = kw_wspace kw /\ kw_hspace kw' = kw_hspace kw /\
    length (kw_wratios kw') = length (kw_wratios kw) /\
    length (kw_hratios kw') = length (kw_hratios kw).
  Proof.
    intros E.
    destruct (geometry_cases rc kw)
      as [[e E']|(m & l & aw & ah & r' & _ & _ & _ & E' & _)];
      rewrite E in E'; injection E' as -> ->.
    - auto 10.
    - cbn. unfold solved_wratios, solved_hratios.
      rewrite !write_back_length. auto 10.
  Qed.
End GeometryKeeps.

Section Reinsertion.
  Context {num : Type} `{Number num}.
  Variable rc : rc_settings num.

Lemma load_store (lr : bool) (grow : Z) (a : arrays) (fig : Figure num) :
    load_arrays lr (store_arrays lr grow a fig) = a.
  Proof. destruct a, lr; reflexivity. Qed.

Lemma same_structure_refl (fig : Figure num) : same_structure fig fig.
  Proof. unfold same_structure. auto 15. Qed.

Lemma same_structure_trans (fig1 fig2 fig3 : Figure num) :
    same_structure fig1 fig2 -> same_structure fig2 fig3 -> same_structure fig1 fig3.
  Proof.
    unfold same_structure. cbn.
    intros (A1 & A2 & A3 & A4 & A5 & A6 & A7 & A8 & A9 & A10 & A11 & A12)
           (B1 & B2 & B3 & B4 & B5 & B6 & B7 & B8 & B9 & B10 & B11 & B12).
    repeat split; congruence.
  Qed.

Lemma same_structure_store (lr : bool) (a : arrays) (fig : Figure num) :
    length (panels a) = length (panels (load_arrays lr fig)) ->
    length (ratios a) = length (ratios (load_arrays lr fig)) ->
    length (spaces a) = length (spaces (load_arrays lr fig)) ->
    length (spaces_orig a) = length (spaces_orig (load_arrays lr fig)) ->
    same_structure fig (store_arrays lr 0 a fig).
  Proof.
    unfold same_structure. destruct lr; cbn; intros -> -> -> ->;
      rewrite ?Z.add_0_r; auto 15.
  Qed.

  (** Lines 1301-1306 when the slot existed: the figure keeps its
      structure, its toggles, its spaces and the spaces of the user. *)
Lemma update_figure_existing (fig fig2 : Figure num) (s : panel) (idx : Z)
      (r : result (FlexibleGridSpec num)) :
    update_figure rc fig s idx true = (fig2, r) ->
    same_structure fig fig2 /\
    forall lr,
      panels (load_arrays lr fig2) = panels (load_arrays lr fig) /\
      spaces (load_arrays lr fig2) = spaces (load_arrays lr fig) /\
      spaces_orig (load_arrays lr fig2) = spaces_orig (load_arrays lr fig).
  Proof.
    unfold update_figure.
    destruct (_subplots_geometry rc (_subplots_kw fig)) as [kw' solved] eqn:Eg.
    destruct (geometry_keeps rc _ _ _ Eg) as (K1 & K2 & K3 & K4 & K5 & K6 & K7 & K8).
    assert (S1 : same_structure fig (set_subplots_kw fig kw')).
    { unfold same_structure. cbn. rewrite K1, K2, K3, K4, K5, K6, K7, K8. auto 15. }
    assert (L1 : forall lr,
               panels (load_arrays lr (set_subplots_kw fig kw')) = panels (load_arrays lr fig) /\
               spaces (load_arrays lr (set_subplots_kw fig kw')) = spaces (load_arrays lr fig) /\
               spaces_orig (load_arrays lr (set_subplots_kw fig kw'))
               = spaces_orig (load_arrays lr fig)).
    { intros [|]; cbn; auto. }
    destruct solved as [[[w h] gk]|e]; [|cbn; intros E; inversion E; subst; auto].
    cbn -[update]. destruct (update (_gridspec_main fig) gk) as [gs|e] eqn:Eu.
    - intros E; inversion E; subst. apply update_geometry in Eu as [G1 G2]. split.
      + unfold same_structure in *. cbn -[get_geometry get_active_geometry] in *.
        rewrite G1, G2. tauto.
      + intros lr. destruct (L1 lr) as (P1 & P2 & P3). destruct lr; cbn in *; auto.
    - intros E; inversion E; subst. split.
      + exact S1.
      + intros lr. destruct (L1 lr) as (P1 & P2 & P3). destruct lr; cbn in *; auto.
  Qed.

  (** The call at a slot that exists: nothing is inserted, and the space
      of the gap is the pinned one if there is one. *)
Lemma reinsert_existing (fig fig2 : Figure num) (side : string) (idx : Z)
      (ratio space : num) (space_orig pinned : option num) (figure : bool)
      (s : panel) (r : result (FlexibleGridSpec num)) :
    let lr := in_lr s in
    let gap := idx - int_of_bool (in_br s) in
    side_letter side = Ok s ->
    slot_exists (panels (load_arrays lr fig)) idx (if figure then tag_f else s)
    = Ok true ->
    0 <= gap < len (spaces (load_arrays lr fig)) ->
    length (spaces_orig (load_arrays lr fig)) = length (spaces (load_arrays lr fig)) ->
    getitem_Z (spaces_orig (load_arrays lr fig)) gap = Ok pinned ->
    _insert_row_column rc fig side idx ratio space space_orig figure = (fig2, r) ->
    same_structure fig fig2 /\
    getitem_Z (spaces (load_arrays lr fig2)) gap
    = Ok (_notNone pinned (_notNone space_orig space)) /\
    getitem_Z (spaces_orig (load_arrays lr fig2)) gap
    = Ok (match pinned with Some o => Some o | None => space_orig end).
  Proof.
    intros lr gap Es Ex Hgap Hlen Hpin.
    unfold _insert_row_column. rewrite Es. fold lr. rewrite Ex. fold gap.
    assert (Hgap' : 0 <= gap < len (spaces_orig (load_arrays lr fig)))
      by (unfold len in *; lia).
    unfold update_space. rewrite Hpin.
    destruct pinned as [o|].
    - rewrite Hpin. rewrite setitem_Z_inside by exact Hgap.
      set (a' := {| panels := _ |}).
      intros E. apply update_figure_existing in E as [S L].
      destruct (L lr) as (_ & -> & ->). rewrite load_store. cbn.
      split; [|split].
      + eapply same_structure_trans; [|exact S].
        apply same_structure_store; cbn; auto using length_insert.
      + apply getitem_Z_insert. exact Hgap.
      + exact Hpin.
    - rewrite setitem_Z_inside by exact Hgap'.
      rewrite getitem_Z_insert by exact Hgap'.
      rewrite setitem_Z_inside by exact Hgap.
      set (a' := {| panels := _ |}).
      intros E. apply update_figure_existing in E as [S L].
      destruct (L lr) as (_ & -> & ->). rewrite load_store. cbn.
      split; [|split].
      + eapply same_structure_trans; [|exact S].
        apply same_structure_store; cbn; auto using length_insert.
      + apply getitem_Z_insert. exact Hgap.
      + apply getitem_Z_insert. exact Hgap'.
  Qed.
End Reinsertion.

Section TwoCalls.
  Context {num : Type} `{Number num}.
  Variable rc : rc_settings num.

  (** Lines 1301-1345 leave the toggles, the spaces and the spaces of the
      user as they find them, whether or not a slot was inserted. *)
Lemma update_figure_arrays (fig fig2 : Figure num) (s : panel) (idx : Z)
      (exists_ : bool) (r : result (FlexibleGridSpec num)) (lr : bool) :
    update_figure rc fig s idx exists_ = (fig2, r) ->
    panels (load_arrays lr fig2) = panels (load_arrays lr fig) /\
    spaces (load_arrays lr fig2) = spaces (load_arrays lr fig) /\
    spaces_orig (load_arrays lr fig2) = spaces_orig (load_arrays lr fig).
  Proof.
    unfold update_figure.
    destruct (_subplots_geometry rc (_subplots_kw fig)) as [kw' solved] eqn:Eg.
    destruct (geometry_keeps rc _ _ _ Eg) as (K1 & K2 & K3 & K4 & K5 & K6 & K7 & K8).
    destruct solved as [[[w h] gk]|e];
      [|cbn; intros E; inversion E; subst; destruct lr; cbn; auto].
    cbn -[update FlexibleGridSpec_init reassign_all]. destruct exists_.
    - destruct (update (_gridspec_main fig) gk) as [gs|e];
        intros E; inversion E; subst; destruct lr; cbn; auto.
    - destruct (FlexibleGridSpec_init gk) as [gs|e];
        [destruct (reassign_all gs s idx (fig_axes fig)) as [axs r']|];
        intros E; inversion E; subst; destruct lr; cbn; auto.
  Qed.
End TwoCalls.

(** C4 - Re-insertion.  After a call has made room for a panel, a second
    call with the same tag that addresses the slot of that panel (the same
    index for a right or bottom panel, one more for a left or top panel)
    inserts nothing: the counts of rows and columns, the lengths of the
    arrays and the geometry of the gridspec are those left by the first
    call.  The space stored for the gap is the space of the second call,
    unless the first call pinned an override, which then is what is
    stored.  As [_panels_kwargs] makes them, the override of the second
    call is absent or equal to its space. *)
Theorem reinsertion_keeps_structure {num : Type} `{Number num}
    (rc : rc_settings num) (fig0 fig1 fig2 : Figure num) (side : string)
    (idx : Z) (ratio1 space1 ratio2 space2 : num)
    (space_orig1 space_orig2 : option num) (figure : bool) (s : panel)
    (g1 : FlexibleGridSpec num) (r2 : result (FlexibleGridSpec num)) :
  let lr := in_lr s in
  let target := idx + int_of_bool (in_tl s) in
  let gap := target - int_of_bool (in_br s) in
  side_letter side = Ok s ->
  slot_exists (panels (load_arrays lr fig0)) idx (if figure then tag_f else s)
  = Ok false ->
  0 <= target <= len (panels (load_arrays lr fig0)) ->
  0 <= gap <= len (spaces (load_arrays lr fig0)) ->
  length (spaces_orig (load_arrays lr fig0)) = length (spaces (load_arrays lr fig0)) ->
  _insert_row_column rc fig0 side idx ratio1 space1 space_orig1 figure
  = (fig1, Ok g1) ->
  space_orig2 = None \/ space_orig2 = Some space2 ->
  _insert_row_column rc fig1 side target ratio2 space2 space_orig2 figure
  = (fig2, r2) ->
  same_structure fig1 fig2 /\
  getitem_Z (spaces (load_arrays lr fig2)) gap = Ok (_notNone space_orig1 space2).
Proof.
  intros lr target gap Es Ex Ht Hg Hl E1 Hc E2.
  unfold _insert_row_column in E1. rewrite Es in E1. fold lr in E1.
  rewrite Ex in E1.
  apply (update_figure_arrays rc _ _ _ _ _ _ lr) in E1 as (P & Q & O).
  rewrite load_store in P, Q, O. cbn [panels spaces spaces_orig insert_slot] in P, Q, O.
  fold target in P.
  replace (idx - int_of_bool (in_br s) + int_of_bool (in_tl s)) with gap in Q, O
    by (unfold gap, target; lia).
  assert (Hg' : 0 <= gap <= len (spaces_orig (load_arrays lr fig0)))
    by (unfold len in *; lia).
  destruct (reinsert_existing rc fig1 fig2 side target ratio2 space2 space_orig2
              space_orig1 figure s r2) as (St & Sp & _); auto.
  - fold lr. rewrite P. unfold slot_exists.
    rewrite list_insert_Z_getitem by exact Ht. unfold len.
    rewrite list_insert_Z_length.
    destruct (Z.eqb_spec target (-1)); [lia|].
    destruct (Z.eqb_spec target (Z.of_nat (S (length (panels (load_arrays lr fig0))))));
      [unfold len in Ht; lia|].
    cbn. rewrite bool_decide_eq_true_2 by reflexivity. reflexivity.
  - fold lr gap. rewrite Q. unfold len in *. rewrite list_insert_Z_length. lia.
  - fold lr. rewrite Q, O, !list_insert_Z_length. congruence.
  - fold lr gap. rewrite O. apply list_insert_Z_getitem. exact Hg'.
  - split; [exact St|]. fold lr gap in Sp. rewrite Sp.
    destruct Hc as [->| ->]; destruct space_orig1; reflexivity.
Qed.

(** The override [_panels_kwargs] hands on is absent or is the space it
    hands on. *)
Lemma panels_kwargs_space {num : Type} `{Number num} (rc : rc_settings num)
    (side : string) (share : option bool) (width space : option num)
    (filled figure : bool) (sh : bool) (w sp : num) (so : option num) :
  _panels_kwargs rc side share width space filled figure = Ok (sh, w, sp, so) ->
  so = None \/ so = Some sp.
Proof.
  unfold _panels_kwargs. intros E. apply bind_Ok in E as (s & _ & E).
  injection E as _ _ <- <-. destruct space; auto.
Qed.

Lemma reinsertion_keeps_structure_witness :
  exists fig0 fig1 g1 fig2 r2,
    example_figure [((0, 1), (0, 1))] = Ok fig0 /\
    _insert_row_column example_rc fig0 "right" 2 0.5%Q 0.2%Q None false
    = (fig1, Ok g1) /\
    _insert_row_column example_rc fig1 "right" 2 0.5%Q 0.3%Q None false
    = (fig2, r2) /\
    same_structure fig1 fig2 /\
    getitem_Z (kw_wspace (_subplots_kw fig2)) 1 = Ok 0.3%Q.
Proof.
  destruct (example_figure [((0, 1), (0, 1))]) as [fig0|e0] eqn:E0;
    [|vm_compute in E0; discriminate E0].
  pose proof E0 as E0'. vm_compute in E0'. injection E0' as E0'. subst fig0.
  match type of E0 with _ = Ok ?f0 => set (fig0 := f0) in * end.
  destruct (_insert_row_column example_rc fig0 "right" 2 0.5%Q 0.2%Q None false)
    as [fig1 [g1|e1]] eqn:E1; [|vm_compute in E1; discriminate E1].
  pose proof E1 as E1'. vm_compute in E1'. injection E1' as F1 G1.
  destruct (_insert_row_column example_rc fig1 "right" 2 0.5%Q 0.3%Q None false)
    as [fig2 r2] eqn:E2.
  exists fig0, fig1, g1, fig2, r2.
  split; [reflexivity|]. split; [exact E1|]. split; [exact E2|].
  apply (reinsertion_keeps_structure example_rc fig0 fig1 fig2 "right" 2
           0.5%Q 0.2%Q 0.5%Q 0.3%Q None None false tag_r g1 r2).
  - reflexivity.
  - reflexivity.
  - vm_compute. split; discriminate.
  - vm_compute. split; discriminate.
  - reflexivity.
  - exact E1.
  - left. reflexivity.
  - exact E2.
Defined.

(** C4, as the claim states it, fails for a left panel: [_add_figure_panel]
    asks for slot -1 each time, and the second such call inserts a second
    column. *)
Lemma second_left_panel_inserts_again :
  exists fig0 fig1 g1 fig2 g2,
    example_figure [((0, 1), (0, 1))] = Ok fig0 /\
    _insert_row_column example_rc fig0 "left" (-1) 0.5%Q 0.2%Q None true
    = (fig1, Ok g1) /\
    _insert_row_column example_rc fig1 "left" (-1) 0.5%Q 0.2%Q None true
    = (fig2, Ok g2) /\
    kw_ncols (_subplots_kw fig1) = 3 /\ kw_ncols (_subplots_kw fig2) = 4 /\
    ~ same_structure fig1 fig2.
Proof.
  eexists _, _, _, _, _.
  split; [vm_compute; reflexivity|].
  split; [vm_compute; reflexivity|].
  split; [vm_compute; reflexivity|].
  split; [reflexivity|]. split; [reflexivity|].
  unfold same_structure. cbn. intros (_ & E & _). discriminate E.
Qed.

(** ** Tight layout *)

Section TightLayoutProperties.
  Context {num : Type} `{Number num}.
  Variable rc : rc_settings num.

  (** What one pass of the loop body stores for a gap. *)
Lemma tight_space_value (fig : Figure num) (x_is_x : bool)
      (axs : list (measured num)) (pnls : list panel) (nacross : Z) (i : nat)
      (space : num) (space_orig : option num) (v : num) :
    tight_space fig x_is_x axs pnls nacross i space space_orig = Ok v ->
    exists p0 p1 separations,
      pnls !! i = Some p0 /\ pnls !! (i + 1)%nat = Some p1 /\
      mapM (group_space (dpi fig) x_is_x axs)
           (groups_of x_is_x axs (Z.of_nat i) nacross) = Ok separations /\
      v = tight_value (_axpad fig) (_panelpad fig) p0 p1 separations space space_orig.
  Proof.
    unfold tight_space, getitem_nat. intros E.
    destruct (pnls !! i) as [p0|]; [|discriminate].
    destruct (pnls !! (i + 1)%nat) as [p1|]; [|discriminate].
    cbn in E. apply bind_Ok in E as (seps & Es & E).
    exists p0, p1, seps. repeat split; auto.
    destruct seps as [|s0 rest]; cbn in E |- *; [congruence|].
    injection E as <-. reflexivity.
  Qed.

Lemma step_Raise fig x_is_x axs pnls nacross (l : list (nat * (num * option num))) (e : exn) :
    fold_left (tight_step fig x_is_x axs pnls nacross) l (Raise e) = Raise e.
  Proof. induction l as [|a l IH]; [reflexivity|]. cbn. exact IH. Qed.

Lemma tight_fold fig x_is_x axs pnls nacross (zs : list (num * option num)) :
    forall (k : nat) (acc res : list num),
      fold_left (tight_step fig x_is_x axs pnls nacross)
                (imap (fun i => pair (k + i)%nat) zs) (Ok acc) = Ok res ->
      length res = length acc /\
      (forall i, (i < k)%nat -> res !! i = acc !! i) /\
      (forall j z, zs !! j = Some z -> (k + j < length acc)%nat ->
                   exists v, tight_space fig x_is_x axs pnls nacross (k + j)%nat
                               (fst z) (snd z) = Ok v /\
                             res !! (k + j)%nat = Some v).
  Proof.
    induction zs as [|z zs IH]; intros k acc res E.
    - cbn in E. injection E as <-. repeat split; auto. intros j z Hj. discriminate.
    - cbn [imap fold_left] in E. unfold tight_step at 2 in E. cbn in E.
      destruct (tight_space fig x_is_x axs pnls nacross (k + 0)%nat z.1 z.2)
        as [v|e] eqn:Ev; cbn in E; [|rewrite step_Raise in E; discriminate].
      rewrite (imap_ext _ (fun i => pair (S k + i)%nat)) in E
        by (intros; cbn; f_equal; lia).
      apply IH in E as (L & Lt & At). rewrite length_insert in L.
      split; [exact L|]. split.
      + intros i Hi. rewrite Lt by lia. apply list_lookup_insert_ne. lia.
      + intros [|j] z' Hj Hlt; cbn in Hj.
        * injection Hj as <-. exists v. split; [exact Ev|].
          rewrite Lt by lia. apply list_lookup_insert_eq. lia.
        * replace (k + S j)%nat with (S k + j)%nat by lia.
          apply At; [exact Hj|]. rewrite length_insert. lia.
  Qed.

  (** The loop stores, for every gap, the value of its own pass. *)
Lemma tight_spaces_lookup fig x_is_x axs pnls nacross
      (ispace jspace : list num) (ispace_orig : list (option num))
      (i : nat) (space : num) (space_orig : option num) :
    tight_spaces fig x_is_x axs pnls nacross ispace ispace_orig = Ok jspace ->
    ispace !! i = Some space -> ispace_orig !! i = Some space_orig ->
    exists v, tight_space fig x_is_x axs pnls nacross i space space_orig = Ok v /\
              jspace !! i = Some v.
  Proof.
    unfold tight_spaces, enumerate. intros E Hs Ho.
    apply (tight_fold fig x_is_x axs pnls nacross _ 0%nat) in E as (_ & _ & At).
    destruct (At i (space, space_orig)) as (v & Ev & Hv).
    - apply lookup_zip_with_Some. eauto.
    - apply lookup_lt_Some in Hs. lia.
    - exists v. auto.
  Qed.

Lemma tight_spaces_length fig x_is_x axs pnls nacross
      (ispace jspace : list num) (ispace_orig : list (option num)) :
    tight_spaces fig x_is_x axs pnls nacross ispace ispace_orig = Ok jspace ->
    length jspace = length ispace.
  Proof.
    unfold tight_spaces, enumerate. intros E.
    apply (tight_fold fig x_is_x axs pnls nacross _ 0%nat) in E as (L & _). exact L.
  Qed.
End TightLayoutProperties.

(** C7 - Tight layout spaces.  After a pass that returns, the space stored
    for a gap across which measured axes face each other is the override of
    the user for that gap if there is one, and otherwise
    [max(0, space - separation + pad)], where [separation] is the smallest
    separation measured over the groups of facing axes and [pad] is
    [panelpad] when the gap lies between a panel and the slot it is attached
    to (['l'] or ['t'] followed by ['l'], ['t'] or a main slot; a main slot,
    ['r'] or ['b'] followed by ['r'] or ['b']) or between two figure panels,
    and [axpad] for every other gap.  A gap with no facing axes keeps its
    space. *)
Theorem tight_layout_spaces {num : Type} `{Number num} (rc : rc_settings num)
    (fig fig' : Figure num) (axs : list (measured num)) (obox bbox : Bbox num) :
  axs <> [] ->
  _adjust_tight_layout rc fig axs obox bbox = (fig', Ok ()) ->
  (forall i space space_orig,
      kw_wspace (_subplots_kw fig) !! i = Some space ->
      ok_wspace (_subplots_orig_kw fig) !! i = Some space_orig ->
      exists p0 p1 separations,
        kw_wpanels (_subplots_kw fig) !! i = Some p0 /\
        kw_wpanels (_subplots_kw fig) !! (i + 1)%nat = Some p1 /\
        mapM (group_space (dpi fig) true axs)
             (groups_of true axs (Z.of_nat i) (_nrows_active (_gridspec_main fig)))
        = Ok separations /\
        kw_wspace (_subplots_kw fig') !! i
        = Some (tight_value (_axpad fig) (_panelpad fig) p0 p1 separations
                  space space_orig)) /\
  (forall i space space_orig,
      kw_hspace (_subplots_kw fig) !! i = Some space ->
      ok_hspace (_subplots_orig_kw fig) !! i = Some space_orig ->
      exists p0 p1 separations,
        kw_hpanels (_subplots_kw fig) !! i = Some p0 /\
        kw_hpanels (_subplots_kw fig) !! (i + 1)%nat = Some p1 /\
        mapM (group_space (dpi fig) false axs)
             (groups_of false axs (Z.of_nat i) (_ncols_active (_gridspec_main fig)))
        = Ok separations /\
        kw_hspace (_subplots_kw fig') !! i
        = Some (tight_value (_axpad fig) (_panelpad fig) p0 p1 separations
                  space space_orig)).
Proof.
  intros Hax E. unfold _adjust_tight_layout in E.
  destruct axs as [|ax0 axs0]; [congruence|]. set (axs := ax0 :: axs0) in *.
  cbn -[tight_spaces _subplots_geometry update] in E.
  set (figm := set_subplots_kw fig (tight_margins fig obox bbox)) in E.
  destruct (tight_spaces figm true axs (kw_wpanels (_subplots_kw fig))
              (_nrows_active (_gridspec_main fig))
              (kw_wspace (_subplots_kw fig)) (ok_wspace (_subplots_orig_kw fig)))
    as [wspace|e] eqn:Ew; [|cbn in E; inversion E].
  destruct (tight_spaces figm false axs (kw_hpanels (_subplots_kw fig))
              (_ncols_active (_gridspec_main fig))
              (kw_hspace (_subplots_kw fig)) (ok_hspace (_subplots_orig_kw fig)))
    as [hspace|e] eqn:Eh; [|cbn in E; inversion E].
  cbn -[_subplots_geometry update] in E.
  destruct (_subplots_geometry rc _) as [kw' solved] eqn:Eg in E.
  apply geometry_keeps in Eg as (_ & _ & _ & _ & Kw & Kh & _).
  cbn in Kw, Kh.
  assert (Ekw : _subplots_kw fig' = kw').
  { destruct solved as [[[w h] gk]|e]; [|inversion E].
    cbn -[update] in E. destruct (update _ gk); inversion E. reflexivity. }
  rewrite Ekw, Kw, Kh. split.
  - intros i space o Hs Ho.
    destruct (tight_spaces_lookup _ _ _ _ _ _ _ _ i space o Ew Hs Ho) as (v & Ev & Hv).
    apply tight_space_value in Ev as (p0 & p1 & seps & P0 & P1 & M & ->).
    exists p0, p1, seps. auto.
  - intros i space o Hs Ho.
    destruct (tight_spaces_lookup _ _ _ _ _ _ _ _ i space o Eh Hs Ho) as (v & Ev & Hv).
    apply tight_space_value in Ev as (p0 & p1 & seps & P0 & P1 & M & ->).
    exists p0, p1, seps. auto.
Qed.

Lemma tight_layout_spaces_witness :
  exists fig fig' p0 p1 separations,
    example_panel_figure = Ok fig /\
    _adjust_tight_layout example_rc fig example_measured example_obox example_bbox
    = (fig', Ok ()) /\
    kw_wpanels (_subplots_kw fig) !! 0%nat = Some p0 /\
    kw_wpanels (_subplots_kw fig) !! 1%nat = Some p1 /\
    mapM (group_space (dpi fig) true example_measured)
         (groups_of true example_measured 0 (_nrows_active (_gridspec_main fig)))
    = Ok separations /\
    kw_wspace (_subplots_kw fig') !! 0%nat
    = Some (tight_value (_axpad fig) (_panelpad fig) p0 p1 separations 0.2%Q None).
Proof.
  destruct example_panel_figure as [fig|e] eqn:E0;
    [|vm_compute in E0; discriminate E0].
  pose proof E0 as E0'. vm_compute in E0'. injection E0' as E0'. subst fig.
  match type of E0 with _ = Ok ?f0 => set (fig := f0) in * end.
  destruct (_adjust_tight_layout example_rc fig example_measured example_obox
              example_bbox) as [fig' r] eqn:E1.
  assert (Er : r = Ok ()).
  { pose proof E1 as E1'. vm_compute in E1'. injection E1' as _ <-. reflexivity. }
  subst r.
  destruct (tight_layout_spaces example_rc fig fig' example_measured example_obox
              example_bbox) as [W _]; [discriminate | exact E1 |].
  destruct (W 0%nat 0.2%Q None) as (p0 & p1 & seps & P0 & P1 & M & V);
    [reflexivity | reflexivity |].
  exists fig, fig', p0, p1, seps. auto 10.
Defined.

(** C7, as the claim states it, fails on the gap between a main slot and
    the left panel of the next axes: a panel lies on one side of it, and yet
    the pad that enters the new space is [axpad] (0.2 - 0.1 + 0.1 = 0.2),
    not [panelpad] (which would give 0.15). *)
Lemma panel_neighbour_gets_axpad :
  exists fig fig' v,
    example_panel_figure = Ok fig /\
    kw_wpanels (_subplots_kw fig) = [main_; tag_l; main_] /\
    kw_wspace (_subplots_kw fig) !! 0%nat = Some 0.2%Q /\
    ok_wspace (_subplots_orig_kw fig) !! 0%nat = Some None /\
    _adjust_tight_layout example_rc fig example_measured example_obox example_bbox
    = (fig', Ok ()) /\
    kw_wspace (_subplots_kw fig') !! 0%nat = Some v /\
    (v == 0.2)%Q /\
    ~ (v == max2 0 (0.2 - 0.1 + claimed_pad (_axpad fig) (_panelpad fig) main_ tag_l))%Q.
Proof.
  eexists _, _, _. split; [vm_compute; reflexivity|].
  split; [reflexivity|]. split; [reflexivity|]. split; [reflexivity|].
  split; [vm_compute; reflexivity|]. split; [reflexivity|].
  split; [reflexivity|]. vm_compute. discriminate.
Qed.

Lemma roundtrip_indexing_witness :
  exists gs ss nrows ncols,
    FlexibleGridSpec_init example_gridspec_kw = Ok gs /\
    __getitem__ gs (Tuple [KSlice (Slice (Some (-2)) None None); KInt (-1)]) = Ok ss /\
    get_active_rows_columns ss = Ok (nrows, ncols, 2, 3, 3, 3).
Proof.
  destruct (FlexibleGridSpec_init example_gridspec_kw) as [gs|e] eqn:E0;
    [|vm_compute in E0; discriminate E0].
  destruct (proj1 (proj2 roundtrip_indexing) Q example_gridspec_kw gs
              (KSlice (Slice (Some (-2)) None None)) (KInt (-1)) 2 3 3 3)
    as (ss & nrows & ncols & E & R).
  - exact E0.
  - cbn. lia.
  - exact I.
  - vm_compute in E0. injection E0 as <-. reflexivity.
  - vm_compute in E0. injection E0 as <-. reflexivity.
  - exists gs, ss, nrows, ncols. auto.
Defined.

(** * Further properties *)

(** ** Reading a gridspec back *)

Lemma evens_cons {A} (x : A) (l : list A) : evens (x :: l) = x :: odds l.
Proof. destruct l; reflexivity. Qed.

Lemma odds_cons {A} (x : A) (l : list A) : odds (x :: l) = evens l.
Proof. reflexivity. Qed.

Lemma evens_odds_interleave {A} (rs : list A) :
  forall ss : list A,
    length rs = S (length ss) ->
    evens (interleave rs ss) = rs /\ odds (interleave rs ss) = ss /\
    length (interleave rs ss) = (2 * length rs - 1)%nat.
Proof.
  induction rs as [|r rs IH]; intros ss Hl; [discriminate|].
  destruct ss as [|s ss].
  - destruct rs; [|discriminate]. repeat split.
  - cbn in Hl. injection Hl as Hl. destruct (IH ss Hl) as (E & O & L).
    cbn [interleave]. rewrite odds_cons, !evens_cons, odds_cons, E, O.
    repeat split. cbn [length]. rewrite L. lia.
Qed.

Section ReadBack.
Context {num : Type}.

(** X1 - The ratios and spaces of a gridspec.  A gridspec made from
    keywords whose four lists have the lengths of its grid holds one
    physical slot for every ratio and every space, [2*ncols-1] across and
    [2*nrows-1] down, and gives the lists back: active ratios from the even
    slots, spaces from the odd ones. *)
Theorem gridspec_reads_back (kw : gridspec_kw num) :
  len (gk_height_ratios kw) = gk_nrows kw ->
  len (gk_width_ratios kw) = gk_ncols kw ->
  len (gk_hspace kw) = gk_nrows kw - 1 ->
  len (gk_wspace kw) = gk_ncols kw - 1 ->
  exists gs,
    FlexibleGridSpec_init kw = Ok gs /\
    get_active_width_ratios gs = gk_width_ratios kw /\
    get_wspace gs = gk_wspace kw /\
    get_active_height_ratios gs = gk_height_ratios kw /\
    get_hspace gs = gk_hspace kw /\
    len (width_ratios gs) = _ncols gs /\ len (height_ratios gs) = _nrows gs /\
    get_geometry gs = (gk_nrows kw * 2 - 1, gk_ncols kw * 2 - 1) /\
    get_margins gs = (gk_left kw, gk_bottom kw, gk_right kw, gk_top kw).
Proof.
  intros Lh Lw Sh Sw. unfold FlexibleGridSpec_init.
  rewrite (spaces_as_ratios_Ok (num := num)) by assumption.
  eexists. split; [reflexivity|].
  unfold get_active_width_ratios, get_wspace, get_active_height_ratios,
    get_hspace, get_geometry, get_margins. cbn.
  destruct (evens_odds_interleave (gk_width_ratios kw) (gk_wspace kw))
    as (E1 & O1 & L1); [unfold len in *; lia|].
  destruct (evens_odds_interleave (gk_height_ratios kw) (gk_hspace kw))
    as (E2 & O2 & L2); [unfold len in *; lia|].
  rewrite E1, O1, E2, O2. unfold len in *. rewrite L1, L2.
  repeat split; lia.
Qed.
End ReadBack.

Lemma gridspec_reads_back_witness :
  exists gs,
    FlexibleGridSpec_init example_gridspec_kw = Ok gs /\
    get_active_width_ratios gs = [1; 1; 1; 1]%Q /\
    get_wspace gs = [0.2; 0.2; 0.2]%Q.
Proof.
  destruct (gridspec_reads_back example_gridspec_kw)
    as (gs & E & W & S & _); try reflexivity.
  exists gs. auto.
Defined.

Section Broadcast.
Context {num : Type}.

Lemma repeat_single_Ok (a a' : list num) (n : Z) :
  repeat_single a n = Ok a' ->
  (len a <> 1 /\ a' = a) \/
  (exists x, a = [x] /\ 0 <= n /\ a' = replicate (Z.to_nat n) x).
Proof.
  unfold repeat_single. destruct a as [|x [|y a]].
  - intros [= <-]. left. split; [discriminate|reflexivity].
  - destruct (Z.ltb_spec n 0); [discriminate|]. intros [= <-]. right. eauto.
  - intros [= <-]. left. split; [unfold len; cbn; lia|reflexivity].
Qed.

Lemma repeat_single_Raise (a : list num) (n : Z) (e : exn) :
  repeat_single a n = Raise e -> e = ValueError.
Proof.
  unfold repeat_single. destruct a as [|x [|y a]]; try discriminate.
  destruct (n <? 0); [congruence|discriminate].
Qed.

Lemma spaces_as_ratios_Raise (active : Z * Z) (kw : gridspec_kw num) (e : exn) :
  _spaces_as_ratios active kw = Raise e -> e = ValueError.
Proof.
  unfold _spaces_as_ratios. destruct active as [nrows ncols].
  destruct (repeat_single (gk_wspace kw) (ncols - 1)) eqn:E1;
    [|cbn; intros [= <-]; eauto using repeat_single_Raise].
  destruct (repeat_single (gk_hspace kw) (nrows - 1)) eqn:E2;
    [|cbn; intros [= <-]; eauto using repeat_single_Raise].
  destruct (repeat_single (gk_width_ratios kw) ncols) eqn:E3;
    [|cbn; intros [= <-]; eauto using repeat_single_Raise].
  destruct (repeat_single (gk_height_ratios kw) nrows) eqn:E4;
    [|cbn; intros [= <-]; eauto using repeat_single_Raise].
  cbn. repeat (destruct (negb _); [congruence|]). discriminate.
Qed.

Lemma spaces_as_ratios_lengths (active : Z * Z) (kw : gridspec_kw num)
    (r : list num * list num) :
  _spaces_as_ratios active kw = Ok r ->
  exists ws hs wr hr,
    repeat_single (gk_wspace kw) (active.2 - 1) = Ok ws /\
    repeat_single (gk_hspace kw) (active.1 - 1) = Ok hs /\
    repeat_single (gk_width_ratios kw) active.2 = Ok wr /\
    repeat_single (gk_height_ratios kw) active.1 = Ok hr /\
    len hr = active.1 /\ len wr = active.2 /\
    len ws = active.2 - 1 /\ len hs = active.1 - 1 /\
    r = (interleave wr ws, interleave hr hs).
Proof.
  unfold _spaces_as_ratios. destruct active as [nrows ncols]. cbn [fst snd].
  destruct (repeat_single (gk_wspace kw) _) as [ws|] eqn:E1; [|discriminate].
  destruct (repeat_single (gk_hspace kw) _) as [hs|] eqn:E2; [|discriminate].
  destruct (repeat_single (gk_width_ratios kw) _) as [wr|] eqn:E3; [|discriminate].
  destruct (repeat_single (gk_height_ratios kw) _) as [hr|] eqn:E4; [|discriminate].
  cbn.
  destruct (Z.eqb_spec (len hr) nrows) as [L4|]; [|discriminate].
  destruct (Z.eqb_spec (len wr) ncols) as [L3|]; [|discriminate].
  destruct (Z.eqb_spec (len ws) (ncols - 1)) as [L1|]; [|discriminate].
  destruct (Z.eqb_spec (len hs) (nrows - 1)) as [L2|]; [|discriminate].
  cbn. intros [= <-]. exists ws, hs, wr, hr. repeat split; auto.
Qed.

Lemma spaces_as_ratios_misfit (kw : gridspec_kw num) (nrows ncols : Z) :
  misfit kw nrows ncols ->
  _spaces_as_ratios (nrows, ncols) kw = Raise ValueError.
Proof.
  intros Hbad.
  destruct (_spaces_as_ratios (nrows, ncols) kw) as [r|e] eqn:E0;
    [|f_equal; eauto using spaces_as_ratios_Raise].
  exfalso. apply spaces_as_ratios_lengths in E0.
  destruct E0 as (ws & hs & wr & hr & E1 & E2 & E3 & E4 & L4 & L3 & L1 & L2 & _).
  cbn [fst snd] in *.
  apply repeat_single_Ok in E1, E2, E3, E4.
  destruct Hbad as [[A B]|[[A B]|[[A B]|[A B]]]].
  + destruct E3 as [[_ ->]|(x & Ex & _)]; [auto|rewrite Ex in A; auto].
  + destruct E4 as [[_ ->]|(x & Ex & _)]; [auto|rewrite Ex in A; auto].
  + destruct E1 as [[_ ->]|(x & Ex & _)]; [auto|rewrite Ex in A; auto].
  + destruct E2 as [[_ ->]|(x & Ex & _)]; [auto|rewrite Ex in A; auto].
Qed.

(** X2 - Lengths that do not fit.  Creating a gridspec raises
    [ValueError] whenever the list of width ratios (or of height ratios,
    of width spaces, of height spaces) has neither one element nor the
    length the grid asks for, and so does updating one, before anything
    of the gridspec is changed. *)
Theorem gridspec_lengths_checked (kw : gridspec_kw num) :
  (misfit kw (gk_nrows kw) (gk_ncols kw) ->
   FlexibleGridSpec_init kw = Raise ValueError) /\
  (forall gs, misfit kw (_nrows_active gs) (_ncols_active gs) ->
              update gs kw = Raise ValueError).
Proof.
  split.
  - intros Hbad. unfold FlexibleGridSpec_init.
    rewrite (spaces_as_ratios_misfit kw _ _ Hbad). reflexivity.
  - intros gs Hbad. unfold update, get_active_geometry.
    rewrite (spaces_as_ratios_misfit kw _ _ Hbad). reflexivity.
Qed.

(** X3 - One value for all slots.  Keywords that give a single width
    ratio, a single width space, a single height ratio and a single
    height space make a gridspec that repeats them: every column gets
    the ratio and every space between columns the space, and likewise
    for the rows. *)
Theorem single_value_is_repeated (kw : gridspec_kw num) (wr ws hr hs : num) :
  1 <= gk_ncols kw -> 1 <= gk_nrows kw ->
  gk_width_ratios kw = [wr] -> gk_wspace kw = [ws] ->
  gk_height_ratios kw = [hr] -> gk_hspace kw = [hs] ->
  exists gs,
    FlexibleGridSpec_init kw = Ok gs /\
    get_active_width_ratios gs = replicate (Z.to_nat (gk_ncols kw)) wr /\
    get_wspace gs = replicate (Z.to_nat (gk_ncols kw - 1)) ws /\
    get_active_height_ratios gs = replicate (Z.to_nat (gk_nrows kw)) hr /\
    get_hspace gs = replicate (Z.to_nat (gk_nrows kw - 1)) hs.
Proof.
  intros Hc Hr Ew Es Eh Ehs.
  unfold FlexibleGridSpec_init, _spaces_as_ratios. rewrite Ew, Es, Eh, Ehs.
  unfold repeat_single.
  destruct (Z.ltb_spec (gk_ncols kw - 1) 0); [lia|].
  destruct (Z.ltb_spec (gk_nrows kw - 1) 0); [lia|].
  destruct (Z.ltb_spec (gk_ncols kw) 0); [lia|].
  destruct (Z.ltb_spec (gk_nrows kw) 0); [lia|].
  cbn -[replicate Z.to_nat]. unfold len. rewrite !length_replicate.
  rewrite !Z2Nat.id by lia. rewrite !Z.eqb_refl. cbn -[replicate Z.to_nat].
  eexists. split; [reflexivity|].
  unfold get_active_width_ratios, get_wspace, get_active_height_ratios, get_hspace.
  cbn -[replicate Z.to_nat].
  destruct (evens_odds_interleave (replicate (Z.to_nat (gk_ncols kw)) wr)
              (replicate (Z.to_nat (gk_ncols kw - 1)) ws)) as (E1 & O1 & _);
    [rewrite !length_replicate; lia|].
  destruct (evens_odds_interleave (replicate (Z.to_nat (gk_nrows kw)) hr)
              (replicate (Z.to_nat (gk_nrows kw - 1)) hs)) as (E2 & O2 & _);
    [rewrite !length_replicate; lia|].
  auto.
Qed.
End Broadcast.

Lemma gridspec_lengths_checked_witness :
  FlexibleGridSpec_init
    {| gk_ncols := 3; gk_nrows := 1;
       gk_wspace := [0.2]%Q; gk_hspace := [];
       gk_width_ratios := [1; 2]%Q; gk_height_ratios := [1]%Q;
       gk_left := 0.1%Q; gk_bottom := 0.1%Q;
       gk_right := 0.9%Q; gk_top := 0.9%Q |}
  = Raise ValueError.
Proof.
  apply (proj1 (gridspec_lengths_checked _)).
  left. split; discriminate.
Defined.

Lemma single_value_is_repeated_witness :
  exists gs,
    FlexibleGridSpec_init
      {| gk_ncols := 3; gk_nrows := 2;
         gk_wspace := [0.2]%Q; gk_hspace := [0.3]%Q;
         gk_width_ratios := [1]%Q; gk_height_ratios := [2]%Q;
         gk_left := 0.1%Q; gk_bottom := 0.1%Q;
         gk_right := 0.9%Q; gk_top := 0.9%Q |}
    = Ok gs /\
    get_active_width_ratios gs = [1; 1; 1]%Q /\ get_wspace gs = [0.2; 0.2]%Q.
Proof.
  destruct (single_value_is_repeated
               {| gk_ncols := 3; gk_nrows := 2;
                  gk_wspace := [0.2]%Q; gk_hspace := [0.3]%Q;
                  gk_width_ratios := [1]%Q; gk_height_ratios := [2]%Q;
                  gk_left := 0.1%Q; gk_bottom := 0.1%Q;
                  gk_right := 0.9%Q; gk_top := 0.9%Q |}
               1%Q 0.2%Q 2%Q 0.3%Q)
    as (gs & E & W & S & _); try reflexivity; try (cbn; lia).
  exists gs. auto.
Defined.

(** ** What the solved sizes add up to *)

Lemma mem_nat_where_not_lt (mask : list bool) :
  forall k j : nat, (j < k)%nat -> mem_nat j (where_not k mask) = false.
Proof.
  induction mask as [|b mask IH]; intros k j Hj; [reflexivity|].
  cbn [where_not]. destruct b.
  - apply IH. lia.
  - unfold mem_nat. cbn [existsb]. fold (mem_nat j (where_not (S k) mask)).
    rewrite IH by lia. destruct (Nat.eqb_spec j k); [lia|reflexivity].
Qed.

Lemma filter_imap_ext {A B} (g1 g2 : B -> bool) (l : list A) :
  forall f : nat -> A -> B,
    (forall i x, g1 (f i x) = g2 (f i x)) ->
    List.filter g1 (imap f l) = List.filter g2 (imap f l).
Proof.
  induction l as [|a l IH]; intros f Hf; [reflexivity|].
  rewrite imap_cons. cbn [List.filter]. rewrite Hf.
  rewrite (IH (f ∘ S)) by (intros i x; apply Hf). reflexivity.
Qed.

Section Margins.
  Context {num : Type} `{Number num}.
  Variable rc : rc_settings num.
  Local Open Scope num_scope.

  (** The margins of the returned keywords are the physical margins over
      the figure size, which is not zero. *)
Lemma geometry_margins (kw kw' : subplots_kw num) (w h : num)
      (gk : gridspec_kw num) :
    _subplots_geometry rc kw = (kw', Ok (w, h, gk)) ->
    (w =# of_Z 0) = false /\ (h =# of_Z 0) = false /\
    gk_left gk = nquot (kw_left kw) w /\
    gk_bottom gk = nquot (kw_bottom kw) h /\
    gk_right gk = of_Z 1 -# nquot (kw_right kw) w /\
    gk_top gk = of_Z 1 -# nquot (kw_top kw) h.
  Proof.
    unfold _subplots_geometry.
    destruct (solve_extents rc kw) as [[m l]|e] eqn:Es; [|discriminate].
    destruct (axwidth_all l) as [aw|]; cbn; [|discriminate].
    destruct (nltb aw (of_Z 0)); [discriminate|].
    destruct (axheight_all l) as [ah|]; cbn; [|discriminate].
    destruct (nltb ah (of_Z 0)); [discriminate|].
    intros E. injection E as _ E.
    destruct (width l) as [w'|]; [|discriminate].
    destruct (height l) as [h'|]; [|discriminate].
    cbn in E. unfold ndiv in E.
    destruct (neqb w' (of_Z 0)) eqn:Nw; [discriminate|].
    destruct (neqb h' (of_Z 0)) eqn:Nh; [discriminate|].
    cbn in E. injection E as <- <- <-. cbn. auto 10.
  Qed.
End Margins.

Local Open Scope Q_scope.

(** The merged array sums to the new main entries plus the old panel
    entries. *)
Lemma sum_merge_split (mask : list bool) :
  forall (k : nat) (ratios new : list Q),
    length ratios = length mask ->
    length new = length (List.filter negb mask) ->
    sum (merge mask ratios new)
    == sum new
       + sum (map snd
                (List.filter
                   (fun p => negb (mem_nat (fst p) (where_not k mask)))
                   (imap (fun i x => ((k + i)%nat, x)) ratios))).
Proof.
  induction mask as [|b mask IH]; intros k ratios new Hr Hn.
  - destruct ratios; [|discriminate]. destruct new; [|discriminate].
    cbn. reflexivity.
  - destruct ratios as [|r ratios]; [discriminate|]. injection Hr as Hr.
    rewrite imap_cons. cbn [merge where_not List.filter fst].
    rewrite Nat.add_0_r.
    assert (Ei : imap ((fun i x => ((k + i)%nat, x)) ∘ S) ratios
                 = imap (fun i x => ((S k + i)%nat, x)) ratios).
    { apply imap_ext. intros i x _. cbn. f_equal. lia. }
    rewrite Ei. destruct b; cbn [negb List.filter] in *.
    + rewrite mem_nat_where_not_lt by lia. cbn [negb map snd].
      rewrite !sum_cons, (IH (S k) ratios new Hr Hn). ring.
    + destruct new as [|n new]; [discriminate|]. injection Hn as Hn.
      unfold mem_nat at 1. cbn [existsb]. rewrite Nat.eqb_refl. cbn [orb negb].
      rewrite !sum_cons, (IH (S k) ratios new Hr Hn).
      rewrite (filter_imap_ext
                 (fun p => negb (mem_nat (fst p) (k :: where_not (S k) mask)))
                 (fun p => negb (mem_nat (fst p) (where_not (S k) mask)))).
      * ring.
      * intros i x. cbn [fst]. unfold mem_nat. cbn [existsb].
        destruct (Nat.eqb_spec (S k + i) k); [lia|reflexivity].
Qed.

(** The array written back sums to the solved main entries plus the panel
    entries the caller supplied. *)
Lemma sum_write_back (panels : list panel) (ratios mains new : list Q)
    (idxs : list nat) :
  length ratios = length panels ->
  idxs = where_not 0 (map panel_bool panels) ->
  mapM (getitem_nat ratios) idxs = Ok mains ->
  length new = length mains ->
  sum (write_back ratios idxs new) == sum new + sum (ratios_panels ratios idxs).
Proof.
  intros Hl -> Hm Hn.
  pose proof (write_back_merge (map panel_bool panels) [] ratios new) as E.
  cbn [app length] in E. rewrite E by (rewrite length_map; exact Hl).
  apply mapM_length in Hm. rewrite where_not_length in Hm.
  rewrite (sum_merge_split _ 0%nat) by (rewrite ?length_map; congruence).
  reflexivity.
Qed.

Section SizesAddUp.
  Variable rc : rc_settings Q.

  (** On every path through lines 649-683 the figure width is the
      main-content width plus margins, spaces and panels. *)
Lemma width_adds_up (kw : subplots_kw Q) (m : main_slots) (l : locals)
      (w aw : Q) :
    solve_extents rc kw = Ok (m, l) ->
    width l = Some w -> axwidth_all l = Some aw ->
    w == aw + kw_left kw + kw_right kw + sum (kw_wspace kw)
         + sum (wratios_panels m).
  Proof.
    intros Es.
    apply solve_extents_Ok in Es as (_ & _ & r & l0 & _ & E0 & E).
    unfold dims_from_input, dims_auto in *.
    destruct (kw_width kw) as [w0|], (kw_height kw) as [h0|],
             (kw_axwidth kw) as [aw0|], (kw_axheight kw) as [ah0|];
      cbn in E0; inv_result E0; cbn in E; inv_result E;
      cbn; intros [= <-] [= <-]; unfold width_of; cbn; ring.
  Qed.

Lemma height_adds_up (kw : subplots_kw Q) (m : main_slots) (l : locals)
      (h ah : Q) :
    solve_extents rc kw = Ok (m, l) ->
    height l = Some h -> axheight_all l = Some ah ->
    h == ah + kw_top kw + kw_bottom kw + sum (kw_hspace kw)
         + sum (hratios_panels m).
  Proof.
    intros Es.
    apply solve_extents_Ok in Es as (_ & _ & r & l0 & _ & E0 & E).
    unfold dims_from_input, dims_auto in *.
    destruct (kw_width kw) as [w0|], (kw_height kw) as [h0|],
             (kw_axwidth kw) as [aw0|], (kw_axheight kw) as [ah0|];
      cbn in E0; inv_result E0; cbn in E; inv_result E;
      cbn; intros [= <-] [= <-]; unfold height_of; cbn; ring.
  Qed.

End SizesAddUp.

(** X4 - The figure size adds up.  For a request the solve can divide
    on whose solve returns a size that is not zero, the figure width is
    the sum of the width ratios returned (main and panel slots, in
    inches) plus the spaces between the columns plus the left and right
    margins, and the figure height likewise; the four margins of the
    returned gridspec keywords are the physical margins as fractions of
    that size. *)
Theorem figure_size_adds_up (rc : rc_settings Q) (kw kw' : subplots_kw Q)
    (w h : Q) (gk : gridspec_kw Q) :
  valid_request kw -> ~ w == 0 -> ~ h == 0 ->
  _subplots_geometry rc kw = (kw', Ok (w, h, gk)) ->
  w == sum (gk_width_ratios gk) + sum (gk_wspace gk) + kw_left kw + kw_right kw /\
  h == sum (gk_height_ratios gk) + sum (gk_hspace gk) + kw_top kw + kw_bottom kw /\
  gk_left gk == kw_left kw / w /\ gk_right gk == 1 - kw_right kw / w /\
  gk_bottom gk == kw_bottom kw / h /\ gk_top gk == 1 - kw_top kw / h.
Proof.
  intros (_ & _ & Zw & Zh & _) _ _ E.
  destruct (geometry_margins rc _ _ _ _ _ E) as (_ & _ & -> & -> & -> & ->).
  apply geometry_Ok in E
    as (m & l & aw & ah & Es & Eaw & Eah & _ & _ & Ew & Eh & Gw & Gh & -> & -> & _).
  pose proof (width_adds_up rc _ _ _ _ _ Es Ew Eaw) as Hw.
  pose proof (height_adds_up rc _ _ _ _ _ Es Eh Eah) as Hh.
  apply solve_extents_Ok in Es as (Hc & Hs & _).
  destruct (main_slots_entries kw m Hc Hs) as [Sw Sh].
  rewrite <- Sw in Zw. rewrite <- Sh in Zh.
  apply check_lengths_Ok in Hc as (Lh & Lw & _ & _ & Ph & Pw).
  apply split_slots_Ok in Hs as (Ih & Iw & Mh & Mw & Rh & Rw).
  rewrite Gw, Gh.
  rewrite (sum_write_back (kw_wpanels kw) (kw_wratios kw) (wratios_main m))
    by eauto using len_eq, rescale_length.
  rewrite (sum_write_back (kw_hpanels kw) (kw_hratios kw) (hratios_main m))
    by eauto using len_eq, rescale_length.
  rewrite !sum_rescale by assumption. rewrite <- Rw, <- Rh.
  repeat split; try reflexivity.
  - rewrite Hw. ring.
  - rewrite Hh. ring.
Qed.

Lemma figure_size_adds_up_witness :
  exists kw' w h gk,
    _subplots_geometry example_rc example_kw = (kw', Ok (w, h, gk)) /\
    w == sum (gk_width_ratios gk) + sum (gk_wspace gk)
         + kw_left example_kw + kw_right example_kw /\
    gk_left gk == kw_left example_kw / w.
Proof.
  destruct (_subplots_geometry example_rc example_kw)
    as [kw' [[[w h] gk]|e]] eqn:E; [|vm_compute in E; discriminate E].
  assert (Sz : ~ w == 0 /\ ~ h == 0).
  { pose proof E as E'. vm_compute in E'. injection E' as _ <- <- _.
    split; intros Z; vm_compute in Z; discriminate Z. }
  exists kw', w, h, gk. split; [reflexivity|].
  destruct (figure_size_adds_up example_rc example_kw kw' w h gk
              example_kw_valid (proj1 Sz) (proj2 Sz) E) as (Hw & _ & Hl & _).
  split; [exact Hw|exact Hl].
Defined.

Local Close Scope Q_scope.

(** ** The size of the reference axes *)

Lemma list_slice_map {A B} (f : A -> B) (l : list A) (a b : Z) :
  list_slice (map f l) a b = map f (list_slice l a b).
Proof.
  unfold list_slice. rewrite length_map.
  destruct (slice_indices _ _) as [[i j]|]; [|reflexivity].
  rewrite skipn_map, firstn_map. reflexivity.
Qed.

Section ReferenceFields.
  Context {num : Type} `{Number num}.
  Variable rc : rc_settings num.
  Local Open Scope num_scope.

  (** What lines 636-647 have put into the reference properties. *)
Lemma reference_of_fields (kw : subplots_kw num) (m : main_slots)
      (r : reference) :
    reference_of kw m = Ok r ->
    let '(x1, x2) := kw_xref kw in
    let '(y1, y2) := kw_yref kw in
    dx r = (x2 - x1 + 1)%Z /\ dy r = (y2 - y1 + 1)%Z /\
    rwspace r = sum (list_slice (wspace_main m) x1 x2) /\
    rhspace r = sum (list_slice (hspace_main m) y1 y2) /\
    rwratio r = nquot (of_Z (len (wratios_main m))
                         *# sum (list_slice (wratios_main m) x1 (x2 + 1)))
                      (of_Z (x2 - x1 + 1) *# sum (wratios_main m)) /\
    rhratio r = nquot (of_Z (len (hratios_main m))
                         *# sum (list_slice (hratios_main m) y1 (y2 + 1)))
                      (of_Z (y2 - y1 + 1) *# sum (hratios_main m)) /\
    (rwratio r =# of_Z 0) = false /\ (rhratio r =# of_Z 0) = false /\
    (forall asp, kw_aspect kw = Scalar asp -> aspect r = asp).
  Proof.
    unfold reference_of. destruct (kw_xref kw) as [x1 x2], (kw_yref kw) as [y1 y2].
    intros E.
    apply bind_Ok in E as (rw & Ew & E). apply bind_Ok in E as (rh & Eh & E).
    destruct (rw =# of_Z 0) eqn:Zw; [discriminate|].
    destruct (rh =# of_Z 0) eqn:Zh; [discriminate|].
    cbn [orb] in E. apply bind_Ok in E as (a & Ea & E). injection E as <-. cbn.
    apply ndiv_Ok in Ew as [_ ->]. apply ndiv_Ok in Eh as [_ ->].
    repeat split; auto.
    intros asp Easp. rewrite Easp in Ea. congruence.
  Qed.

  (** With an axes width and neither a figure size nor an axes height,
      lines 661-664 and 676-679 solve the width from the axes width and
      the height from the axes width over the aspect. *)
Lemma dims_of_axwidth (kw : subplots_kw num) (m : main_slots) (r : reference)
      (l0 l : locals) :
    kw_width kw = None -> kw_height kw = None -> kw_axheight kw = None ->
    dims_from_input rc kw m r = Ok l0 -> dims_auto kw m r l0 = Ok l ->
    let a := default (rc_subplots_axwidth rc) (kw_axwidth kw) in
    exists aw axh ah,
      axwidth_all l = Some aw /\ axheight_all l = Some ah /\
      axwidth_all_of m r a = Ok aw /\ a /# aspect r = Ok axh /\
      axheight_all_of m r axh = Ok ah.
  Proof.
    intros Ew Eh Eah. unfold dims_from_input. rewrite Ew, Eh, Eah.
    destruct (kw_axwidth kw) as [a|]; cbn;
      (destruct (axwidth_all_of m r _) as [aw|] eqn:Ea; [|discriminate]);
      cbn; intros [= <-]; unfold dims_auto; cbn;
      (destruct (_ /# aspect r) as [axh|] eqn:Ex; [|discriminate]); cbn;
      (destruct (axheight_all_of m r axh) as [ah|] eqn:Ey; [|discriminate]);
      cbn; intros [= <-]; cbn; eauto 10.
  Qed.
End ReferenceFields.

Local Open Scope Q_scope.

Lemma mul_nonzero_l (x y : Q) : ~ x * y == 0 -> ~ x == 0.
Proof. intros H E. apply H. rewrite E. ring. Qed.

Lemma div_nonzero (x y : Q) : ~ x / y == 0 -> ~ x == 0.
Proof. intros H E. apply H. rewrite E. unfold Qdiv. ring. Qed.

(** The main slots [x1 .. x2] of the rescaled ratios and the spaces
    between them add up to the axes width the extent was solved from. *)
Lemma reference_extent (n d s S a rws aw : Q) :
  ~ d * S == 0 -> ~ n * s / (d * S) == 0 ->
  aw = n * (a - rws) / (d * (n * s / (d * S))) ->
  aw * s / S + rws == a.
Proof.
  intros HdS Hrw ->.
  pose proof (mul_nonzero_l _ _ HdS). pose proof (mul_nonzero_r _ _ HdS).
  apply div_nonzero in Hrw.
  pose proof (mul_nonzero_l _ _ Hrw). pose proof (mul_nonzero_r _ _ Hrw).
  field. auto.
Qed.

(** X5 - The reference axes gets the size that was asked for.  For a
    request the solve can divide on that gives only an axes width (or
    nothing, and the configured default width is used), a solve that
    returns a size that is not zero has made the main columns of the
    reference axes, with the main spaces between them, exactly that wide,
    and its main rows, with the spaces between them, as high as the width
    over the aspect ratio. *)
Theorem reference_axes_size (rc : rc_settings Q) (kw kw' : subplots_kw Q)
    (w h asp : Q) (gk : gridspec_kw Q) :
  valid_request kw -> ~ w == 0 -> ~ h == 0 ->
  kw_width kw = None -> kw_height kw = None -> kw_axheight kw = None ->
  kw_aspect kw = Scalar asp ->
  _subplots_geometry rc kw = (kw', Ok (w, h, gk)) ->
  let a := default (rc_subplots_axwidth rc) (kw_axwidth kw) in
  let '(x1, x2) := kw_xref kw in
  let '(y1, y2) := kw_yref kw in
  exists m,
    split_slots kw = Ok m /\
    sum (list_slice (main_entries (kw_wpanels kw) (gk_width_ratios gk)) x1 (x2 + 1))
    + sum (list_slice (wspace_main m) x1 x2) == a /\
    sum (list_slice (main_entries (kw_hpanels kw) (gk_height_ratios gk)) y1 (y2 + 1))
    + sum (list_slice (hspace_main m) y1 y2) == a / asp.
Proof.
  intros _ _ _ Ew Eh Eah Easp E a.
  apply geometry_Ok in E
    as (m & l & aw & ah & Es & Eaw & Eahl & _ & _ & _ & _ & Gw & Gh & _).
  apply solve_extents_Ok in Es as (Hc & Hs & r & l0 & Hr & E0 & E1).
  destruct (dims_of_axwidth rc kw m r l0 l Ew Eh Eah E0 E1)
    as (aw' & axh & ah' & Eaw' & Eah' & Haw & Haxh & Hah).
  fold a in Haw, Haxh.
  rewrite Eaw in Eaw'. injection Eaw' as <-.
  rewrite Eahl in Eah'. injection Eah' as <-.
  pose proof (reference_of_Ok _ _ _ Hr) as [Zw Zh].
  apply neqb_Q_false in Zw, Zh.
  apply reference_of_fields in Hr.
  destruct (kw_xref kw) as [x1 x2], (kw_yref kw) as [y1 y2].
  destruct Hr as (Dx & Dy & Rws & Rhs & Rw & Rh & Nw & Nh & Asp).
  apply neqb_Q_false in Nw, Nh. specialize (Asp asp Easp).
  apply check_lengths_Ok in Hc as (Lh & Lw & _ & _ & Ph & Pw).
  pose proof Hs as Hs'.
  apply split_slots_Ok in Hs' as (Ih & Iw & Mh & Mw & _).
  destruct (write_back_main (kw_wpanels kw) (kw_wratios kw) (wratios_main m)
              (rescale aw (wratios_main m)) (idxs_ratios_w m))
    as (Mw' & _); eauto using len_eq, rescale_length.
  destruct (write_back_main (kw_hpanels kw) (kw_hratios kw) (hratios_main m)
              (rescale ah (hratios_main m)) (idxs_ratios_h m))
    as (Mh' & _); eauto using len_eq, rescale_length.
  exists m. split; [exact Hs|].
  rewrite Gw, Gh, Mw', Mh'. unfold rescale. rewrite !list_slice_map, !sum_map_scale.
  unfold axwidth_all_of, axheight_all_of in Haw, Hah.
  apply ndiv_Ok in Haw as [_ Haw], Hah as [_ Hah], Haxh as [Na Haxh].
  apply neqb_Q_false in Na.
  rewrite Rw, Dx in Haw. rewrite Rh, Dy in Hah.
  rewrite Rw in Nw. rewrite Rh in Nh. rewrite Dx in Zw. rewrite Dy in Zh.
  rewrite <- Rws, <- Rhs. split.
  - eapply reference_extent; [exact Zw|exact Nw|exact Haw].
  - rewrite (reference_extent _ _ _ _ _ _ _ Zh Nh Hah).
    rewrite Haxh, Asp. reflexivity.
Qed.

Lemma spanning_kw_valid : valid_request spanning_kw.
Proof.
  unfold valid_request. cbn.
  split; [lia|]. split; [lia|]. repeat split; intros E; vm_compute in E;
    discriminate E.
Qed.

Lemma reference_axes_size_witness :
  exists kw' w h gk m,
    _subplots_geometry example_rc spanning_kw = (kw', Ok (w, h, gk)) /\
    split_slots spanning_kw = Ok m /\
    wspace_main m = [0.2] /\
    sum (list_slice (main_entries (kw_wpanels spanning_kw) (gk_width_ratios gk)) 0 2)
    + sum (list_slice (wspace_main m) 0 1) == 2.
Proof.
  destruct (_subplots_geometry example_rc spanning_kw)
    as [kw' [[[w h] gk]|e]] eqn:E; [|vm_compute in E; discriminate E].
  assert (Sz : ~ w == 0 /\ ~ h == 0).
  { pose proof E as E'. vm_compute in E'. injection E' as _ <- <- _.
    split; intros Z; vm_compute in Z; discriminate Z. }
  destruct (reference_axes_size example_rc spanning_kw kw' w h 1 gk
              spanning_kw_valid (proj1 Sz) (proj2 Sz)
              eq_refl eq_refl eq_refl eq_refl E) as (m & Hs & Hw & _).
  exists kw', w, h, gk, m. split; [reflexivity|]. split; [exact Hs|].
  split; [|exact Hw].
  vm_compute in Hs. injection Hs as <-. reflexivity.
Defined.

Local Close Scope Q_scope.

(** ** Indexing a gridspec with one key, and reading a placement back *)

Section OneKey.
  Context {num : Type}.

Lemma normalize_int (k size : Z) :
    0 <= k < size -> _normalize (KInt k) size = Ok (k, k).
  Proof.
    intros Hk. cbn. destruct (Z.ltb_spec k 0); [lia|].
    destruct (Z.leb_spec 0 k); [|lia]. destruct (Z.ltb_spec k size); [|lia].
    reflexivity.
  Qed.

Lemma ravel_inside (r1 r2 c1 c2 nrows ncols : Z) :
    0 <= r1 < nrows -> 0 <= r2 < nrows -> 0 <= c1 < ncols -> 0 <= c2 < ncols ->
    ravel_multi_index (r1, r2) (c1, c2) (nrows, ncols)
    = Ok (r1 * ncols + c1, r2 * ncols + c2).
  Proof.
    intros. unfold ravel_multi_index. Zcases; first [reflexivity | lia].
  Qed.

(** X6 - One key instead of two.  On a gridspec as [__init__] makes it,
    a single integer key that lies within the first row addresses the cell
    of row 0 and that column, and on a gridspec of one column a single key
    addresses the cell of that row.  The first cell of the second row of a
    wider gridspec is not reached that way: the key [ncols] gives a
    placement on a row and a column of spaces, which reads back as the
    rows and columns of the cell (0, 0). *)
Theorem single_key_indexing (gs : FlexibleGridSpec num) (k : Z) :
  doubled gs -> 1 <= _nrows_active gs -> 1 <= _ncols_active gs ->
  (0 <= k < _ncols_active gs ->
   __getitem__ gs (Single (KInt k)) = __getitem__ gs (Tuple [KInt 0; KInt k]) /\
   is_ok (__getitem__ gs (Single (KInt k))) = true) /\
  (_ncols_active gs = 1 -> 0 <= k < _nrows_active gs ->
   __getitem__ gs (Single (KInt k)) = __getitem__ gs (Tuple [KInt k; KInt 0]) /\
   is_ok (__getitem__ gs (Single (KInt k))) = true) /\
  (2 <= _nrows_active gs -> 2 <= _ncols_active gs ->
   exists ss,
     __getitem__ gs (Single (KInt (_ncols_active gs))) = Ok ss /\
     num1 ss = 1 * _ncols gs + 1 /\
     get_active_rows_columns ss
     = Ok (_nrows_active gs - 1, _ncols_active gs - 1, 0, 0, 0, 0)).
Proof.
  intros [Hr Hc] HR HC.
  assert (HRC : _ncols_active gs <= _nrows_active gs * _ncols_active gs).
  { replace (_nrows_active gs * _ncols_active gs)
      with (_ncols_active gs + (_nrows_active gs - 1) * _ncols_active gs) by ring.
    pose proof (Z.mul_nonneg_nonneg (_nrows_active gs - 1) (_ncols_active gs)).
    lia. }
  split; [|split].
  - intros Hk. unfold __getitem__, get_geometry, get_active_geometry.
    cbn -[_normalize ravel_multi_index].
    rewrite (normalize_int k (_nrows_active gs * _ncols_active gs)) by lia.
    rewrite (normalize_int 0 (_nrows_active gs)) by lia.
    rewrite (normalize_int k (_ncols_active gs)) by lia.
    cbn -[ravel_multi_index]. rewrite ravel_inside by lia.
    cbn -[Z.mul Z.add]. rewrite Z.mul_0_l, Z.add_0_l. split; reflexivity.
  - intros C1 Hk. unfold __getitem__, get_geometry, get_active_geometry.
    cbn -[_normalize ravel_multi_index].
    rewrite (normalize_int k (_nrows_active gs * _ncols_active gs))
      by (rewrite C1; lia).
    rewrite (normalize_int k (_nrows_active gs)) by lia.
    rewrite (normalize_int 0 (_ncols_active gs)) by lia.
    cbn -[ravel_multi_index]. rewrite ravel_inside by lia.
    cbn -[Z.mul Z.add].
    replace (k * _ncols gs + 0) with k by (rewrite Hc, C1; lia).
    split; reflexivity.
  - intros R2 C2. unfold __getitem__, get_geometry, get_active_geometry.
    cbn -[_normalize].
    rewrite (normalize_int (_ncols_active gs) (_nrows_active gs * _ncols_active gs)).
    2:{ split; [lia|].
        replace (_nrows_active gs * _ncols_active gs)
          with (2 * _ncols_active gs + (_nrows_active gs - 2) * _ncols_active gs)
          by ring.
        pose proof (Z.mul_nonneg_nonneg (_nrows_active gs - 2) (_ncols_active gs)).
        lia. }
    cbn. eexists. split; [reflexivity|]. cbn.
    assert (P : _positem (_ncols_active gs) = 1 * _ncols gs + 1).
    { unfold _positem. destruct (Z.ltb_spec (_ncols_active gs) 0); lia. }
    split; [exact P|].
    unfold get_active_rows_columns. cbn. rewrite P.
    destruct (Z.eqb_spec (_ncols gs) 0); [lia|].
    rewrite (Z.add_comm (1 * _ncols gs) 1), Z.div_add, Z.mod_add by lia.
    rewrite (Z.div_small 1 (_ncols gs)), (Z.mod_small 1 (_ncols gs)) by lia.
    rewrite Hr, Hc.
    replace (_nrows_active gs * 2 - 1) with (1 + (_nrows_active gs - 1) * 2) by lia.
    replace (_ncols_active gs * 2 - 1) with (1 + (_ncols_active gs - 1) * 2) by lia.
    rewrite !Z.div_add by lia. reflexivity.
Qed.

(** X7 - What a placement reports.  On a gridspec of [nrows] x [ncols]
    active slots, the placement of the cell [(r, c)] reads back its own
    row and column, but reports a grid of [nrows - 1] x [ncols - 1], and
    the flat numbers of [get_active_geometry] are counted over [ncols - 1]
    columns. *)
Theorem placement_reports (kw : gridspec_kw num) (gs : FlexibleGridSpec num)
    (r c : Z) :
  FlexibleGridSpec_init kw = Ok gs ->
  0 <= r < gk_nrows kw -> 0 <= c < gk_ncols kw ->
  exists ss,
    __getitem__ gs (Tuple [KInt r; KInt c]) = Ok ss /\
    get_active_rows_columns ss
    = Ok (gk_nrows kw - 1, gk_ncols kw - 1, r, r, c, c) /\
    ss_get_active_geometry ss
    = Ok (gk_nrows kw - 1, gk_ncols kw - 1,
          r * (gk_ncols kw - 1) + c, r * (gk_ncols kw - 1) + c).
Proof.
  intros Hi Hr Hc.
  apply init_doubled in Hi as (Hd & Er & Ec).
  destruct (getitem_roundtrip gs (KInt r) (KInt c) r r c c) as (ss & E & _ & R);
    try lia; try exact Hd.
  - apply normalize_int. lia.
  - apply normalize_int. lia.
  - exists ss. split; [exact E|].
    destruct Hd as [Dr Dc].
    assert (Nr : _nrows gs / 2 = gk_nrows kw - 1).
    { rewrite Dr, Er.
      replace (gk_nrows kw * 2 - 1) with (1 + (gk_nrows kw - 1) * 2) by lia.
      rewrite Z.div_add by lia. reflexivity. }
    assert (Nc : _ncols gs / 2 = gk_ncols kw - 1).
    { rewrite Dc, Ec.
      replace (gk_ncols kw * 2 - 1) with (1 + (gk_ncols kw - 1) * 2) by lia.
      rewrite Z.div_add by lia. reflexivity. }
    rewrite Nr, Nc in R. split; [exact R|].
    unfold ss_get_active_geometry. rewrite R. reflexivity.
Qed.
End OneKey.

Lemma single_key_indexing_witness :
  exists gs,
    FlexibleGridSpec_init example_gridspec_kw = Ok gs /\
    __getitem__ gs (Single (KInt 2)) = __getitem__ gs (Tuple [KInt 0; KInt 2]) /\
    exists ss,
      __getitem__ gs (Single (KInt 4)) = Ok ss /\
      get_active_rows_columns ss = Ok (3, 3, 0, 0, 0, 0).
Proof.
  destruct (FlexibleGridSpec_init example_gridspec_kw) as [gs|e] eqn:E;
    [|vm_compute in E; discriminate E].
  exists gs. split; [reflexivity|].
  destruct (init_doubled example_gridspec_kw gs E) as (D & R & C).
  cbn in R, C.
  destruct (single_key_indexing gs 2 D) as (A & _ & _); [lia|lia|].
  destruct (single_key_indexing gs 4 D) as (_ & _ & B); [lia|lia|].
  split.
  - apply A. lia.
  - rewrite R, C in B. destruct B as (ss & G & _ & Rd); [lia|lia|].
    exists ss. auto.
Defined.

Lemma placement_reports_witness :
  exists gs ss,
    FlexibleGridSpec_init example_gridspec_kw = Ok gs /\
    __getitem__ gs (Tuple [KInt 1; KInt 2]) = Ok ss /\
    get_active_rows_columns ss = Ok (3, 3, 1, 1, 2, 2) /\
    ss_get_active_geometry ss = Ok (3, 3, 5, 5).
Proof.
  destruct (FlexibleGridSpec_init example_gridspec_kw) as [gs|e] eqn:E;
    [|vm_compute in E; discriminate E].
  destruct (placement_reports example_gridspec_kw gs 1 2 E) as (ss & G & R & A);
    [cbn; lia | cbn; lia |].
  exists gs, ss. auto.
Defined.

(** ** What an insertion leaves in the arrays and in the gridspec *)

Lemma list_insert_Z_lookup {A} (l : list A) (i : Z) (x : A) :
  0 <= i <= len l -> list_insert_Z l i x !! Z.to_nat i = Some x.
Proof.
  intros Hi. rewrite list_insert_Z_inside by exact Hi. unfold len in Hi.
  rewrite lookup_app_r by (rewrite length_take; lia).
  rewrite length_take, Nat.min_l by lia. rewrite Nat.sub_diag. reflexivity.
Qed.

Lemma side_letter_panel (side : string) (s : panel) :
  side_letter side = Ok s -> s <> main_ /\ s <> tag_f.
Proof.
  unfold side_letter. destruct side as [|c side]; [discriminate|].
  repeat (destruct (Ascii.eqb c _); [intros [= <-]; split; discriminate|]).
  discriminate.
Qed.

Section ReadsBack.
  Context {num : Type}.

  (** A gridspec made from keywords of the right lengths gives the ratios
      and the spaces back. *)
Lemma init_reads_back (gk : gridspec_kw num) (gs : FlexibleGridSpec num) :
    len (gk_height_ratios gk) = gk_nrows gk ->
    len (gk_width_ratios gk) = gk_ncols gk ->
    len (gk_hspace gk) = gk_nrows gk - 1 ->
    len (gk_wspace gk) = gk_ncols gk - 1 ->
    FlexibleGridSpec_init gk = Ok gs ->
    get_active_width_ratios gs = gk_width_ratios gk /\
    get_wspace gs = gk_wspace gk /\
    get_active_height_ratios gs = gk_height_ratios gk /\
    get_hspace gs = gk_hspace gk.
  Proof.
    intros Lh Lw Sh Sw. unfold FlexibleGridSpec_init.
    rewrite (spaces_as_ratios_Ok (num := num)) by assumption.
    cbn. intros [= <-].
    unfold get_active_width_ratios, get_wspace, get_active_height_ratios,
      get_hspace. cbn.
    destruct (evens_odds_interleave (gk_width_ratios gk) (gk_wspace gk))
      as (E1 & O1 & _); [unfold len in *; lia|].
    destruct (evens_odds_interleave (gk_height_ratios gk) (gk_hspace gk))
      as (E2 & O2 & _); [unfold len in *; lia|].
    auto.
  Qed.
End ReadsBack.

Section NewSlot.
  Context {num : Type} `{Number num}.
  Variable rc : rc_settings num.

  (** Lines 1301-1310 for a new slot, when the call returns. *)
Lemma update_figure_new (fig fig' : Figure num) (s : panel) (idx : Z)
      (gs : FlexibleGridSpec num) :
    update_figure rc fig s idx false = (fig', Ok gs) ->
    exists w h gk,
      _subplots_geometry rc (_subplots_kw fig) = (_subplots_kw fig', Ok (w, h, gk)) /\
      FlexibleGridSpec_init gk = Ok gs /\
      _gridspec_main fig' = gs /\ size_inches fig' = (w, h).
  Proof.
    unfold update_figure.
    destruct (_subplots_geometry rc (_subplots_kw fig)) as [kw' solved] eqn:Eg.
    destruct solved as [[[w h] gk]|e]; [|cbn; intros E; inversion E].
    cbn -[FlexibleGridSpec_init reassign_all].
    destruct (FlexibleGridSpec_init gk) as [gs0|e] eqn:Ei; [|intros E; inversion E].
    destruct (reassign_all gs0 s idx (fig_axes fig)) as [axs [[]|e]];
      intros E; inversion E; subst.
    exists w, h, gk. cbn. auto.
  Qed.

  (** A solve that returns leaves the panel slots of both ratio arrays as
      they were, and hands the arrays on. *)
Lemma geometry_panel_slots (kw kw' : subplots_kw num) (w h : num)
      (gk : gridspec_kw num) :
    _subplots_geometry rc kw = (kw', Ok (w, h, gk)) ->
    len (kw_wratios kw) = len (kw_wpanels kw) /\
    len (kw_hratios kw) = len (kw_hpanels kw) /\
    (forall i p, kw_wpanels kw !! i = Some p -> p <> main_ ->
                 gk_width_ratios gk !! i = kw_wratios kw !! i) /\
    (forall i p, kw_hpanels kw !! i = Some p -> p <> main_ ->
                 gk_height_ratios gk !! i = kw_hratios kw !! i) /\
    kw_wratios kw' = gk_width_ratios gk /\ kw_hratios kw' = gk_height_ratios gk /\
    gk_wspace gk = kw_wspace kw /\ gk_hspace gk = kw_hspace kw.
  Proof.
    intros E.
    apply geometry_Ok in E
      as (m & l & aw & ah & Es & _ & _ & _ & _ & _ & _ & Ew & Eh & Sw & Sh & _ & _ & ->).
    apply solve_extents_Ok in Es as (Hc & Hs & _).
    apply check_lengths_Ok in Hc as (Lh & Lw & _ & _ & Ph & Pw).
    apply split_slots_Ok in Hs as (Ih & Iw & Mh & Mw & _).
    destruct (write_back_main (kw_wpanels kw) (kw_wratios kw) (wratios_main m)
                (rescale aw (wratios_main m)) (idxs_ratios_w m))
      as (_ & Pw' & _); eauto using len_eq, rescale_length.
    destruct (write_back_main (kw_hpanels kw) (kw_hratios kw) (hratios_main m)
                (rescale ah (hratios_main m)) (idxs_ratios_h m))
      as (_ & Ph' & _); eauto using len_eq, rescale_length.
    rewrite Ew, Eh. cbn. repeat split; auto; congruence.
  Qed.
End NewSlot.

(** X8 - A new panel slot keeps what it was given.  When a call makes
    room for a panel and returns, the toggle, the ratio and the space it
    was given sit at the slot and at the gap it addressed (one further for
    a left or top panel), the count of columns or rows has grown by one,
    and the new gridspec reads the same ratio and the same space there:
    the solve has not rescaled the panel. *)
Theorem inserted_panel_keeps_width {num : Type} `{Number num}
    (rc : rc_settings num) (fig fig' : Figure num) (side : string) (idx : Z)
    (ratio space : num) (space_orig : option num) (figure : bool) (s : panel)
    (gs : FlexibleGridSpec num) :
  let lr := in_lr s in
  let target := idx + int_of_bool (in_tl s) in
  let gap := target - int_of_bool (in_br s) in
  let entry := if figure then tag_f else s in
  side_letter side = Ok s ->
  slot_exists (panels (load_arrays lr fig)) idx entry = Ok false ->
  0 <= target <= len (panels (load_arrays lr fig)) ->
  0 <= gap <= len (spaces (load_arrays lr fig)) ->
  _insert_row_column rc fig side idx ratio space space_orig figure
  = (fig', Ok gs) ->
  getitem_Z (panels (load_arrays lr fig')) target = Ok entry /\
  getitem_Z (ratios (load_arrays lr fig')) target = Ok ratio /\
  getitem_Z (spaces (load_arrays lr fig')) gap = Ok space /\
  (if lr then kw_ncols (_subplots_kw fig') = kw_ncols (_subplots_kw fig) + 1
   else kw_nrows (_subplots_kw fig') = kw_nrows (_subplots_kw fig) + 1) /\
  _gridspec_main fig' = gs /\
  getitem_Z (if lr then get_active_width_ratios gs
             else get_active_height_ratios gs) target = Ok ratio /\
  getitem_Z (if lr then get_wspace gs else get_hspace gs) gap = Ok space.
Proof.
  intros lr target gap entry Es Ex Ht Hg E.
  assert (Hentry : entry <> main_).
  { subst entry. destruct figure; [discriminate|].
    apply side_letter_panel in Es. tauto. }
  unfold _insert_row_column in E. rewrite Es in E. fold lr entry in E.
  rewrite Ex in E. fold target in E.
  replace (idx - int_of_bool (in_br s) + int_of_bool (in_tl s)) with gap in E
    by (unfold gap, target; lia).
  set (a1 := insert_slot (load_arrays lr fig) target gap entry ratio space
               space_orig) in E.
  set (fig1 := store_arrays lr 1 a1 fig) in E.
  pose proof (update_figure_arrays rc _ _ _ _ _ _ lr E) as (P & Q & _).
  subst fig1. rewrite load_store in P, Q.
  apply update_figure_new in E as (w & h & gk & Eg & Ei & Em & _).
  destruct (geometry_gridspec_kw rc _ _ _ _ _ Eg) as (Er & Ec & Lh & Lw & Sh & Sw).
  destruct (geometry_keeps rc _ _ _ Eg) as (Kr & Kc & _).
  destruct (geometry_panel_slots rc _ _ _ _ _ Eg)
    as (Rw & Rh & Pw & Ph & Kw & Kh & Gw & Gh).
  destruct (init_reads_back gk gs) as (Aw & As & Ah & Ahs); try congruence.
  assert (Hp : panels a1 !! Z.to_nat target = Some entry)
    by (apply list_insert_Z_lookup; exact Ht).
  assert (Hs : spaces a1 !! Z.to_nat gap = Some space)
    by (apply list_insert_Z_lookup; exact Hg).
  assert (Hl : len (ratios (load_arrays lr fig)) = len (panels (load_arrays lr fig))).
  { unfold len in *. destruct lr; cbn in Rw, Rh |- *;
      rewrite !list_insert_Z_length in *; lia. }
  assert (Hr : ratios a1 !! Z.to_nat target = Some ratio)
    by (apply list_insert_Z_lookup; rewrite Hl; exact Ht).
  split; [rewrite P; apply getitem_Z_inside; [lia|exact Hp]|].
  split; [|split; [rewrite Q; apply getitem_Z_inside; [lia|exact Hs]|]].
  - apply getitem_Z_inside; [lia|].
    destruct lr; cbn in Pw, Ph, Hp, Hr |- *.
    + rewrite Kw. rewrite (Pw _ _ Hp Hentry). exact Hr.
    + rewrite Kh. rewrite (Ph _ _ Hp Hentry). exact Hr.
  - split; [destruct lr; cbn in Kr, Kc |- *; lia|].
    split; [exact Em|].
    split; apply getitem_Z_inside; try lia.
    + destruct lr; cbn in Pw, Ph, Hp, Hr |- *.
      * rewrite Aw, (Pw _ _ Hp Hentry). exact Hr.
      * rewrite Ah, (Ph _ _ Hp Hentry). exact Hr.
    + destruct lr; cbn in Gw, Gh, Hs |- *.
      * rewrite As, Gw. exact Hs.
      * rewrite Ahs, Gh. exact Hs.
Qed.

Lemma inserted_panel_keeps_width_witness :
  exists fig0 fig' gs,
    example_figure [((0, 0), (0, 0)); ((1, 1), (0, 0))] = Ok fig0 /\
    _insert_row_column example_rc fig0 "right" 2 0.5%Q 0.1%Q None false
    = (fig', Ok gs) /\
    getitem_Z (get_active_width_ratios gs) 2 = Ok 0.5%Q /\
    getitem_Z (get_wspace gs) 1 = Ok 0.1%Q.
Proof.
  destruct (example_figure [((0, 0), (0, 0)); ((1, 1), (0, 0))])
    as [fig0|e] eqn:E0; [|vm_compute in E0; discriminate E0].
  destruct (_insert_row_column example_rc fig0 "right" 2 0.5%Q 0.1%Q None false)
    as [fig' [gs|e]] eqn:E1.
  - exists fig0, fig', gs. split; [reflexivity|]. split; [exact E1|].
    pose proof E0 as E0'. vm_compute in E0'. injection E0' as E0'.
    destruct (inserted_panel_keeps_width example_rc fig0 fig' "right" 2
                0.5%Q 0.1%Q None false tag_r gs eq_refl)
      as (_ & _ & _ & _ & _ & A & B).
    + rewrite <- E0'. reflexivity.
    + rewrite <- E0'. vm_compute. split; discriminate.
    + rewrite <- E0'. vm_compute. split; discriminate.
    + exact E1.
    + split; [exact A|exact B].
  - exfalso. pose proof E0 as E0'. vm_compute in E0'. injection E0' as E0'.
    rewrite <- E0' in E1. vm_compute in E1. discriminate E1.
Defined.

(** ** What a tight layout pass keeps *)

Section UpdateReadsBack.
  Context {num : Type}.

  (** An update with keywords of the right lengths gives the ratios and
      the spaces back. *)
Lemma update_reads_back (gs gs' : FlexibleGridSpec num) (gk : gridspec_kw num) :
    len (gk_height_ratios gk) = _nrows_active gs ->
    len (gk_width_ratios gk) = _ncols_active gs ->
    len (gk_hspace gk) = _nrows_active gs - 1 ->
    len (gk_wspace gk) = _ncols_active gs - 1 ->
    update gs gk = Ok gs' ->
    get_active_width_ratios gs' = gk_width_ratios gk /\
    get_wspace gs' = gk_wspace gk /\
    get_active_height_ratios gs' = gk_height_ratios gk /\
    get_hspace gs' = gk_hspace gk /\
    get_margins gs' = (gk_left gk, gk_bottom gk, gk_right gk, gk_top gk).
  Proof.
    intros Lh Lw Sh Sw. unfold update, get_active_geometry.
    rewrite (spaces_as_ratios_Ok (num := num)) by assumption.
    cbn. intros [= <-].
    unfold get_active_width_ratios, get_wspace, get_active_height_ratios,
      get_hspace, get_margins. cbn.
    destruct (evens_odds_interleave (gk_width_ratios gk) (gk_wspace gk))
      as (E1 & O1 & _); [unfold len in *; lia|].
    destruct (evens_odds_interleave (gk_height_ratios gk) (gk_hspace gk))
      as (E2 & O2 & _); [unfold len in *; lia|].
    auto 10.
  Qed.
End UpdateReadsBack.

Section TightFrame.
  Context {num : Type} `{Number num}.
  Variable rc : rc_settings num.
  Local Open Scope num_scope.

  (** Whatever the outcome, a solve keeps the four margins. *)
Lemma geometry_keeps_margins (kw kw' : subplots_kw num)
      (r : result (num * num * gridspec_kw num)) :
    _subplots_geometry rc kw = (kw', r) ->
    kw_left kw' = kw_left kw /\ kw_bottom kw' = kw_bottom kw /\
    kw_right kw' = kw_right kw /\ kw_top kw' = kw_top kw.
  Proof.
    intros E.
    destruct (geometry_cases rc kw)
      as [[e E']|(m & l & aw & ah & r' & _ & _ & _ & E' & _)];
      rewrite E in E'; injection E' as -> ->; cbn; auto.
  Qed.
End TightFrame.

(** X9 - What a tight layout pass keeps.  A pass over a figure with axes,
    whether it returns or raises, keeps the counts of rows and columns,
    the panel toggles, the lengths of all arrays, the geometry of the
    gridspec, the axes and the spacings the user gave; each of the four
    margins becomes the one the user gave if there is one, and otherwise
    the old margin less the free room the bounding box leaves on that side
    plus [pad].  When the pass returns on a figure whose gridspec has the
    counts of its keywords, the gridspec reads back the new spaces. *)
Theorem tight_layout_frame {num : Type} `{Number num} (rc : rc_settings num)
    (fig fig' : Figure num) (axs : list (measured num)) (obox bbox : Bbox num)
    (r : result unit) :
  axs <> [] ->
  _adjust_tight_layout rc fig axs obox bbox = (fig', r) ->
  let kw := _subplots_kw fig in
  let kw' := _subplots_kw fig' in
  let orig := _subplots_orig_kw fig in
  (same_structure fig fig' /\
   fig_axes fig' = fig_axes fig /\ _subplots_orig_kw fig' = orig /\
   kw_wpanels kw' = kw_wpanels kw /\ kw_hpanels kw' = kw_hpanels kw) /\
  (kw_left kw' = _notNone (ok_left orig) (kw_left kw -# xmin bbox +# _pad fig) /\
   kw_bottom kw' = _notNone (ok_bottom orig) (kw_bottom kw -# ymin bbox +# _pad fig) /\
   kw_right kw'
   = _notNone (ok_right orig) (kw_right kw -# (xmax obox -# xmax bbox) +# _pad fig) /\
   kw_top kw'
   = _notNone (ok_top orig) (kw_top kw -# (ymax obox -# ymax bbox) +# _pad fig))%num /\
  (r = Ok () ->
   get_active_geometry (_gridspec_main fig) = (kw_nrows kw, kw_ncols kw) ->
   get_wspace (_gridspec_main fig') = kw_wspace kw' /\
   get_hspace (_gridspec_main fig') = kw_hspace kw' /\
   get_active_width_ratios (_gridspec_main fig') = kw_wratios kw' /\
   get_active_height_ratios (_gridspec_main fig') = kw_hratios kw').
Proof.
  intros Hax E kw kw' orig. unfold _adjust_tight_layout in E.
  destruct axs as [|ax0 axs0]; [congruence|]. set (axs := ax0 :: axs0) in *.
  cbn -[tight_spaces _subplots_geometry update] in E.
  set (figm := set_subplots_kw fig (tight_margins fig obox bbox)) in E.
  assert (Fm : same_structure fig figm) by (unfold same_structure; cbn; auto 15).
  destruct (tight_spaces figm true axs (kw_wpanels (_subplots_kw fig))
              (_nrows_active (_gridspec_main fig))
              (kw_wspace (_subplots_kw fig)) (ok_wspace (_subplots_orig_kw fig)))
    as [wspace|e] eqn:Ew.
  2:{ cbn in E. inversion E; subst. subst kw'. cbn.
      split; [auto 10|]. split; [auto 10|]. discriminate. }
  destruct (tight_spaces figm false axs (kw_hpanels (_subplots_kw fig))
              (_ncols_active (_gridspec_main fig))
              (kw_hspace (_subplots_kw fig)) (ok_hspace (_subplots_orig_kw fig)))
    as [hspace|e] eqn:Eh.
  2:{ cbn in E. inversion E; subst. subst kw'. cbn.
      split; [auto 10|]. split; [auto 10|]. discriminate. }
  apply tight_spaces_length in Ew, Eh.
  cbn -[_subplots_geometry update] in E.
  destruct (_subplots_geometry rc _) as [kw2 solved] eqn:Eg in E.
  destruct (geometry_keeps rc _ _ _ Eg) as (K1 & K2 & K3 & K4 & K5 & K6 & K7 & K8).
  destruct (geometry_keeps_margins rc _ _ _ Eg) as (M1 & M2 & M3 & M4).
  cbn in K1, K2, K3, K4, K5, K6, K7, K8, M1, M2, M3, M4.
  assert (F2 : forall gs,
             get_geometry gs = get_geometry (_gridspec_main fig) ->
             get_active_geometry gs = get_active_geometry (_gridspec_main fig) ->
             same_structure fig
               (set_gridspec (set_subplots_kw figm kw2) gs (fig_axes fig))).
  { intros gs G1 G2. unfold same_structure.
    cbn -[get_geometry get_active_geometry].
    rewrite K1, K2, K3, K4, K5, K6, K7, K8, G1, G2, Ew, Eh. auto 15. }
  destruct solved as [[[w h] gk]|e].
  2:{ inversion E; subst. subst kw'. cbn.
      split; [|split; [rewrite M1, M2, M3, M4; auto 10|discriminate]].
      split; [exact (F2 _ eq_refl eq_refl)|auto 10]. }
  cbn -[update] in E.
  destruct (update (_gridspec_main fig) gk) as [gs|e] eqn:Eu.
  2:{ inversion E; subst. subst kw'. cbn.
      split; [|split; [rewrite M1, M2, M3, M4; auto 10|discriminate]].
      split; [exact (F2 _ eq_refl eq_refl)|auto 10]. }
  inversion E; subst. subst kw'. cbn -[get_geometry get_active_geometry].
  pose proof (update_geometry _ _ _ Eu) as [G1 G2].
  split; [|split; [rewrite M1, M2, M3, M4; auto 10|]].
  - split; [|auto 10]. specialize (F2 gs G1 G2).
    unfold same_structure in *. cbn -[get_geometry get_active_geometry] in *.
    exact F2.
  - intros _ Hg. unfold get_active_geometry in Hg. injection Hg as Hr Hc.
    destruct (geometry_gridspec_kw rc _ _ _ _ _ Eg) as (_ & _ & Lh & Lw & Sh & Sw).
    destruct (geometry_panel_slots rc _ _ _ _ _ Eg)
      as (_ & _ & _ & _ & Kw & Kh & Gw & Gh).
    cbn in Lh, Lw, Sh, Sw, Gw, Gh.
    destruct (update_reads_back (_gridspec_main fig) gs gk)
      as (Aw & As & Ah & Ahs & _); try (unfold kw in *; congruence).
    rewrite Aw, As, Ah, Ahs. auto.
Qed.

Lemma tight_layout_frame_witness :
  exists fig fig',
    example_panel_figure = Ok fig /\
    _adjust_tight_layout example_rc fig example_measured example_obox example_bbox
    = (fig', Ok ()) /\
    same_structure fig fig' /\
    get_wspace (_gridspec_main fig') = kw_wspace (_subplots_kw fig').
Proof.
  destruct example_panel_figure as [fig|e] eqn:E0;
    [|vm_compute in E0; discriminate E0].
  pose proof E0 as E0'. vm_compute in E0'. injection E0' as E0'. subst fig.
  match type of E0 with _ = Ok ?f0 => set (fig := f0) in * end.
  destruct (_adjust_tight_layout example_rc fig example_measured example_obox
              example_bbox) as [fig' r] eqn:E1.
  assert (Er : r = Ok ()).
  { pose proof E1 as E1'. vm_compute in E1'. injection E1' as _ <-. reflexivity. }
  subst r.
  destruct (tight_layout_frame example_rc fig fig' example_measured example_obox
              example_bbox (Ok ())) as ((S & _) & _ & G);
    [discriminate | exact E1 |].
  destruct G as (W & _); [reflexivity | reflexivity |].
  exists fig, fig'. auto.
Defined.

(** ** Indexing an [axes_grid] *)

Lemma wrap_mod (k n : Z) :
  - n <= k < n -> (if k <? 0 then n + k else k) = k mod n.
Proof.
  intros Hk. destruct (Z.ltb_spec k 0).
  - apply (Z.mod_unique_pos k n (-1)); lia.
  - symmetry. apply Z.mod_small. lia.
Qed.

Lemma py_range_all (n : Z) :
  py_range 0 n 1 = Ok (map Z.of_nat (seq 0 (Z.to_nat n))).
Proof.
  unfold py_range. cbn.
  replace (n - 0 + 1 - 1) with n by lia. rewrite Z.div_1_r.
  f_equal. apply map_ext. intros k. lia.
Qed.

Lemma mapM_map_Ok {A B C} (f : B -> result C) (g : A -> B) (h : A -> C)
    (l : list A) :
  (forall a, In a l -> f (g a) = Ok (h a)) ->
  mapM f (map g l) = Ok (map h l).
Proof.
  induction l as [|a l IH]; intros Hf; [reflexivity|].
  cbn. rewrite (Hf a) by (left; reflexivity). cbn.
  rewrite IH by (intros b Hb; apply Hf; right; exact Hb). reflexivity.
Qed.

Lemma for_for_single_r {A B C} (f : A -> B -> C) (l : list A) (b : B) :
  for_for f l [b] = map (fun a => f a b) l.
Proof.
  unfold for_for. induction l as [|a l IH]; [reflexivity|].
  cbn. f_equal. exact IH.
Qed.

Lemma for_for_single_l {A B C} (f : A -> B -> C) (a : A) (l : list B) :
  for_for f [a] l = map (f a) l.
Proof. unfold for_for. cbn. apply app_nil_r. Qed.

Section Grid.
  Context {A : Type}.

Lemma grid_init (objs : list A) (R C : Z) (order_C : bool)
      (m : Z -> Z -> A) (g : axes_grid A) :
    holds_grid objs R C order_C m ->
    axes_grid_init objs (if order_C then C else R) order_C = Ok g ->
    items g = objs /\ _n g = (if order_C then C else R) /\
    _order_C g = order_C /\ shape g = (R, C).
  Proof.
    intros (HR & HC & Hlen & Hobjs). unfold axes_grid_init.
    destruct (Z.eqb_spec (if order_C then C else R) 0) as [E|_];
      [destruct order_C; lia|].
    intros [= <-]. cbn. repeat split. rewrite Hlen.
    destruct order_C.
    - rewrite Z.div_mul by lia. reflexivity.
    - rewrite Z.mul_comm, Z.div_mul by lia. reflexivity.
  Qed.

Lemma grid_getitem (objs : list A) (R C : Z) (order_C : bool)
      (m : Z -> Z -> A) (r c : Z) :
    holds_grid objs R C order_C m ->
    0 <= r < R -> 0 <= c < C ->
    getitem_Z objs (if order_C then r * C + c else c * R + r) = Ok (m r c).
  Proof.
    intros (HR & HC & Hlen & Hobjs) Hr Hc.
    apply getitem_Z_inside; [destruct order_C; nia|].
    apply Hobjs; assumption.
  Qed.

(** X10 - Two integer keys.  On the container of the axes of a grid of
    [R] rows and [C] columns, made with [n = C] for order ['C'] and
    [n = R] otherwise, [shape] is [(R, C)] and [axs[i, j]] is the axes
    of row [i] and column [j], whichever the order; negative keys count
    from the end. *)
Theorem axes_grid_pair (objs : list A) (R C : Z) (order_C : bool)
      (m : Z -> Z -> A) (g : axes_grid A) (i j : Z) :
    holds_grid objs R C order_C m ->
    axes_grid_init objs (if order_C then C else R) order_C = Ok g ->
    - R <= i < R -> - C <= j < C ->
    shape g = (R, C) /\
    axes_grid_getitem g (Tuple [KInt i; KInt j]) = Ok (One (m (i mod R) (j mod C))).
  Proof.
    intros Hgrid Hg Hi Hj.
    apply (grid_init _ _ _ _ m) in Hg as (Ei & En & Eo & Es); [|exact Hgrid].
    pose proof Hgrid as (HR & HC & Hlen & _).
    split; [exact Es|].
    assert (Mi : 0 <= i mod R < R) by (apply Z.mod_pos_bound; lia).
    assert (Mj : 0 <= j mod C < C) by (apply Z.mod_pos_bound; lia).
    unfold axes_grid_getitem. cbn -[Z.div Z.mul Z.add getitem_Z].
    rewrite Ei, En, Eo, Hlen.
    destruct order_C; cbn -[Z.div Z.mul Z.add getitem_Z].
    - destruct (Z.eqb_spec C 0); [lia|]. cbn -[Z.div Z.mul Z.add getitem_Z].
      rewrite Z.div_mul by lia. rewrite (wrap_mod i R), (wrap_mod j C) by lia.
      pose proof (grid_getitem _ _ _ _ _ (i mod R) (j mod C) Hgrid Mi Mj) as G. cbn in G.
      rewrite G. reflexivity.
    - destruct (Z.eqb_spec R 0); [lia|]. cbn -[Z.div Z.mul Z.add getitem_Z].
      rewrite (Z.mul_comm R C), Z.div_mul by lia.
      rewrite (wrap_mod i R), (wrap_mod j C) by lia.
      pose proof (grid_getitem _ _ _ _ _ (i mod R) (j mod C) Hgrid Mi Mj) as G. cbn in G.
      rewrite G. reflexivity.
  Qed.

(** X11 - A row or a column.  On the same container, [axs[:, j]] is the
    container of the axes of column [j] from the top row down, and
    [axs[i, :]] that of the axes of row [i] from the left, whichever the
    order; what is returned is a one-column container. *)
Theorem axes_grid_row_column (objs : list A) (R C : Z) (order_C : bool)
      (m : Z -> Z -> A) (g : axes_grid A) (i j : Z) :
    holds_grid objs R C order_C m ->
    axes_grid_init objs (if order_C then C else R) order_C = Ok g ->
    - R <= i < R -> - C <= j < C ->
    let all := KSlice (Slice None None None) in
    let column := map (fun r => m (Z.of_nat r) (j mod C)) (seq 0 (Z.to_nat R)) in
    let row := map (fun c => m (i mod R) (Z.of_nat c)) (seq 0 (Z.to_nat C)) in
    axes_grid_getitem g (Tuple [all; KInt j])
    = Ok (Many {| items := column; _n := 1; _order_C := true;
                  shape := (R, 1) |}) /\
    axes_grid_getitem g (Tuple [KInt i; all])
    = Ok (Many {| items := row; _n := 1; _order_C := true;
                  shape := (C, 1) |}).
  Proof.
    intros Hgrid Hg Hi Hj all column row.
    apply (grid_init _ _ _ _ m) in Hg as (Ei & En & Eo & Es); [|exact Hgrid].
    pose proof Hgrid as (HR & HC & Hlen & _).
    assert (Mi : 0 <= i mod R < R) by (apply Z.mod_pos_bound; lia).
    assert (Mj : 0 <= j mod C < C) by (apply Z.mod_pos_bound; lia).
    assert (Lc : len column = R).
    { unfold len, column. rewrite length_map, length_seq. lia. }
    assert (Lr : len row = C).
    { unfold len, row. rewrite length_map, length_seq. lia. }
    assert (Gc : forall f : Z -> Z,
               (forall r, 0 <= r < R ->
                          f r = if order_C then r * C + j mod C
                                else j mod C * R + r) ->
               mapM (getitem_Z objs) (map f (map Z.of_nat (seq 0 (Z.to_nat R))))
               = Ok column).
    { intros f Hf. rewrite map_map. apply mapM_map_Ok.
      intros r Hr. apply in_seq in Hr. rewrite Hf by lia.
      apply (grid_getitem _ R C); [exact Hgrid|lia|exact Mj]. }
    assert (Gr : forall f : Z -> Z,
               (forall c, 0 <= c < C ->
                          f c = if order_C then i mod R * C + c
                                else c * R + i mod R) ->
               mapM (getitem_Z objs) (map f (map Z.of_nat (seq 0 (Z.to_nat C))))
               = Ok row).
    { intros f Hf. rewrite map_map. apply mapM_map_Ok.
      intros c Hc. apply in_seq in Hc. rewrite Hf by lia.
      apply (grid_getitem _ R C); [exact Hgrid|exact Mi|lia]. }
    unfold axes_grid_getitem, all.
    cbn -[Z.div Z.mul Z.add getitem_Z py_range mapM for_for].
    rewrite Ei, En, Eo, Hlen.
    destruct order_C;
      cbn -[Z.div Z.mul Z.add getitem_Z py_range mapM for_for].
    - destruct (Z.eqb_spec C 0); [lia|].
      cbn -[Z.div Z.mul Z.add getitem_Z py_range mapM for_for].
      rewrite Z.div_mul by lia. rewrite !py_range_all.
      cbn -[Z.div Z.mul Z.add getitem_Z mapM for_for].
      rewrite (wrap_mod i R), (wrap_mod j C) by lia.
      rewrite for_for_single_r, for_for_single_l.
      rewrite (Gc (fun a => a * C + j mod C)) by reflexivity.
      rewrite (Gr (fun c => i mod R * C + c)) by reflexivity.
      cbn -[Z.div]. rewrite Lc, Lr, !Z.div_1_r. split; reflexivity.
    - destruct (Z.eqb_spec R 0); [lia|].
      cbn -[Z.div Z.mul Z.add getitem_Z py_range mapM for_for].
      rewrite (Z.mul_comm R C), Z.div_mul by lia. rewrite !py_range_all.
      cbn -[Z.div Z.mul Z.add getitem_Z mapM for_for].
      rewrite (wrap_mod i R), (wrap_mod j C) by lia.
      rewrite for_for_single_r, for_for_single_l.
      rewrite (Gc (fun a => j mod C * R + a)) by reflexivity.
      rewrite (Gr (fun c => c * R + i mod R)) by reflexivity.
      cbn -[Z.div]. rewrite Lc, Lr, !Z.div_1_r. split; reflexivity.
  Qed.
End Grid.

Lemma example_holds_grid (order_C : bool) :
  holds_grid (if order_C then [11; 12; 13; 21; 22; 23]
              else [11; 21; 12; 22; 13; 23])
    2 3 order_C (fun r c => 10 * (r + 1) + (c + 1)).
Proof.
  split; [lia|]. split; [lia|]. split; [destruct order_C; reflexivity|].
  intros r c Hr Hc.
  assert (Er : r = 0 \/ r = 1) by lia.
  assert (Ec : c = 0 \/ c = 1 \/ c = 2) by lia.
  destruct order_C, Er as [-> | ->], Ec as [-> | [-> | ->]]; reflexivity.
Qed.

Lemma axes_grid_pair_witness :
  exists g,
    axes_grid_init [11; 12; 13; 21; 22; 23] 3 true = Ok g /\
    shape g = (2, 3) /\
    axes_grid_getitem g (Tuple [KInt 1; KInt (-1)]) = Ok (One 23).
Proof.
  destruct (axes_grid_init [11; 12; 13; 21; 22; 23] 3 true) as [g|e] eqn:E;
    [|vm_compute in E; discriminate E].
  exists g. split; [reflexivity|].
  apply (axes_grid_pair [11; 12; 13; 21; 22; 23] 2 3 true
           (fun r c => 10 * (r + 1) + (c + 1)) g 1 (-1)
           (example_holds_grid true) E); lia.
Defined.

Lemma axes_grid_row_column_witness :
  exists g,
    axes_grid_init [11; 21; 12; 22; 13; 23] 2 false = Ok g /\
    axes_grid_getitem g (Tuple [KSlice (Slice None None None); KInt 2])
    = Ok (Many {| items := [13; 23]; _n := 1; _order_C := true;
                  shape := (2, 1) |}).
Proof.
  destruct (axes_grid_init [11; 21; 12; 22; 13; 23] 2 false) as [g|e] eqn:E;
    [|vm_compute in E; discriminate E].
  exists g. split; [reflexivity|].
  apply (axes_grid_row_column [11; 21; 12; 22; 13; 23] 2 3 false
           (fun r c => 10 * (r + 1) + (c + 1)) g 0 2
           (example_holds_grid false) E); lia.
Defined.

(** ** Booking a slot for a figure panel *)

Lemma slice_in_range (a b n : Z) :
  0 <= a <= b -> b <= n ->
  slice_indices (Slice (Some a) (Some b) None) n = Ok (a, b).
Proof.
  intros Ha Hb. unfold slice_indices. cbn. Zcases; try lia.
  f_equal. f_equal; lia.
Qed.

Lemma set_slice_length {A} (row : list A) (a b : Z) (x : A) :
  length (set_slice row a b x) = length row.
Proof.
  unfold set_slice. destruct (slice_indices _ _) as [[i j]|]; [|reflexivity].
  apply length_imap.
Qed.

Lemma set_slice_in {A} (row : list A) (a b : Z) (x : A) (k : nat) :
  0 <= a <= b -> b <= len row -> in_span a b k ->
  set_slice row a b x !! k = Some x.
Proof.
  intros Ha Hb [K1 K2]. unfold set_slice. rewrite slice_in_range by assumption.
  rewrite list_lookup_imap.
  destruct (lookup_lt_is_Some_2 row k) as [y Hy]; [unfold len in Hb; lia|].
  rewrite Hy. cbn.
  destruct (Z.leb_spec a (Z.of_nat k)); [|lia].
  destruct (Z.ltb_spec (Z.of_nat k) b); [|lia]. reflexivity.
Qed.

Lemma set_slice_out {A} (row : list A) (a b : Z) (x : A) (k : nat) :
  0 <= a <= b -> b <= len row -> ~ in_span a b k ->
  set_slice row a b x !! k = row !! k.
Proof.
  intros Ha Hb K. unfold set_slice. rewrite slice_in_range by assumption.
  rewrite list_lookup_imap. destruct (row !! k) as [y|]; [|reflexivity]. cbn.
  unfold in_span in K.
  destruct (Z.leb_spec a (Z.of_nat k)), (Z.ltb_spec (Z.of_nat k) b);
    first [reflexivity | lia].
Qed.

Lemma list_slice_in_range {A} (row : list A) (a b : Z) :
  0 <= a <= b -> b <= len row ->
  list_slice row a b = take (Z.to_nat (b - a)) (drop (Z.to_nat a) row).
Proof.
  intros Ha Hb. unfold list_slice. fold (len row).
  rewrite slice_in_range by assumption. reflexivity.
Qed.

Lemma any_slice_true (row : list bool) (a b : Z) :
  0 <= a <= b -> b <= len row ->
  any_ (list_slice row a b) = true ->
  exists k, in_span a b k /\ row !! k = Some true.
Proof.
  intros Ha Hb E. rewrite list_slice_in_range in E by assumption.
  unfold any_ in E. apply existsb_exists in E as (x & Hin & Hx).
  unfold id in Hx. subst x.
  apply list_elem_of_In, list_elem_of_lookup in Hin as (j & Hj).
  apply lookup_take_Some in Hj as [Hj Hlt]. rewrite lookup_drop in Hj.
  exists (Z.to_nat a + j)%nat. split; [unfold in_span; lia|exact Hj].
Qed.

Lemma any_slice_false (row : list bool) (a b : Z) (k : nat) :
  0 <= a <= b -> b <= len row ->
  any_ (list_slice row a b) = false -> in_span a b k ->
  row !! k = Some false.
Proof.
  intros Ha Hb E [K1 K2]. rewrite list_slice_in_range in E by assumption.
  destruct (lookup_lt_is_Some_2 row k) as [y Hy]; [unfold len in Hb; lia|].
  destruct y; [|exact Hy]. exfalso.
  assert (T : any_ (take (Z.to_nat (b - a)) (drop (Z.to_nat a) row)) = true).
  { unfold any_. apply existsb_exists. exists true. split; [|reflexivity].
    apply list_elem_of_In, list_elem_of_lookup.
    exists (k - Z.to_nat a)%nat. apply lookup_take_Some. split; [|lia].
    rewrite lookup_drop. rewrite <- Hy. f_equal. lia. }
  congruence.
Qed.

Lemma find_free_Some (rows : list (list bool)) (a b : Z) :
  forall i j,
    find_free rows a b i = Some j ->
    exists i0 row,
      j = (i + i0)%nat /\ rows !! i0 = Some row /\
      any_ (list_slice row a b) = false /\
      forall i' row', (i' < i0)%nat -> rows !! i' = Some row' ->
                      any_ (list_slice row' a b) = true.
Proof.
  induction rows as [|row rows IH]; intros i j E; [discriminate|].
  cbn in E. destruct (any_ (list_slice row a b)) eqn:Ea; cbn in E.
  - apply IH in E as (i0 & row0 & -> & Hr & Hf & Hb).
    exists (S i0), row0. split; [lia|]. split; [exact Hr|]. split; [exact Hf|].
    intros [|i'] row' Hi Hl; cbn in Hl; [congruence|]. apply (Hb i'); [lia|exact Hl].
  - injection E as <-. exists 0%nat, row. split; [lia|]. split; [reflexivity|].
    split; [exact Ea|]. intros i' row' Hi. lia.
Qed.

Lemma find_free_None (rows : list (list bool)) (a b : Z) :
  forall i,
    find_free rows a b i = None ->
    forall i' row', rows !! i' = Some row' -> any_ (list_slice row' a b) = true.
Proof.
  induction rows as [|row rows IH]; intros i E i' row' Hl; [discriminate|].
  cbn in E. destruct (any_ (list_slice row a b)) eqn:Ea; cbn in E; [|discriminate].
  destruct i' as [|i']; cbn in Hl; [congruence|]. exact (IH _ E i' row' Hl).
Qed.

(** X12 - No figure panel is booked twice.  On a rectangular array with
    no more rows than the figure has slots across, booking the span
    [start:stop] picks the first row [i0] in which the span is free, or a
    new row after the last one when there is none.  The span of that row
    is booked, every other entry of the array is as it was, and the slot
    returned counts [i0] from the outside inwards for a left or top panel
    and towards the far edge for a right or bottom panel; it is [-1] or
    [nacross], the values that make room for a new slot, exactly when a
    new row was opened. *)
Theorem book_slot_spec (s : panel) (nacross : Z) (array array' : bool_array)
    (start stop iratio : Z) :
  let npanels := length (ba_rows array) in
  rectangular array -> Z.of_nat npanels <= nacross ->
  0 <= start <= stop -> stop <= ba_nalong array ->
  book_slot s nacross array start stop = (iratio, array') ->
  rectangular array' /\ ba_nalong array' = ba_nalong array /\
  exists i0 : nat,
    (i0 <= npanels)%nat /\
    length (ba_rows array') = Nat.max npanels (S i0) /\
    iratio = (if in_tl s then Z.of_nat npanels - 1 - Z.of_nat i0
              else nacross - Z.of_nat npanels + Z.of_nat i0) /\
    ((iratio = -1 \/ iratio = nacross) <-> i0 = npanels) /\
    (forall i, (i < i0)%nat ->
               exists k, in_span start stop k /\ cell array i k = Some true) /\
    (forall k, in_span start stop k ->
               cell array' i0 k = Some true /\
               ((i0 < npanels)%nat -> cell array i0 k = Some false)) /\
    (forall i k, (i < npanels)%nat -> i <> i0 \/ ~ in_span start stop k ->
                 cell array' i k = cell array i k) /\
    (forall k, i0 = npanels -> ~ in_span start stop k ->
               Z.of_nat k < ba_nalong array -> cell array' i0 k = Some false).
Proof.
  intros npanels Hrect Hn Hs He E. unfold book_slot in E. fold npanels in E.
  unfold len in E. fold npanels in E.
  assert (Hrow : forall i row, ba_rows array !! i = Some row ->
                               stop <= len row).
  { intros i row Hl. unfold rectangular in Hrect.
    rewrite Forall_forall in Hrect.
    rewrite (Hrect row) by (eapply list_elem_of_lookup_2; exact Hl). exact He. }
  destruct (find_free (ba_rows array) start stop 0) as [j|] eqn:Ef.
  - apply find_free_Some in Ef as (i0 & row & -> & Hl & Hf & Hb).
    cbn [Nat.add] in E.
    pose proof (lookup_lt_Some _ _ _ Hl) as Hlt. fold npanels in Hlt.
    set (ir := if in_tl s then Z.of_nat npanels - 1 - Z.of_nat i0
               else nacross - (Z.of_nat npanels - Z.of_nat i0)) in E.
    assert (Hir : 0 <= ir < nacross) by (subst ir; destruct (in_tl s); lia).
    destruct (Z.eqb_spec ir (-1)) as [?|_]; [lia|].
    destruct (Z.eqb_spec ir nacross) as [?|_]; [lia|].
    cbn [orb] in E. injection E as <- <-. cbn [ba_rows ba_nalong].
    split; [|split; [reflexivity|]].
    { unfold rectangular in *. cbn [ba_rows ba_nalong].
      rewrite Forall_forall in *. intros r Hr.
      apply list_elem_of_lookup in Hr as (i & Hi).
      destruct (decide (i = i0)) as [->|Hne].
      - rewrite list_lookup_alter_eq, Hl in Hi. cbn in Hi. injection Hi as <-.
        unfold len. rewrite set_slice_length. apply Hrect.
        eapply list_elem_of_lookup_2; exact Hl.
      - rewrite list_lookup_alter_ne in Hi by congruence.
        apply Hrect. eapply list_elem_of_lookup_2; exact Hi. }
    exists i0. split; [lia|]. split; [rewrite length_alter; fold npanels; lia|].
    split; [subst ir; destruct (in_tl s); lia|].
    split; [subst ir; destruct (in_tl s); lia|].
    split; [|split; [|split]].
    + intros i Hi.
      destruct (lookup_lt_is_Some_2 (ba_rows array) i) as [row' Hl'];
        [fold npanels; lia|].
      destruct (any_slice_true row' start stop Hs (Hrow _ _ Hl') (Hb _ _ Hi Hl'))
        as (k & Hk & Hc).
      exists k. split; [exact Hk|]. unfold cell. rewrite Hl'. exact Hc.
    + intros k Hk. unfold cell. cbn [ba_rows].
      rewrite list_lookup_alter_eq, Hl. cbn. split.
      * apply set_slice_in; eauto.
      * intros _. eapply any_slice_false; eauto.
    + intros i k Hi Hd. unfold cell. cbn [ba_rows].
      destruct (decide (i = i0)) as [->|Hne].
      * rewrite list_lookup_alter_eq, Hl. cbn.
        apply set_slice_out; eauto. destruct Hd; [congruence|assumption].
      * rewrite list_lookup_alter_ne by congruence. reflexivity.
    + intros k Hk. lia.
  - pose proof (find_free_None _ _ _ _ Ef) as Hb.
    set (ir := if in_tl s then -1 else nacross) in E.
    assert (Hir : (ir =? -1) || (ir =? nacross) = true).
    { subst ir. destruct (in_tl s).
      - reflexivity.
      - rewrite Z.eqb_refl. apply orb_true_r. }
    rewrite Hir in E. injection E as <- <-. cbn [ba_rows ba_nalong].
    assert (Lnew : len (replicate (Z.to_nat (ba_nalong array)) false)
                   = ba_nalong array).
    { unfold len. rewrite length_replicate. lia. }
    split; [|split; [reflexivity|]].
    { unfold rectangular in *. cbn [ba_rows ba_nalong].
      apply Forall_app. split; [exact Hrect|]. constructor; [|constructor].
      unfold len. rewrite set_slice_length. exact Lnew. }
    exists npanels. split; [lia|].
    split; [rewrite length_app; cbn; fold npanels; lia|].
    split; [subst ir; destruct (in_tl s); lia|].
    split; [subst ir; destruct (in_tl s); split; auto; lia|].
    split; [|split; [|split]].
    + intros i Hi.
      destruct (lookup_lt_is_Some_2 (ba_rows array) i) as [row' Hl'];
        [fold npanels; lia|].
      destruct (any_slice_true row' start stop Hs (Hrow _ _ Hl') (Hb _ _ Hl'))
        as (k & Hk & Hc).
      exists k. split; [exact Hk|]. unfold cell. rewrite Hl'. exact Hc.
    + intros k Hk. unfold cell. cbn [ba_rows].
      rewrite lookup_app_r by (fold npanels; lia).
      fold npanels. rewrite Nat.sub_diag. cbn. split; [|lia].
      apply set_slice_in; [exact Hs|rewrite Lnew; exact He|exact Hk].
    + intros i k Hi Hd. unfold cell. cbn [ba_rows].
      rewrite lookup_app_l by (fold npanels; lia). reflexivity.
    + intros k _ Hk Hlt. unfold cell. cbn [ba_rows].
      rewrite lookup_app_r by (fold npanels; lia).
      fold npanels. rewrite Nat.sub_diag. cbn.
      rewrite set_slice_out; [|exact Hs|rewrite Lnew; exact He|exact Hk].
      apply lookup_replicate_2. lia.
Qed.

Lemma book_slot_spec_witness :
  exists iratio array',
    book_slot tag_l 3
      {| ba_rows := [[true; true; false]]; ba_nalong := 3 |} 2 3
    = (iratio, array') /\
    rectangular array' /\ ba_nalong array' = 3.
Proof.
  destruct (book_slot tag_l 3
              {| ba_rows := [[true; true; false]]; ba_nalong := 3 |} 2 3)
    as [iratio array'] eqn:E.
  exists iratio, array'. split; [reflexivity|].
  destruct (book_slot_spec tag_l 3
              {| ba_rows := [[true; true; false]]; ba_nalong := 3 |}
              array' 2 3 iratio) as (Hr & Hn & _).
  - repeat constructor.
  - cbn. lia.
  - lia.
  - cbn. lia.
  - exact E.
  - split; [exact Hr|exact Hn].
Defined.

(** ** The dictionary of properties per axes *)

Lemma elem_of_axes_numbers (naxs k : Z) :
  k ∈ axes_numbers naxs <-> 1 <= k <= naxs.
Proof.
  unfold axes_numbers. rewrite list_elem_of_fmap. split.
  - intros (i & -> & Hi). apply elem_of_seq in Hi. lia.
  - intros Hk. exists (Z.to_nat (k - 1)). split; [lia|].
    apply elem_of_seq. lia.
Qed.

Section AxesDict.
  Context {V : Type}.

Lemma fold_insert_lookup (nums : list Z) (v : V) :
    forall (m0 : gmap Z V) (k : Z),
      fold_left (fun (m : gmap Z V) num => <[num := v]> m) nums m0 !! k
      = if decide (k ∈ nums) then Some v else m0 !! k.
  Proof.
    induction nums as [|n nums IH]; intros m0 k; cbn.
    - destruct (decide (k ∈ [])) as [H|_]; [|reflexivity].
      apply elem_of_nil in H. contradiction.
    - rewrite IH. destruct (decide (k ∈ nums)) as [Hin|Hout].
      + rewrite decide_True by (right; exact Hin). reflexivity.
      + destruct (decide (k = n)) as [->|Hne].
        * rewrite decide_True by left. apply lookup_insert_eq.
        * rewrite decide_False; [apply lookup_insert_ne; congruence|].
          intros H. apply elem_of_cons in H as [?|?]; contradiction.
  Qed.

Lemma fill_default_lookup (naxs : Z) (dflt : V) (m0 : gmap Z V) (k : Z) :
    fill_default naxs dflt m0 !! k
    = match m0 !! k with
      | Some x => Some x
      | None => if decide (1 <= k <= naxs) then Some dflt else None
      end.
  Proof.
    unfold fill_default.
    assert (G : forall nums (m : gmap Z V),
               fold_left
                 (fun (kwargs : gmap Z V) num =>
                    match kwargs !! num with
                    | Some _ => kwargs
                    | None => <[num := dflt]> kwargs
                    end) nums m !! k
               = match m !! k with
                 | Some x => Some x
                 | None => if decide (k ∈ nums) then Some dflt else None
                 end).
    { induction nums as [|n nums IH]; intros m; cbn.
      - destruct (m !! k); [reflexivity|].
        destruct (decide (k ∈ [])) as [H|_]; [|reflexivity].
        apply elem_of_nil in H. contradiction.
      - rewrite IH. destruct (m !! n) as [y|] eqn:En.
        + destruct (m !! k) as [x|] eqn:Ek; [reflexivity|].
          destruct (decide (k ∈ nums)) as [Hin|Hout].
          * rewrite decide_True by (right; exact Hin). reflexivity.
          * rewrite decide_False; [reflexivity|].
            intros H. apply elem_of_cons in H as [->|?]; [congruence|contradiction].
        + destruct (decide (k = n)) as [->|Hne].
          * rewrite lookup_insert_eq, En. rewrite decide_True by left. reflexivity.
          * rewrite lookup_insert_ne by congruence.
            destruct (m !! k) as [x|]; [reflexivity|].
            destruct (decide (k ∈ nums)) as [Hin|Hout].
            -- rewrite decide_True by (right; exact Hin). reflexivity.
            -- rewrite decide_False; [reflexivity|].
               intros H. apply elem_of_cons in H as [?|?]; contradiction. }
    rewrite G. destruct (m0 !! k); [reflexivity|].
    destruct (decide (k ∈ axes_numbers naxs)) as [Hin|Hout];
      [apply elem_of_axes_numbers in Hin|rewrite elem_of_axes_numbers in Hout].
    - rewrite decide_True by exact Hin. reflexivity.
    - rewrite decide_False by exact Hout. reflexivity.
  Qed.

Lemma unfurl_sequence (l : list V) :
    forall (off : nat) (m0 : gmap Z V) (k : Z),
      fold_left
        (fun (kwargs : gmap Z V) (e : list Z * V) =>
           fold_left (fun (kwargs : gmap Z V) num => <[num := snd e]> kwargs)
                     (fst e) kwargs)
        (imap (fun num item => ([Z.of_nat (off + num) + 1], item)) l) m0 !! k
      = if decide (Z.of_nat off < k <= Z.of_nat off + len l)
        then l !! Z.to_nat (k - 1 - Z.of_nat off) else m0 !! k.
  Proof.
    induction l as [|x l IH]; intros off m0 k.
    - cbn. rewrite decide_False by (unfold len; cbn; lia). reflexivity.
    - rewrite imap_cons. cbn [fold_left fst snd].
      rewrite (imap_ext _ (fun num item => ([Z.of_nat (S off + num) + 1], item)))
        by (intros i y _; cbn; do 3 f_equal; lia).
      rewrite IH. unfold len. cbn [length].
      destruct (decide (Z.of_nat (S off) < k <= Z.of_nat (S off) + Z.of_nat (length l)))
        as [Hin|Hout].
      + rewrite decide_True by lia.
        replace (Z.to_nat (k - 1 - Z.of_nat off))
          with (S (Z.to_nat (k - 1 - Z.of_nat (S off)))) by lia.
        reflexivity.
      + destruct (decide (k = Z.of_nat off + 1)) as [->|Hne].
        * rewrite decide_True by lia.
          rewrite Nat.add_0_r, lookup_insert_eq.
          replace (Z.to_nat (Z.of_nat off + 1 - 1 - Z.of_nat off)) with 0%nat by lia.
          reflexivity.
        * rewrite decide_False by lia.
          rewrite Nat.add_0_r, lookup_insert_ne by lia. reflexivity.
  Qed.

Lemma axes_dict_dom (naxs : Z) (value : list (list Z * V)) (dflt : V) (k : Z) :
    k ∈ dom (fill_default naxs dflt (unfurl value)) <->
    is_Some (unfurl value !! k) \/ 1 <= k <= naxs.
  Proof.
    rewrite elem_of_dom, fill_default_lookup.
    destruct (unfurl value !! k) as [x|].
    - split; [intros _; left; eauto|intros _; eauto].
    - destruct (decide (1 <= k <= naxs)).
      + split; [intros _; right; assumption|intros _; eauto].
      + split; [intros [? ?]; discriminate|].
        intros [[? ?]|?]; [discriminate|contradiction].
  Qed.

Lemma axes_dict_accepted (naxs : Z) (value : list (list Z * V)) (dflt : V) :
    (forall k, is_Some (unfurl value !! k) -> 1 <= k <= naxs) ->
    bool_decide (list_to_set (axes_numbers naxs)
                 =@{gset Z} dom (fill_default naxs dflt (unfurl value))) = true.
  Proof.
    intros Hall. apply bool_decide_eq_true_2. apply set_eq. intros k.
    rewrite elem_of_list_to_set, elem_of_axes_numbers, axes_dict_dom.
    split; [auto|]. intros [Hk|Hk]; [auto|exact Hk].
  Qed.

Lemma axes_dict_refused (naxs : Z) (value : list (list Z * V)) (dflt : V) (k : Z) :
    is_Some (unfurl value !! k) -> ~ 1 <= k <= naxs ->
    bool_decide (list_to_set (axes_numbers naxs)
                 =@{gset Z} dom (fill_default naxs dflt (unfurl value))) = false.
  Proof.
    intros Hk Hout. apply bool_decide_eq_false_2. intros E. apply Hout.
    apply elem_of_axes_numbers. apply (elem_of_list_to_set (C := gset Z)).
    rewrite E. apply axes_dict_dom. left. exact Hk.
  Qed.

(** X13 - One entry per axes.  [_axes_dict] raises nothing but
    [ValueError], and what it returns has an entry for each of the axes
    [1 .. naxs] and for nothing else.  One value for all axes is the
    entry of each of them.  A sequence of at most [naxs] items gives axes
    [k] its item [k - 1] and the default to the axes beyond its end; a
    longer sequence is refused ([naxs] is a count, so it is not negative
    there). *)
Theorem axes_dict_spec (naxs : Z) (dflt : V) :
    (forall value e, _axes_dict naxs value dflt = Raise e -> e = ValueError) /\
    (forall value m k,
        _axes_dict naxs value dflt = Ok m ->
        (is_Some (m !! k) <-> 1 <= k <= naxs)) /\
    (forall v, exists m,
        _axes_dict naxs (ForAll v) dflt = Ok m /\
        forall k, 1 <= k <= naxs -> m !! k = Some v) /\
    (forall l, len l <= naxs ->
        exists m,
          _axes_dict naxs (PerAxes l) dflt = Ok m /\
          forall k, 1 <= k <= naxs ->
                    m !! k = Some (default dflt (l !! Z.to_nat (k - 1)))) /\
    (forall l, 0 <= naxs < len l ->
        _axes_dict naxs (PerAxes l) dflt = Raise ValueError).
  Proof.
    split; [|split; [|split; [|split]]].
    - intros value e. unfold _axes_dict.
      destruct value; cbn -[fill_default unfurl axes_numbers];
        try (destruct (bool_decide _); [discriminate|congruence]).
      congruence.
    - intros value m k. unfold _axes_dict.
      destruct (match value with
                | ForAll v => Ok [(axes_numbers naxs, v)]
                | PerAxes l => Ok (imap (fun num item => ([Z.of_nat num + 1], item)) l)
                | ByNumber d => Ok d
                | Mixed => Raise ValueError
                end) as [value'|e]; [|discriminate].
      cbn -[fill_default unfurl axes_numbers].
      destruct (bool_decide _) eqn:E; [|discriminate]. intros [= <-].
      apply bool_decide_eq_true in E.
      rewrite <- elem_of_dom, <- E, elem_of_list_to_set.
      apply elem_of_axes_numbers.
    - intros v. unfold _axes_dict. cbn -[fill_default unfurl axes_numbers].
      assert (U : forall k, unfurl [(axes_numbers naxs, v)] !! k
                            = if decide (1 <= k <= naxs) then Some v else None).
      { intros k. unfold unfurl. cbn [fold_left fst snd].
        rewrite fold_insert_lookup, lookup_empty.
        destruct (decide (k ∈ axes_numbers naxs)) as [Hin|Hout];
          [apply elem_of_axes_numbers in Hin|rewrite elem_of_axes_numbers in Hout].
        - rewrite decide_True by exact Hin. reflexivity.
        - rewrite decide_False by exact Hout. reflexivity. }
      rewrite axes_dict_accepted.
      + eexists. split; [reflexivity|]. intros k Hk.
        rewrite fill_default_lookup, U, decide_True by exact Hk. reflexivity.
      + intros k. rewrite U. destruct (decide (1 <= k <= naxs)); [auto|].
        intros [? ?]. discriminate.
    - intros l Hl. unfold _axes_dict. cbn -[fill_default unfurl axes_numbers].
      assert (U : forall k,
                 unfurl (imap (fun num item => ([Z.of_nat num + 1], item)) l) !! k
                 = if decide (0 < k <= len l) then l !! Z.to_nat (k - 1) else None).
      { intros k. unfold unfurl.
        pose proof (unfurl_sequence l 0 ∅ k) as S. cbn [Nat.add] in S.
        rewrite S, lookup_empty. change (Z.of_nat 0) with 0.
        rewrite Z.add_0_l, Z.sub_0_r. reflexivity. }
      rewrite axes_dict_accepted.
      + eexists. split; [reflexivity|]. intros k Hk.
        rewrite fill_default_lookup, U.
        destruct (decide (0 < k <= len l)) as [Hin|Hout].
        * destruct (lookup_lt_is_Some_2 l (Z.to_nat (k - 1))) as [x Hx];
            [unfold len in Hin; lia|].
          rewrite Hx. reflexivity.
        * rewrite decide_True by exact Hk.
          rewrite (lookup_ge_None_2 l) by (unfold len in Hout; lia). reflexivity.
      + intros k. rewrite U. destruct (decide (0 < k <= len l)); [lia|].
        intros [? ?]. discriminate.
    - intros l Hl. unfold _axes_dict. cbn -[fill_default unfurl axes_numbers].
      rewrite (axes_dict_refused _ _ _ (len l)); [reflexivity| |lia].
      unfold unfurl.
      pose proof (unfurl_sequence l 0 ∅ (len l)) as S. cbn [Nat.add] in S.
      rewrite S. change (Z.of_nat 0) with 0.
      rewrite decide_True by (unfold len in *; lia).
      apply lookup_lt_is_Some_2. unfold len in *. lia.
  Qed.
End AxesDict.

Lemma axes_dict_spec_witness :
  exists m,
    _axes_dict 3 (PerAxes ["polar"; "cartesian"]%string) "cartesian"%string
    = Ok m /\
    m !! 1 = Some "polar"%string /\ m !! 3 = Some "cartesian"%string.
Proof.
  destruct (axes_dict_spec (V := string) 3 "cartesian"%string)
    as (_ & _ & _ & P & _).
  destruct (P ["polar"; "cartesian"]%string) as (m & E & L); [unfold len; cbn; lia|].
  exists m. split; [exact E|]. split.
  - rewrite (L 1) by lia. reflexivity.
  - rewrite (L 3) by lia. reflexivity.
Defined.

(** ** Where an axes panel lands *)

Lemma side_translate_letter (side : string) (s : panel) :
  side_letter side = Ok s ->
  exists side', SIDE_TRANSLATE s = Ok side' /\ side_letter side' = Ok s.
Proof.
  intros Es. destruct (side_letter_panel _ _ Es) as [Hm Hf].
  destruct s; try congruence; eexists; split; reflexivity.
Qed.

Section InsertReturns.
  Context {num : Type} `{Number num}.
  Variable rc : rc_settings num.

  (** Lines 1301-1306 for a slot that exists, when the call returns. *)
Lemma update_figure_old (fig fig' : Figure num) (s : panel) (idx : Z)
      (gs : FlexibleGridSpec num) :
    update_figure rc fig s idx true = (fig', Ok gs) ->
    exists gk, update (_gridspec_main fig) gk = Ok gs.
  Proof.
    unfold update_figure.
    destruct (_subplots_geometry rc (_subplots_kw fig)) as [kw' solved].
    destruct solved as [[[w h] gk]|e]; [|cbn; intros E; inversion E].
    cbn -[update].
    destruct (update (_gridspec_main fig) gk) as [gs0|e] eqn:Eu;
      intros E; inversion E; subst. eauto.
  Qed.

  (** The gridspec a call returns: the one of the figure, updated, when
      the slot existed, and a new one over a grid with one more row or
      column when it did not. *)
Lemma insert_returns (fig fig' : Figure num) (side : string) (idx : Z)
      (ratio space : num) (space_orig : option num) (figure : bool)
      (s : panel) (gs : FlexibleGridSpec num) :
    side_letter side = Ok s ->
    _insert_row_column rc fig side idx ratio space space_orig figure
    = (fig', Ok gs) ->
    exists b,
      slot_exists (panels (load_arrays (in_lr s) fig)) idx
        (if figure then tag_f else s) = Ok b /\
      if b then
        get_geometry gs = get_geometry (_gridspec_main fig) /\
        get_active_geometry gs = get_active_geometry (_gridspec_main fig)
      else
        doubled gs /\
        get_active_geometry gs
        = grown s (kw_nrows (_subplots_kw fig)) (kw_ncols (_subplots_kw fig)).
  Proof.
    intros Es E. unfold _insert_row_column in E. rewrite Es in E.
    destruct (slot_exists _ idx _) as [[|]|e] eqn:Ex; [| |inversion E].
    - exists true. split; [reflexivity|].
      destruct (update_space _ _ _ _) as [a' [[]|e]]; [|inversion E].
      apply update_figure_old in E as (gk & Eu).
      apply update_geometry in Eu. destruct (in_lr s); exact Eu.
    - exists false. split; [reflexivity|].
      apply update_figure_new in E as (w & h & gk & Eg & Ei & _).
      destruct (geometry_gridspec_kw rc _ _ _ _ _ Eg) as (Er & Ec & _).
      apply init_doubled in Ei as (Hd & Ar & Ac).
      split; [exact Hd|]. unfold get_active_geometry. rewrite Ar, Ac, Er, Ec.
      unfold grown. destruct (in_lr s); cbn; reflexivity.
  Qed.
End InsertReturns.

(** X14 - A panel lands next to its axes.  On a figure whose keywords and
    gridspec agree, for an axes placed inside the grid that already has
    [npanels] panels on the side, a call that returns gives the new panel
    the placement [npanels + 1] slots away from the axes on that side, over
    the rows of the axes for a left or right panel and over its columns
    for a top or bottom panel.  The coordinates of the axes are those it
    has after the call: shifted by the insertion if a slot had to be
    inserted, unchanged if the slot was there. *)
Theorem panel_lands_next_to_axes {num : Type} `{Number num}
    (rc : rc_settings num) (fig fig' : Figure num)
    (subplotspec ss : FlexibleSubplotSpec) (npanels : Z) (side : string)
    (share : option bool) (width space : option num) (filled : bool)
    (s : panel) (nrows ncols row1 row2 col1 col2 : Z) :
  let kw := _subplots_kw fig in
  let coords := (row1, row2, col1, col2) in
  let offset := npanels + 1 in
  let iratio := panel_slot s offset coords in
  side_letter side = Ok s -> 0 <= npanels -> consistent fig ->
  get_active_rows_columns subplotspec
  = Ok (nrows, ncols, row1, row2, col1, col2) ->
  0 <= row1 <= row2 -> row2 < kw_nrows kw ->
  0 <= col1 <= col2 -> col2 < kw_ncols kw ->
  -1 <= iratio <= (if in_lr s then kw_ncols kw else kw_nrows kw) ->
  _add_axes_panel rc fig subplotspec npanels side share width space filled
  = (fig', Ok ss) ->
  exists inserted : bool,
    slot_exists (panels (load_arrays (in_lr s) fig)) iratio s
    = Ok (negb inserted) /\
    has_coords (OnMain ss)
      (panel_coords s offset
         (if inserted
          then shift_coords s (iratio + int_of_bool (in_tl s)) coords
          else coords)).
Proof.
  intros kw coords offset iratio Es Hn (Hd & Hg & Lw & Lh) Hc Hr1 Hr2 Hc1 Hc2 Hi E.
  subst kw.
  destruct (side_letter_panel _ _ Es) as [Hm Hf].
  destruct (side_translate_letter _ _ Es) as (side' & Et & Es').
  unfold _add_axes_panel in E. rewrite Es, Et in E.
  cbn -[_panels_kwargs get_active_rows_columns _insert_row_column __getitem__
        slot_exists load_arrays] in E.
  destruct (_panels_kwargs rc (panel_letter s) share width space filled false)
    as [[[[sh w] sp] so]|e]; [|inversion E].
  cbn -[_panels_kwargs get_active_rows_columns _insert_row_column __getitem__
        slot_exists load_arrays] in E.
  rewrite Hc in E.
  cbn -[_insert_row_column __getitem__ slot_exists load_arrays] in E.
  assert (Eo : npanels * int_of_bool (negb (npanels =? 0)) + 1 = offset).
  { subst offset. destruct (Z.eqb_spec npanels 0) as [->|]; cbn; lia. }
  rewrite Eo in E.
  assert (Ei : (if in_lr s
                then if bool_decide (s = tag_l) then col1 - offset else col2 + offset
                else if bool_decide (s = tag_t) then row1 - offset else row2 + offset)
               = iratio).
  { subst iratio coords. destruct s; try congruence; reflexivity. }
  rewrite Ei in E.
  destruct (_insert_row_column rc fig side' iratio w sp so false)
    as [fig1 [gs|e]] eqn:Eins.
  2:{ destruct (in_lr s); inversion E. }
  destruct (insert_returns rc _ _ _ _ _ _ _ _ _ gs Es' Eins) as (b & Ex & Hb).
  cbn [negb] in Ex. rewrite Ex in E.
  exists (negb b). rewrite negb_involutive. split; [exact Ex|].
  assert (Dims : exists nr nc, get_geometry (_gridspec_main fig) = (nr, nc))
    by (destruct (get_geometry (_gridspec_main fig)); eauto).
  unfold get_active_geometry in Hg. injection Hg as Gr Gc.
  assert (Hslot : b = true -> 0 <= iratio /\
                  iratio < (if in_lr s then kw_ncols (_subplots_kw fig)
                            else kw_nrows (_subplots_kw fig))).
  { intros ->. unfold slot_exists in Ex.
    destruct (Z.eqb_spec iratio (-1)) as [?|N1]; [discriminate|].
    destruct (in_lr s); cbn [load_arrays panels] in Ex.
    - rewrite Lw in Ex.
      destruct (Z.eqb_spec iratio (kw_ncols (_subplots_kw fig)));
        [discriminate|]. lia.
    - rewrite Lh in Ex.
      destruct (Z.eqb_spec iratio (kw_nrows (_subplots_kw fig)));
        [discriminate|]. lia. }
  destruct b; cbn [negb] in *.
  - (* the slot was there *)
    destruct Hb as [G1 G2]. specialize (Hslot eq_refl).
    assert (Hd' : doubled gs).
    { destruct Hd as [D1 D2]. unfold get_geometry, get_active_geometry in G1, G2.
      injection G1 as G1a G1b. injection G2 as G2a G2b.
      split; congruence. }
    unfold get_active_geometry in G2. injection G2 as A1 A2.
    unfold has_coords. clear Ei Eo Ex.
    destruct s; try congruence; subst iratio offset coords;
      cbn -[__getitem__ range_ Z.add Z.sub] in E;
      cbn -[Z.add Z.sub] in Hslot |- *; injection E as _ E.
    + destruct (getitem_roundtrip gs (range_ row1 (row2 + 1))
                  (KInt (col1 - (npanels + 1)))
                  row1 row2 (col1 - (npanels + 1)) (col1 - (npanels + 1)) Hd')
        as (ss' & E' & _ & R);
        [apply normalize_range; lia|apply normalize_int; lia|lia|lia|].
      rewrite E' in E. injection E as <-. eexists _, _. exact R.
    + destruct (getitem_roundtrip gs (range_ row1 (row2 + 1))
                  (KInt (col2 + (npanels + 1)))
                  row1 row2 (col2 + (npanels + 1)) (col2 + (npanels + 1)) Hd')
        as (ss' & E' & _ & R);
        [apply normalize_range; lia|apply normalize_int; lia|lia|lia|].
      rewrite E' in E. injection E as <-. eexists _, _. exact R.
    + destruct (getitem_roundtrip gs (KInt (row2 + (npanels + 1)))
                  (range_ col1 (col2 + 1))
                  (row2 + (npanels + 1)) (row2 + (npanels + 1)) col1 col2 Hd')
        as (ss' & E' & _ & R);
        [apply normalize_int; lia|apply normalize_range; lia|lia|lia|].
      rewrite E' in E. injection E as <-. eexists _, _. exact R.
    + destruct (getitem_roundtrip gs (KInt (row1 - (npanels + 1)))
                  (range_ col1 (col2 + 1))
                  (row1 - (npanels + 1)) (row1 - (npanels + 1)) col1 col2 Hd')
        as (ss' & E' & _ & R);
        [apply normalize_int; lia|apply normalize_range; lia|lia|lia|].
      rewrite E' in E. injection E as <-. eexists _, _. exact R.
  - (* a slot was inserted *)
    destruct Hb as [Hd' G2]. unfold get_active_geometry, grown in G2.
    unfold has_coords. clear Ei Eo Ex Hslot.
    destruct s; try congruence; subst iratio offset coords;
      cbn -[__getitem__ range_ Z.add Z.sub] in E;
      cbn -[Z.add Z.sub] in G2, Hi |- *;
      injection G2 as A1 A2; injection E as _ E; unfold bump.
    + (* left *)
      destruct (getitem_roundtrip gs (range_ row1 (row2 + 1))
                  (KInt (col1 - (npanels + 1) + 1))
                  row1 row2 (col1 - (npanels + 1) + 1) (col1 - (npanels + 1) + 1) Hd')
        as (ss' & E' & _ & R);
        [apply normalize_range; lia|apply normalize_int; lia|lia|lia|].
      rewrite E' in E. injection E as <-.
      destruct (Z.geb_spec col1 (col1 - (npanels + 1) + 1)); [|lia].
      destruct (Z.geb_spec col2 (col1 - (npanels + 1) + 1)); [|lia].
      eexists _, _. rewrite R. repeat f_equal; lia.
    + (* right *)
      destruct (getitem_roundtrip gs (range_ row1 (row2 + 1))
                  (KInt (col2 + (npanels + 1)))
                  row1 row2 (col2 + (npanels + 1)) (col2 + (npanels + 1)) Hd')
        as (ss' & E' & _ & R);
        [apply normalize_range; lia|apply normalize_int; lia|lia|lia|].
      rewrite E' in E. injection E as <-.
      rewrite Z.add_0_r.
      destruct (Z.geb_spec col1 (col2 + (npanels + 1))); [lia|].
      destruct (Z.geb_spec col2 (col2 + (npanels + 1))); [lia|].
      eexists _, _. rewrite R. reflexivity.
    + (* bottom *)
      destruct (getitem_roundtrip gs (KInt (row2 + (npanels + 1)))
                  (range_ col1 (col2 + 1))
                  (row2 + (npanels + 1)) (row2 + (npanels + 1)) col1 col2 Hd')
        as (ss' & E' & _ & R);
        [apply normalize_int; lia|apply normalize_range; lia|lia|lia|].
      rewrite E' in E. injection E as <-.
      rewrite Z.add_0_r.
      destruct (Z.geb_spec row1 (row2 + (npanels + 1))); [lia|].
      destruct (Z.geb_spec row2 (row2 + (npanels + 1))); [lia|].
      eexists _, _. rewrite R. reflexivity.
    + (* top *)
      destruct (getitem_roundtrip gs (KInt (row1 - (npanels + 1) + 1))
                  (range_ col1 (col2 + 1))
                  (row1 - (npanels + 1) + 1) (row1 - (npanels + 1) + 1) col1 col2 Hd')
        as (ss' & E' & _ & R);
        [apply normalize_int; lia|apply normalize_range; lia|lia|lia|].
      rewrite E' in E. injection E as <-.
      destruct (Z.geb_spec row1 (row1 - (npanels + 1) + 1)); [|lia].
      destruct (Z.geb_spec row2 (row1 - (npanels + 1) + 1)); [|lia].
      eexists _, _. rewrite R. repeat f_equal; lia.
Qed.

Lemma panel_lands_next_to_axes_witness :
  exists fig0 fig' ss (inserted : bool),
    example_figure [((0, 0), (0, 0)); ((1, 1), (0, 0))] = Ok fig0 /\
    _add_axes_panel example_rc fig0
      {| ss_geometry := (3, 3); num1 := 2; num2 := Some 2 |}
      0 "right" None None None false
    = (fig', Ok ss) /\
    has_coords (OnMain ss)
      (panel_coords tag_r 1
         (if inserted then shift_coords tag_r 2 (0, 0, 1, 1) else (0, 0, 1, 1))).
Proof.
  destruct (example_figure [((0, 0), (0, 0)); ((1, 1), (0, 0))])
    as [fig0|e] eqn:E0; [|vm_compute in E0; discriminate E0].
  pose proof E0 as E0'. vm_compute in E0'. injection E0' as E0'.
  destruct (_add_axes_panel example_rc fig0
              {| ss_geometry := (3, 3); num1 := 2; num2 := Some 2 |}
              0 "right" None None None false) as [fig' [ss|e]] eqn:E1.
  - destruct (panel_lands_next_to_axes example_rc fig0 fig'
                {| ss_geometry := (3, 3); num1 := 2; num2 := Some 2 |} ss
                0 "right" None None None false tag_r 1 1 0 0 1 1)
      as (inserted & _ & Hc).
    + reflexivity.
    + lia.
    + rewrite <- E0'. vm_compute. repeat split.
    + reflexivity.
    + lia.
    + rewrite <- E0'. vm_compute. reflexivity.
    + lia.
    + rewrite <- E0'. vm_compute. reflexivity.
    + rewrite <- E0'. vm_compute. split; discriminate.
    + exact E1.
    + exists fig0, fig', ss, inserted. split; [reflexivity|].
      split; [exact E1|]. exact Hc.
  - exfalso. rewrite <- E0' in E1. vm_compute in E1. discriminate E1.
Defined.

(** ** The array of subplot numbers *)

Lemma mapM_all_Ok {A B} (f : A -> result B) (l : list A) :
  (forall a, In a l -> exists b, f a = Ok b) -> exists bs, mapM f l = Ok bs.
Proof.
  induction l as [|a l IH]; intros Hf; [exists []; reflexivity|].
  destruct (Hf a) as [b Eb]; [left; reflexivity|].
  destruct IH as [bs Ebs]; [intros a' Ha'; apply Hf; right; exact Ha'|].
  exists (b :: bs). cbn. rewrite Eb. cbn. rewrite Ebs. reflexivity.
Qed.

Lemma In_insert_sorted (x y : Z) (l : list Z) :
  In y (insert_sorted x l) <-> y = x \/ In y l.
Proof.
  induction l as [|z l IH]; cbn; [intuition congruence|].
  destruct (Z.ltb_spec x z); [cbn; intuition congruence|].
  destruct (Z.eqb_spec x z) as [->|]; cbn; [intuition congruence|].
  rewrite IH. intuition congruence.
Qed.

Lemma insert_sorted_sorted (x : Z) (l : list Z) :
  StronglySorted Z.lt l -> StronglySorted Z.lt (insert_sorted x l).
Proof.
  induction 1 as [|z l Hl IH Hz]; cbn; [repeat constructor|].
  destruct (Z.ltb_spec x z).
  - constructor; [constructor; assumption|].
    constructor; [assumption|].
    eapply Forall_impl; [exact Hz|]. cbn. intros; lia.
  - destruct (Z.eqb_spec x z); [constructor; assumption|].
    constructor; [exact IH|].
    apply Forall_forall. intros y Hy. apply list_elem_of_In, In_insert_sorted in Hy.
    destruct Hy as [->|Hy]; [lia|].
    rewrite Forall_forall in Hz. apply Hz, list_elem_of_In, Hy.
Qed.

Lemma In_np_unique (l : list Z) (y : Z) : In y (np_unique l) <-> In y l.
Proof.
  induction l as [|x l IH]; cbn; [reflexivity|].
  rewrite In_insert_sorted, IH. intuition congruence.
Qed.

Lemma np_unique_sorted (l : list Z) : StronglySorted Z.lt (np_unique l).
Proof.
  induction l as [|x l IH]; cbn; [constructor|].
  apply insert_sorted_sorted, IH.
Qed.

Lemma filter_sorted (f : Z -> bool) (l : list Z) :
  StronglySorted Z.lt l -> StronglySorted Z.lt (List.filter f l).
Proof.
  induction 1 as [|z l Hl IH Hz]; cbn; [constructor|].
  destruct (f z); [|exact IH].
  constructor; [exact IH|].
  apply Forall_forall. intros y Hy. apply list_elem_of_In, filter_In in Hy.
  rewrite Forall_forall in Hz. apply Hz, list_elem_of_In, Hy.
Qed.

Lemma axes_numbers_sorted (n : Z) : StronglySorted Z.lt (axes_numbers n).
Proof.
  unfold axes_numbers. generalize (Z.to_nat n) as m. intros m.
  generalize 0%nat as s. induction m as [|m IH]; intros s; cbn; [constructor|].
  constructor; [apply IH|].
  apply Forall_forall. intros y Hy.
  apply list_elem_of_fmap in Hy as (i & -> & Hi). apply elem_of_seq in Hi. lia.
Qed.

Lemma axes_numbers_length (n : Z) : 0 <= n -> len (axes_numbers n) = n.
Proof.
  intros Hn. unfold len, axes_numbers. rewrite length_map, length_seq. lia.
Qed.

Lemma axes_numbers_lookup (n k : Z) :
  1 <= k <= n -> axes_numbers n !! Z.to_nat (k - 1) = Some k.
Proof.
  intros Hk. unfold axes_numbers. rewrite list_lookup_fmap.
  rewrite lookup_seq_lt by lia. cbn. f_equal. lia.
Qed.

Lemma sorted_ext (l1 l2 : list Z) :
  StronglySorted Z.lt l1 -> StronglySorted Z.lt l2 ->
  (forall x, In x l1 <-> In x l2) -> l1 = l2.
Proof.
  intros H1. revert l2. induction H1 as [|x1 l1 Hl1 IH Hx1]; intros l2 H2 E.
  - destruct l2 as [|x2 l2]; [reflexivity|].
    destruct (proj2 (E x2)). left; reflexivity.
  - destruct H2 as [|x2 l2 Hl2 Hx2].
    + destruct (proj1 (E x1)). left; reflexivity.
    + rewrite Forall_forall in Hx1, Hx2.
      assert (B1 : forall y, In y l1 -> x1 < y)
        by (intros y Hy; apply Hx1, list_elem_of_In, Hy).
      assert (B2 : forall y, In y l2 -> x2 < y)
        by (intros y Hy; apply Hx2, list_elem_of_In, Hy).
      assert (x1 = x2) as <-.
      { destruct (proj1 (E x1)) as [?|I1]; [left; reflexivity|congruence|].
        destruct (proj2 (E x2)) as [?|I2]; [left; reflexivity|congruence|].
        apply B1 in I2. apply B2 in I1. lia. }
      f_equal. apply IH; [exact Hl2|]. intros y. split; intros Hy.
      * destruct (proj1 (E y)) as [<-|?]; [right; exact Hy| |assumption].
        apply B1 in Hy. lia.
      * destruct (proj2 (E y)) as [<-|?]; [right; exact Hy| |assumption].
        apply B2 in Hy. lia.
Qed.

Lemma np_min_spec (x : list Z) :
  x <> [] ->
  exists lo, np_min x = Ok lo /\ In lo x /\ forall v, In v x -> lo <= v.
Proof.
  destruct x as [|v x]; [congruence|]. intros _.
  exists (foldr Z.min v x). split; [reflexivity|].
  induction x as [|a x [Hin Hlo]]; cbn.
  - split; [left; reflexivity|]. intros w [<-|[]]. lia.
  - split.
    + destruct (Z.min_spec a (foldr Z.min v x)) as [[_ ->]|[_ ->]].
      * right; left; reflexivity.
      * destruct Hin as [?|?]; [left; assumption|right; right; assumption].
    + intros w [<-|[<-|Hw]].
      * specialize (Hlo v (or_introl eq_refl)). lia.
      * lia.
      * specialize (Hlo w (or_intror Hw)). lia.
Qed.

Lemma np_max_spec (x : list Z) :
  x <> [] ->
  exists hi, np_max x = Ok hi /\ In hi x /\ forall v, In v x -> v <= hi.
Proof.
  destruct x as [|v x]; [congruence|]. intros _.
  exists (foldr Z.max v x). split; [reflexivity|].
  induction x as [|a x [Hin Hhi]]; cbn.
  - split; [left; reflexivity|]. intros w [<-|[]]. lia.
  - split.
    + destruct (Z.max_spec a (foldr Z.max v x)) as [[_ ->]|[_ ->]].
      * destruct Hin as [?|?]; [left; assumption|right; right; assumption].
      * right; left; reflexivity.
    + intros w [<-|[<-|Hw]].
      * specialize (Hhi v (or_introl eq_refl)). lia.
      * lia.
      * specialize (Hhi w (or_intror Hw)). lia.
Qed.

Lemma In_entries (a : list (list Z)) (r c v : Z) :
  In (r, c, v) (entries a) <-> entry a r c = Some v.
Proof.
  unfold entries, entry. rewrite in_concat. split.
  - intros (row' & Hrow & Hin). apply list_elem_of_In in Hrow, Hin.
    apply elem_of_lookup_imap in Hrow as (i & row & -> & Hi).
    apply elem_of_lookup_imap in Hin as (j & w & E & Hj).
    injection E as -> -> ->.
    replace ((0 <=? Z.of_nat i) && (0 <=? Z.of_nat j)) with true
      by (symmetry; apply andb_true_intro; split; apply Z.leb_le; lia).
    rewrite !Nat2Z.id, Hi. cbn. exact Hj.
  - destruct (Z.leb_spec 0 r); [|discriminate].
    destruct (Z.leb_spec 0 c); [|discriminate]. cbn.
    destruct (a !! Z.to_nat r) as [row|] eqn:Hi; [|discriminate]. cbn.
    intros Hj.
    exists (imap (fun c v => (Z.of_nat (Z.to_nat r), Z.of_nat c, v)) row). split.
    + apply list_elem_of_In.
      apply (elem_of_lookup_imap_2
               (fun r row => imap (fun c v => (Z.of_nat r, Z.of_nat c, v)) row)
               a row (Z.to_nat r) Hi).
    + apply list_elem_of_In.
      replace (r, c, v) with (Z.of_nat (Z.to_nat r), Z.of_nat (Z.to_nat c), v)
        by (rewrite !Z2Nat.id by lia; reflexivity).
      apply (elem_of_lookup_imap_2
               (fun c v => (Z.of_nat (Z.to_nat r), Z.of_nat c, v))
               row v (Z.to_nat c) Hj).
Qed.

Lemma In_concat_entries (a : list (list Z)) (v : Z) :
  In v (concat a) <-> exists r c, entry a r c = Some v.
Proof.
  rewrite in_concat. split.
  - intros (row & Hrow & Hv).
    apply list_elem_of_In, list_elem_of_lookup in Hrow as [i Hi].
    apply list_elem_of_In, list_elem_of_lookup in Hv as [j Hj].
    exists (Z.of_nat i), (Z.of_nat j). unfold entry.
    replace ((0 <=? Z.of_nat i) && (0 <=? Z.of_nat j)) with true
      by (symmetry; apply andb_true_intro; split; apply Z.leb_le; lia).
    rewrite !Nat2Z.id, Hi. cbn. exact Hj.
  - intros (r & c & E). unfold entry in E.
    destruct ((0 <=? r) && (0 <=? c)); [|discriminate].
    destruct (a !! Z.to_nat r) as [row|] eqn:Hi; [|discriminate]. cbn in E.
    exists row. split; apply list_elem_of_In; eapply list_elem_of_lookup_2; eassumption.
Qed.

Lemma In_where_rows (a : list (list Z)) (k r : Z) :
  In r (fst (np_where a k)) <-> exists c, entry a r c = Some k.
Proof.
  unfold np_where. cbn. rewrite in_map_iff. split.
  - intros ([[r' c] v] & <- & Hin). apply filter_In in Hin as [Hin Hv].
    cbn in Hv. apply Z.eqb_eq in Hv as ->. exists c. apply In_entries, Hin.
  - intros [c E]. exists (r, c, k). split; [reflexivity|].
    apply filter_In. split; [apply In_entries, E|apply Z.eqb_refl].
Qed.

Lemma In_where_columns (a : list (list Z)) (k c : Z) :
  In c (snd (np_where a k)) <-> exists r, entry a r c = Some k.
Proof.
  unfold np_where. cbn. rewrite in_map_iff. split.
  - intros ([[r c'] v] & <- & Hin). apply filter_In in Hin as [Hin Hv].
    cbn in Hv. apply Z.eqb_eq in Hv as ->. exists r. apply In_entries, Hin.
  - intros [r E]. exists (r, c, k). split; [reflexivity|].
    apply filter_In. split; [apply In_entries, E|apply Z.eqb_refl].
Qed.

Lemma np_min_Ok (x : list Z) (lo : Z) :
  np_min x = Ok lo -> In lo x /\ forall v, In v x -> lo <= v.
Proof.
  intros E. destruct (np_min_spec x) as (lo' & E' & P);
    [intros ->; discriminate E|].
  rewrite E' in E. injection E as <-. exact P.
Qed.

Lemma np_max_Ok (x : list Z) (hi : Z) :
  np_max x = Ok hi -> In hi x /\ forall v, In v x -> v <= hi.
Proof.
  intros E. destruct (np_max_spec x) as (hi' & E' & P);
    [intros ->; discriminate E|].
  rewrite E' in E. injection E as <-. exact P.
Qed.

Lemma In_axes_numbers (n k : Z) : In k (axes_numbers n) <-> 1 <= k <= n.
Proof. rewrite <- list_elem_of_In. apply elem_of_axes_numbers. Qed.

(** The numbers the code reads off an array whose numbers are [1 .. n] *)
Lemma numbers_of_array (a : list (list Z)) (n : Z) :
  numbered a n ->
  np_unique (List.filter (fun v => negb (v =? 0)) (concat a)) = axes_numbers n /\
  List.filter (fun i => 0 <? i) (np_unique (concat a)) = axes_numbers n.
Proof.
  intros [Hin Hall]. split.
  - apply sorted_ext; [apply np_unique_sorted|apply axes_numbers_sorted|].
    intros k. rewrite In_np_unique, filter_In, In_concat_entries, In_axes_numbers.
    split.
    + intros [(r & c & E) Hk]. apply Hin in E.
      destruct (Z.eqb_spec k 0); [discriminate|]. lia.
    + intros Hk. split; [apply Hall, Hk|].
      destruct (Z.eqb_spec k 0); [lia|reflexivity].
  - apply sorted_ext;
      [apply filter_sorted, np_unique_sorted|apply axes_numbers_sorted|].
    intros k. rewrite filter_In, In_np_unique, In_concat_entries, In_axes_numbers.
    split.
    + intros [(r & c & E) Hk]. apply Hin in E. apply Z.ltb_lt in Hk. lia.
    + intros Hk. split; [apply Hall, Hk|]. apply Z.ltb_lt. lia.
Qed.

(** What the check of line 1945 accepts *)
Lemma numbered_of_check (a : list (list Z)) :
  let nums := np_unique (List.filter (fun v => negb (v =? 0)) (concat a)) in
  list_to_set nums =@{gset Z} list_to_set (axes_numbers (len nums)) ->
  numbered a (len nums).
Proof.
  intros nums E.
  assert (M : forall k, In k nums <-> 1 <= k <= len nums).
  { intros k. rewrite <- list_elem_of_In, <- elem_of_axes_numbers.
    rewrite <- (elem_of_list_to_set (C := gset Z) k nums), E.
    apply elem_of_list_to_set. }
  assert (N : forall k, In k nums <-> (exists r c, entry a r c = Some k) /\ k <> 0).
  { intros k. unfold nums.
    rewrite In_np_unique, filter_In, In_concat_entries.
    destruct (Z.eqb_spec k 0); cbn; intuition congruence. }
  split.
  - intros r c v Ev. destruct (Z.eq_dec v 0) as [->|Hv]; [unfold len; lia|].
    assert (In v nums) as Hn by (apply N; eauto). apply M in Hn. lia.
  - intros k Hk. apply M, N in Hk as [Hk _]. exact Hk.
Qed.

Section Ranges.
  Variable a : list (list Z).
  Variable n : Z.
  Hypothesis Hall : forall k, 1 <= k <= n -> exists r c, entry a r c = Some k.

Lemma ranges_Ok :
    exists xr yr,
      mapM column_range (map (np_where a) (axes_numbers n)) = Ok xr /\
      mapM row_range (map (np_where a) (axes_numbers n)) = Ok yr.
  Proof.
    assert (P : forall w, In w (map (np_where a) (axes_numbers n)) ->
                          fst w <> [] /\ snd w <> []).
    { intros w Hw. apply in_map_iff in Hw as (k & <- & Hk).
      apply In_axes_numbers, Hall in Hk as (r & c & E).
      split; intros E0.
      - assert (In r (fst (np_where a k))) as I by (apply In_where_rows; eauto).
        rewrite E0 in I. destruct I.
      - assert (In c (snd (np_where a k))) as I by (apply In_where_columns; eauto).
        rewrite E0 in I. destruct I. }
    destruct (mapM_all_Ok column_range (map (np_where a) (axes_numbers n))) as [xr Ex].
    { intros [y x] Hw. apply P in Hw as [_ Hx]. cbn in Hx.
      unfold column_range. cbn -[np_min np_max].
      destruct (np_min_spec x Hx) as (lo & -> & _).
      destruct (np_max_spec x Hx) as (hi & -> & _). cbn. eauto. }
    destruct (mapM_all_Ok row_range (map (np_where a) (axes_numbers n))) as [yr Ey].
    { intros [y x] Hw. apply P in Hw as [Hy _]. cbn in Hy.
      unfold row_range. cbn -[np_min np_max].
      destruct (np_min_spec y Hy) as (lo & -> & _).
      destruct (np_max_spec y Hy) as (hi & -> & _). cbn. eauto. }
    eauto.
  Qed.

Lemma ranges_boxes (xr yr : list (Z * Z)) :
    0 <= n ->
    mapM column_range (map (np_where a) (axes_numbers n)) = Ok xr ->
    mapM row_range (map (np_where a) (axes_numbers n)) = Ok yr ->
    len xr = n /\ len yr = n /\
    forall k, 1 <= k <= n ->
      exists x0 x1 y0 y1,
        xr !! Z.to_nat (k - 1) = Some (x0, x1) /\
        yr !! Z.to_nat (k - 1) = Some (y0, y1) /\
        bounding_box a k y0 y1 x0 x1.
  Proof.
    intros Hn Ex Ey.
    pose proof (mapM_length _ _ _ Ex) as Lx.
    pose proof (mapM_length _ _ _ Ey) as Ly.
    rewrite length_map in Lx, Ly.
    pose proof (axes_numbers_length n Hn) as Ln. unfold len in *.
    split; [lia|]. split; [lia|]. intros k Hk.
    assert (W : map (np_where a) (axes_numbers n) !! Z.to_nat (k - 1)
                = Some (np_where a k)).
    { change (map (np_where a) (axes_numbers n))
        with (np_where a <$> axes_numbers n).
      rewrite list_lookup_fmap, axes_numbers_lookup by exact Hk. reflexivity. }
    destruct (mapM_lookup _ _ _ _ _ Ex W) as ([x0 x1] & Lkx & Fx).
    destruct (mapM_lookup _ _ _ _ _ Ey W) as ([y0 y1] & Lky & Fy).
    exists x0, x1, y0, y1. split; [exact Lkx|]. split; [exact Lky|].
    pose proof (In_where_rows a k) as Rows.
    pose proof (In_where_columns a k) as Cols.
    destruct (np_where a k) as [y x]. unfold column_range in Fx.
    unfold row_range in Fy. cbn in Fx, Fy, Rows, Cols.
    apply bind_Ok in Fx as (lo & Ex0 & Fx). apply bind_Ok in Fx as (hi & Ex1 & Fx).
    injection Fx as <- <-.
    apply bind_Ok in Fy as (lo' & Ey0 & Fy). apply bind_Ok in Fy as (hi' & Ey1 & Fy).
    injection Fy as <- <-.
    apply np_min_Ok in Ex0 as [Ix0 Bx0]. apply np_max_Ok in Ex1 as [Ix1 Bx1].
    apply np_min_Ok in Ey0 as [Iy0 By0]. apply np_max_Ok in Ey1 as [Iy1 By1].
    split; [|split; [|split; [|split]]].
    - intros r c E.
      assert (In r y) as Ir by (apply Rows; eauto).
      assert (In c x) as Ic by (apply Cols; eauto).
      apply By0 in Ir as ?. apply By1 in Ir as ?.
      apply Bx0 in Ic as ?. apply Bx1 in Ic as ?. lia.
    - apply Rows, Iy0.
    - apply Rows, Iy1.
    - apply Cols, Ix0.
    - apply Cols, Ix1.
  Qed.
End Ranges.

(** Lines 1943-1971 on a standardized array: the checks pass exactly when
    the numbers of the array are [1 .. n], the reference is one of them
    and the sharing levels are levels, and then the ranges are worked
    out; otherwise a [ValueError] is raised. *)
Lemma subplot_array_cases (array : array_arg)
    (nrows ncols ref sharex sharey : Z) (order_C : bool) (a : list (list Z)) :
  standardize array nrows ncols order_C = Ok a ->
  let n := len (np_unique (List.filter (fun v => negb (v =? 0)) (concat a))) in
  let accepted :=
    numbered a n /\ 1 <= ref <= n /\ 0 <= sharex < 4 /\ 0 <= sharey < 4 in
  (accepted /\
   exists L, subplot_array array nrows ncols ref sharex sharey order_C = Ok L /\
             layout_of a n ref L)
  \/ (~ accepted /\
      subplot_array array nrows ncols ref sharex sharey order_C = Raise ValueError).
Proof.
  intros Es n accepted. unfold subplot_array. rewrite Es.
  cbn -[np_unique np_where axes_numbers concat List.filter mapM getitem_Z len
        np_min np_max].
  assert (Hn : 0 <= n) by (unfold n, len; lia).
  destruct (bool_decide _) eqn:E1; cbn [negb].
  2:{ right. split; [|reflexivity]. intros (Hnum & _).
      apply bool_decide_eq_false in E1. apply E1.
      destruct (numbers_of_array a n Hnum) as [Hnums _].
      apply (f_equal (list_to_set (C := gset Z))) in Hnums. exact Hnums. }
  apply bool_decide_eq_true in E1.
  pose proof (numbered_of_check a E1) as Hnum. fold n in Hnum.
  destruct (numbers_of_array a n Hnum) as [Hnums Hpos].
  destruct (bool_decide (ref ∈ _)) eqn:E2; cbn [negb].
  2:{ right. split; [|reflexivity]. intros (_ & Href & _).
      apply bool_decide_eq_false in E2. apply E2.
      rewrite Hnums. apply elem_of_axes_numbers, Href. }
  apply bool_decide_eq_true in E2. rewrite Hnums in E2.
  apply elem_of_axes_numbers in E2.
  destruct (Z.leb_spec 0 sharex); cbn [andb negb orb];
    [|right; split; [unfold accepted; lia|reflexivity]].
  destruct (Z.ltb_spec sharex 4); cbn [andb negb orb];
    [|right; split; [unfold accepted; lia|reflexivity]].
  destruct (Z.leb_spec 0 sharey); cbn [andb negb orb];
    [|right; split; [unfold accepted; lia|reflexivity]].
  destruct (Z.ltb_spec sharey 4); cbn [andb negb orb];
    [|right; split; [unfold accepted; lia|reflexivity]].
  left. split; [unfold accepted; split; [exact Hnum|lia]|].
  rewrite Hpos.
  destruct (ranges_Ok a n (proj2 Hnum)) as (xr & yr & Ex & Ey).
  destruct (ranges_boxes a n xr yr Hn Ex Ey) as (Lx & Ly & B).
  rewrite Ex. cbn [mbind result_bind]. rewrite Ey.
  cbn [mbind result_bind].
  destruct (B ref E2) as (x0 & x1 & y0 & y1 & Rx & Ry & _).
  rewrite (getitem_Z_inside xr (ref - 1) (x0, x1)) by (first [lia|exact Rx]).
  rewrite (getitem_Z_inside yr (ref - 1) (y0, y1)) by (first [lia|exact Ry]).
  cbn [mbind result_bind].
  eexists. split; [reflexivity|].
  unfold layout_of. cbn [sl_naxs sl_nrows sl_ncols sl_xrange sl_yrange sl_xref sl_yref].
  split; [reflexivity|]. split; [reflexivity|]. split; [reflexivity|].
  split; [exact Lx|]. split; [exact Ly|]. split; [exact B|].
  split; [exact Rx|exact Ry].
Qed.

(** X15 - The array of subplot numbers.  When the beginning of
    [subplots] accepts an array, the entries of the array other than 0
    are the numbers [1 .. naxs] with none skipped, [ref] is one of them,
    both sharing levels are among 0, 1, 2 and 3, and for each number the
    ranges [xrange] and [yrange] are the smallest ranges of columns and
    of rows that hold all its entries, [xref] and [yref] being those of
    [ref].  It does accept every array whose numbers are [1 .. n] when
    [ref] is one of them and the sharing levels are levels. *)
Theorem subplot_array_layout (array : array_arg)
    (nrows ncols ref sharex sharey : Z) (order_C : bool) :
  (forall a L,
      standardize array nrows ncols order_C = Ok a ->
      subplot_array array nrows ncols ref sharex sharey order_C = Ok L ->
      numbered a (sl_naxs L) /\ 1 <= ref <= sl_naxs L /\
      0 <= sharex < 4 /\ 0 <= sharey < 4 /\
      layout_of a (sl_naxs L) ref L) /\
  (forall a n,
      standardize array nrows ncols order_C = Ok a ->
      numbered a n -> 1 <= ref <= n -> 0 <= sharex < 4 -> 0 <= sharey < 4 ->
      exists L,
        subplot_array array nrows ncols ref sharex sharey order_C = Ok L /\
        layout_of a n ref L).
Proof.
  split.
  - intros a L Es E.
    destruct (subplot_array_cases array nrows ncols ref sharex sharey order_C
                a Es) as [((Hnum & Href & Hx & Hy) & L' & E' & Hlay)|(_ & E')];
      [|congruence].
    rewrite E' in E. injection E as <-.
    pose proof Hlay as (-> & _). auto.
  - intros a n Es Hnum Href Hx Hy.
    assert (En : len (np_unique (List.filter (fun v => negb (v =? 0)) (concat a)))
                 = n).
    { rewrite (proj1 (numbers_of_array a n Hnum)). apply axes_numbers_length. lia. }
    destruct (subplot_array_cases array nrows ncols ref sharex sharey order_C
                a Es) as [(_ & L & E & Hlay)|(Hno & _)].
    + rewrite En in Hlay. eauto.
    + rewrite En in Hno. tauto.
Qed.

Lemma subplot_array_layout_witness :
  exists L,
    subplot_array (Array2D [[1; 1; 2]; [1; 1; 3]]) 1 1 1 3 3 true = Ok L /\
    sl_naxs L = 3 /\ numbered [[1; 1; 2]; [1; 1; 3]] 3 /\
    layout_of [[1; 1; 2]; [1; 1; 3]] 3 1 L.
Proof.
  destruct (subplot_array (Array2D [[1; 1; 2]; [1; 1; 3]]) 1 1 1 3 3 true)
    as [L|e] eqn:E; [|vm_compute in E; discriminate E].
  exists L. split; [reflexivity|].
  assert (N : sl_naxs L = 3).
  { pose proof E as E'. vm_compute in E'. injection E' as <-. reflexivity. }
  split; [exact N|].
  destruct (subplot_array_layout (Array2D [[1; 1; 2]; [1; 1; 3]]) 1 1 1 3 3 true)
    as (P & _).
  destruct (P [[1; 1; 2]; [1; 1; 3]] L eq_refl E) as (Hn & _ & _ & _ & Hl).
  rewrite N in Hn, Hl. split; [exact Hn|exact Hl].
Defined.

(** ** The axes [subplots] draws *)

Lemma range_lookup (n i : Z) :
  0 <= i < n -> range n !! Z.to_nat i = Some i.
Proof.
  intros Hi. unfold range.
  change (map Z.of_nat (seq 0 (Z.to_nat n))) with (Z.of_nat <$> seq 0 (Z.to_nat n)).
  rewrite list_lookup_fmap, lookup_seq_lt by lia. cbn. f_equal. lia.
Qed.

Lemma range_length (n : Z) : 0 <= n -> len (range n) = n.
Proof. intros Hn. unfold len, range. rewrite length_map, length_seq. lia. Qed.

Lemma standardize_rect (array : array_arg) (nrows ncols : Z) (order_C : bool)
    (a : list (list Z)) :
  standardize array nrows ncols order_C = Ok a ->
  forall row, In row a -> len row = len (hd [] a).
Proof.
  assert (One : forall (l row : list Z),
             In row (if order_C then [l] else map (fun v => [v]) l) ->
             len row = len (hd [] (if order_C then [l] else map (fun v => [v]) l))).
  { intros l row. destruct order_C; cbn.
    - intros [<-|[]]. reflexivity.
    - intros Hin. apply in_map_iff in Hin as (v & <- & Hv).
      destruct l; [destruct Hv|reflexivity]. }
  unfold standardize. destruct array as [|l|[|row0 rows]].
  - destruct ((nrows <? 0) || (ncols <? 0)); [discriminate|].
    intros [= <-] row Hin. unfold default_array in *.
    apply in_map_iff in Hin as (r & <- & Hr).
    destruct (range nrows) as [|r0 rs]; [destruct Hr|]. cbn.
    unfold len. rewrite !length_map. reflexivity.
  - intros [= <-]. apply One.
  - intros [= <-]. apply One.
  - destruct (forallb _ rows) eqn:F; [|discriminate].
    intros [= <-] row [<-|Hin]; [reflexivity|]. cbn.
    rewrite forallb_forall in F. apply Z.eqb_eq, F, Hin.
Qed.

Lemma entry_inside (a : list (list Z)) (r c v : Z) :
  (forall row, In row a -> len row = len (hd [] a)) ->
  entry a r c = Some v -> 0 <= r < len a /\ 0 <= c < len (hd [] a).
Proof.
  intros Hrect. unfold entry.
  destruct (Z.leb_spec 0 r); [|discriminate].
  destruct (Z.leb_spec 0 c); [|discriminate]. cbn.
  destruct (a !! Z.to_nat r) as [row|] eqn:Hi; [|discriminate]. cbn.
  intros Hj.
  pose proof (lookup_lt_Some _ _ _ Hi). pose proof (lookup_lt_Some _ _ _ Hj).
  rewrite <- (Hrect row)
    by (apply list_elem_of_In; eapply list_elem_of_lookup_2; exact Hi).
  unfold len. lia.
Qed.

Section SubplotsAxes.
  Context {num : Type} `{Number num}.
  Variable rc : rc_settings num.

  (** One axes is drawn over each of the ranges that lie on the grid. *)
Lemma subplots_figure_axes (kw : subplots_kw num) (orig : orig_kw num)
      (ranges : list ((Z * Z) * (Z * Z))) (pad axpad panelpad dpi : num)
      (fig : Figure num) :
    subplots_figure rc kw orig ranges pad axpad panelpad dpi = Ok fig ->
    (forall i x0 x1 y0 y1,
        ranges !! i = Some ((x0, x1), (y0, y1)) ->
        0 <= y0 <= y1 /\ y1 < kw_nrows kw /\ 0 <= x0 <= x1 /\ x1 < kw_ncols kw) ->
    length (fig_axes fig) = length ranges /\
    forall i x0 x1 y0 y1,
      ranges !! i = Some ((x0, x1), (y0, y1)) ->
      exists ax sp,
        fig_axes fig !! i = Some ax /\ subplotspec ax = Some sp /\
        has_coords sp (y0, y1, x0, x1).
  Proof.
    unfold subplots_figure.
    destruct (_subplots_geometry rc kw) as [kw' solved] eqn:Eg.
    intros E Hin.
    apply bind_Ok in E as ([[w h] gk] & -> & E).
    apply bind_Ok in E as (gs & Egs & E).
    apply bind_Ok in E as (axs & Eaxs & E). injection E as <-.
    cbn [fig_axes].
    apply geometry_gridspec_kw in Eg as (Gr & Gc & _).
    apply init_doubled in Egs as (Hd & Ar & Ac).
    split; [apply (mapM_length _ _ _ Eaxs)|].
    intros i x0 x1 y0 y1 Hi.
    destruct (mapM_lookup _ _ _ _ _ Eaxs Hi) as (ax & Hax & Fa).
    destruct (Hin _ _ _ _ _ Hi) as (By & By' & Bx & Bx').
    destruct (getitem_roundtrip gs (range_ y0 (y1 + 1)) (range_ x0 (x1 + 1))
                y0 y1 x0 x1) as (ss & Eg & _ & Ec);
      [exact Hd|apply normalize_range; lia|apply normalize_range; lia|lia|lia|].
    cbn -[__getitem__ range_] in Fa. rewrite Eg in Fa. cbn in Fa.
    injection Fa as <-.
    exists {| subplotspec := Some (OnMain ss) |}, (OnMain ss).
    split; [exact Hax|]. split; [reflexivity|].
    unfold has_coords. cbn [get_topmost_subplotspec]. eauto.
  Qed.
End SubplotsAxes.

Lemma box_inside (a : list (list Z)) (k y0 y1 x0 x1 : Z) :
  (forall row, In row a -> len row = len (hd [] a)) ->
  bounding_box a k y0 y1 x0 x1 ->
  0 <= y0 <= y1 /\ y1 < len a /\ 0 <= x0 <= x1 /\ x1 < len (hd [] a).
Proof.
  intros Hrect (Hin & (c0 & E0) & (c1 & E1) & (r0 & F0) & (r1 & F1)).
  pose proof (Hin _ _ E0). pose proof (Hin _ _ F0).
  pose proof (entry_inside _ _ _ _ Hrect E0).
  pose proof (entry_inside _ _ _ _ Hrect E1).
  pose proof (entry_inside _ _ _ _ Hrect F0).
  pose proof (entry_inside _ _ _ _ Hrect F1). lia.
Qed.

Lemma numbered_unique (a : list (list Z)) (n n' : Z) :
  0 <= n -> 0 <= n' -> numbered a n -> numbered a n' -> n = n'.
Proof.
  intros Hn Hn' [B A] [B' A'].
  destruct (Z.lt_trichotomy n n') as [Hlt|[->|Hgt]]; [|reflexivity|].
  - destruct (A' n') as (r & c & E); [lia|]. apply B in E. lia.
  - destruct (A n) as (r & c & E); [lia|]. apply B' in E. lia.
Qed.

Lemma axes_grid_init_items {A} (objs : list A) (n : Z) (order_C : bool)
    (g : axes_grid A) :
  axes_grid_init objs n order_C = Ok g -> items g = objs.
Proof.
  unfold axes_grid_init. destruct (n =? 0); [discriminate|].
  intros [= <-]. reflexivity.
Qed.

Lemma entry_default_inv (R C : Z) (order_C : bool) (r c v : Z) :
  entry (default_array R C order_C) r c = Some v ->
  0 <= r < R /\ 0 <= c < C /\
  v = if order_C then r * C + c + 1 else c * R + r + 1.
Proof.
  unfold entry.
  destruct (Z.leb_spec 0 r); [|discriminate].
  destruct (Z.leb_spec 0 c); [|discriminate]. cbn.
  destruct (default_array R C order_C !! Z.to_nat r) as [row|] eqn:Hi;
    [|discriminate].
  cbn. intros Hj.
  pose proof (lookup_lt_Some _ _ _ Hi) as Li.
  unfold default_array, range in Li. rewrite !length_map, length_seq in Li.
  unfold default_array in Hi.
  change (map ?f (range R)) with (f <$> range R) in Hi.
  rewrite list_lookup_fmap, range_lookup in Hi by lia. cbn in Hi.
  injection Hi as <-.
  pose proof (lookup_lt_Some _ _ _ Hj) as Lj.
  unfold range in Lj. rewrite !length_map, length_seq in Lj.
  change (map ?f (range C)) with (f <$> range C) in Hj.
  rewrite list_lookup_fmap, range_lookup in Hj by lia. cbn in Hj.
  injection Hj as <-. lia.
Qed.

Lemma entry_default_inside (R C : Z) (order_C : bool) (r c : Z) :
  0 <= r < R -> 0 <= c < C ->
  entry (default_array R C order_C) r c
  = Some (if order_C then r * C + c + 1 else c * R + r + 1).
Proof.
  intros Hr Hc. unfold entry.
  destruct (Z.leb_spec 0 r); [|lia]. destruct (Z.leb_spec 0 c); [|lia]. cbn.
  unfold default_array.
  change (map ?f (range R)) with (f <$> range R).
  rewrite list_lookup_fmap, range_lookup by lia. cbn.
  change (map ?f (range C)) with (f <$> range C).
  rewrite list_lookup_fmap, range_lookup by lia. reflexivity.
Qed.

Lemma default_array_numbered (R C : Z) (order_C : bool) :
  0 <= R -> 0 <= C -> numbered (default_array R C order_C) (R * C).
Proof.
  intros HR HC. split.
  - intros r c v E. apply entry_default_inv in E as (Hr & Hc & ->).
    destruct order_C; nia.
  - intros k Hk.
    assert (0 < R /\ 0 < C) as [HR' HC'] by nia.
    destruct order_C.
    + exists ((k - 1) / C), ((k - 1) mod C).
      pose proof (Z.mod_pos_bound (k - 1) C HC').
      pose proof (Z.div_mod (k - 1) C ltac:(lia)).
      assert (0 <= (k - 1) / C < R).
      { split; [apply Z.div_pos; lia|].
        apply Z.div_lt_upper_bound; [lia|]. nia. }
      rewrite entry_default_inside by lia. f_equal. nia.
    + exists ((k - 1) mod R), ((k - 1) / R).
      pose proof (Z.mod_pos_bound (k - 1) R HR').
      pose proof (Z.div_mod (k - 1) R ltac:(lia)).
      assert (0 <= (k - 1) / R < C).
      { split; [apply Z.div_pos; lia|].
        apply Z.div_lt_upper_bound; [lia|]. nia. }
      rewrite entry_default_inside by lia. f_equal. nia.
Qed.

Lemma cell_injective (C r c r' c' : Z) :
  0 <= c < C -> 0 <= c' < C -> r * C + c = r' * C + c' -> r = r' /\ c = c'.
Proof.
  intros Hc Hc' E. apply (Z.div_mod_unique C); [left; exact Hc|left; exact Hc'|].
  lia.
Qed.

(** In the default array a number stands in one cell only. *)
Lemma default_array_box (R C : Z) (order_C : bool) (r c y0 y1 x0 x1 : Z) :
  0 <= r < R -> 0 <= c < C ->
  bounding_box (default_array R C order_C)
    (if order_C then r * C + c + 1 else c * R + r + 1) y0 y1 x0 x1 ->
  y0 = r /\ y1 = r /\ x0 = c /\ x1 = c.
Proof.
  intros Hr Hc (_ & (c0 & E0) & (c1 & E1) & (r0 & F0) & (r1 & F1)).
  apply entry_default_inv in E0 as (? & ? & E0).
  apply entry_default_inv in E1 as (? & ? & E1).
  apply entry_default_inv in F0 as (? & ? & F0).
  apply entry_default_inv in F1 as (? & ? & F1).
  destruct order_C.
  - assert (E0' : y0 * C + c0 = r * C + c) by lia.
    assert (E1' : y1 * C + c1 = r * C + c) by lia.
    assert (F0' : r0 * C + x0 = r * C + c) by lia.
    assert (F1' : r1 * C + x1 = r * C + c) by lia.
    apply cell_injective in E0', E1', F0', F1'; lia.
  - assert (E0' : c0 * R + y0 = c * R + r) by lia.
    assert (E1' : c1 * R + y1 = c * R + r) by lia.
    assert (F0' : x0 * R + r0 = c * R + r) by lia.
    assert (F1' : x1 * R + r1 = c * R + r) by lia.
    apply cell_injective in E0', E1', F0', F1'; lia.
Qed.

Section SubplotsProperties.
  Context {num : Type} `{Number num}.
  Variable rc : rc_settings num.

Lemma subplots_axes_boxes (array : array_arg)
      (nrows ncols ref sharex sharey : Z) (order_C : bool)
      (kw : subplots_kw num) (orig : orig_kw num) (pad axpad panelpad dpi : num)
      (a : list (list Z)) (fig : Figure num) (axs : axes_grid Axes) :
    standardize array nrows ncols order_C = Ok a ->
    subplots rc array nrows ncols ref sharex sharey order_C kw orig
      pad axpad panelpad dpi = Ok (fig, axs) ->
    exists n,
      1 <= n /\ numbered a n /\ len (fig_axes fig) = n /\
      axes_grid_init (fig_axes fig)
        (if order_C then len (hd [] a) else len a) order_C = Ok axs /\
      forall k, 1 <= k <= n ->
        exists ax sp y0 y1 x0 x1,
          fig_axes fig !! Z.to_nat (k - 1) = Some ax /\
          subplotspec ax = Some sp /\
          has_coords sp (y0, y1, x0, x1) /\
          bounding_box a k y0 y1 x0 x1.
  Proof.
    unfold subplots. intros Es E.
    apply bind_Ok in E as (L & EL & E).
    apply bind_Ok in E as (fig' & Ef & E).
    apply bind_Ok in E as (axs' & Ea & E). injection E as <- <-.
    destruct (subplot_array_cases array nrows ncols ref sharex sharey order_C
                a Es) as [((Hnum & Href & _) & L' & E' & Hlay)|(_ & E')];
      [|congruence].
    rewrite E' in EL. injection EL as ->.
    set (n := len (np_unique (List.filter (fun v => negb (v =? 0)) (concat a))))
      in *.
    destruct Hlay as (_ & Hr & Hc & Lx & Ly & B & _).
    pose proof (standardize_rect _ _ _ _ _ Es) as Hrect.
    rewrite Hr, Hc in Ea.
    assert (Hzip : forall i x0 x1 y0 y1,
               zip (sl_xrange L) (sl_yrange L) !! i = Some ((x0, x1), (y0, y1)) ->
               bounding_box a (Z.of_nat i + 1) y0 y1 x0 x1).
    { intros i x0 x1 y0 y1 Hi.
      apply lookup_zip_with_Some in Hi as (px & py & [= <- <-] & Hx & Hy).
      pose proof (lookup_lt_Some _ _ _ Hx) as Hlt.
      destruct (B (Z.of_nat i + 1)) as (x0' & x1' & y0' & y1' & Hx' & Hy' & Hb);
        [unfold len in Lx; lia|].
      replace (Z.to_nat (Z.of_nat i + 1 - 1)) with i in Hx', Hy' by lia.
      congruence. }
    destruct (subplots_figure_axes rc _ _ _ _ _ _ _ _ Ef) as (Hlen & Hax).
    { intros i x0 x1 y0 y1 Hi. cbn [kw_nrows kw_ncols]. rewrite Hr, Hc.
      apply Hzip in Hi. apply (box_inside _ _ _ _ _ _ Hrect) in Hi. lia. }
    exists n. split; [lia|]. split; [exact Hnum|].
    split; [|split; [exact Ea|]].
    - unfold len in *. rewrite Hlen, length_zip_with. lia.
    - intros k Hk.
      destruct (B k Hk) as (x0 & x1 & y0 & y1 & Hx & Hy & Hb).
      destruct (Hax (Z.to_nat (k - 1)) x0 x1 y0 y1) as (ax & sp & Ha & Hs & Hco).
      { apply lookup_zip_with_Some. eauto. }
      exists ax, sp, y0, y1, x0, x1. auto.
  Qed.

(** X16 - The axes of an array.  When [subplots] succeeds, it has drawn
    one axes for each number of the array, in the order of the numbers,
    and the axes of number [k] takes up the rows and the columns of the
    smallest box that holds every entry [k] of the array. *)
Theorem subplots_draws_boxes (array : array_arg)
      (nrows ncols ref sharex sharey : Z) (order_C : bool)
      (kw : subplots_kw num) (orig : orig_kw num) (pad axpad panelpad dpi : num)
      (a : list (list Z)) (fig : Figure num) (axs : axes_grid Axes) :
    standardize array nrows ncols order_C = Ok a ->
    subplots rc array nrows ncols ref sharex sharey order_C kw orig
      pad axpad panelpad dpi = Ok (fig, axs) ->
    exists n,
      numbered a n /\ len (fig_axes fig) = n /\ items axs = fig_axes fig /\
      forall k, 1 <= k <= n ->
        exists ax sp y0 y1 x0 x1,
          fig_axes fig !! Z.to_nat (k - 1) = Some ax /\
          subplotspec ax = Some sp /\
          has_coords sp (y0, y1, x0, x1) /\
          bounding_box a k y0 y1 x0 x1.
  Proof.
    intros Es E.
    destruct (subplots_axes_boxes _ _ _ _ _ _ _ _ _ _ _ _ _ _ _ _ Es E)
      as (n & _ & Hnum & Hlen & Hinit & Hbox).
    exists n. split; [exact Hnum|]. split; [exact Hlen|].
    split; [apply (axes_grid_init_items _ _ _ _ Hinit)|exact Hbox].
  Qed.

(** X17 - The default grid.  Without an array, a successful [subplots]
    returns a container of shape [(nrows, ncols)] in which [axs[i, j]] is
    the axes that takes up row [i] and column [j] of the grid, for the
    order ['C'] as for the order ['F']. *)
Theorem default_subplots_grid (nrows ncols ref sharex sharey : Z)
      (order_C : bool) (kw : subplots_kw num) (orig : orig_kw num)
      (pad axpad panelpad dpi : num) (fig : Figure num) (axs : axes_grid Axes) :
    subplots rc NoArray nrows ncols ref sharex sharey order_C kw orig
      pad axpad panelpad dpi = Ok (fig, axs) ->
    1 <= nrows /\ 1 <= ncols /\ len (fig_axes fig) = nrows * ncols /\
    shape axs = (nrows, ncols) /\
    forall i j, 0 <= i < nrows -> 0 <= j < ncols ->
      exists ax sp,
        axes_grid_getitem axs (Tuple [KInt i; KInt j]) = Ok (One ax) /\
        subplotspec ax = Some sp /\ has_coords sp (i, i, j, j).
  Proof.
    intros E.
    assert (Es : standardize NoArray nrows ncols order_C
                 = Ok (default_array nrows ncols order_C) /\
                 0 <= nrows /\ 0 <= ncols).
    { unfold subplots, subplot_array, standardize in *.
      destruct (Z.ltb_spec nrows 0); [discriminate E|].
      destruct (Z.ltb_spec ncols 0); [discriminate E|]. auto. }
    destruct Es as (Es & HR & HC).
    destruct (subplots_axes_boxes _ _ _ _ _ _ _ _ _ _ _ _ _ _ _ _ Es E)
      as (n & Hn & Hnum & Hlen & Hinit & Hbox).
    pose proof (default_array_numbered nrows ncols order_C HR HC) as Hnum'.
    assert (n = nrows * ncols) as ->.
    { apply (numbered_unique (default_array nrows ncols order_C));
        [lia|apply Z.mul_nonneg_nonneg; lia|exact Hnum|exact Hnum']. }
    assert (1 <= nrows /\ 1 <= ncols) as [HR' HC'] by nia.
    assert (Sr : len (default_array nrows ncols order_C) = nrows).
    { unfold default_array, len. rewrite length_map.
      apply (range_length nrows HR). }
    assert (Sc : len (hd [] (default_array nrows ncols order_C)) = ncols).
    { unfold default_array, range.
      destruct (Z.to_nat nrows) as [|m] eqn:Em; [lia|]. cbn.
      unfold len. rewrite !length_map, length_seq. lia. }
    rewrite Sr, Sc in Hinit.
    set (m := fun r c : Z =>
                default {| subplotspec := None |}
                  (fig_axes fig
                     !! Z.to_nat (if order_C then r * ncols + c else c * nrows + r))).
    assert (Hm : forall r c, 0 <= r < nrows -> 0 <= c < ncols ->
               fig_axes fig
                 !! Z.to_nat (if order_C then r * ncols + c else c * nrows + r)
               = Some (m r c) /\
               exists sp, subplotspec (m r c) = Some sp /\
                          has_coords sp (r, r, c, c)).
    { intros r c Hr Hc.
      destruct (Hbox (if order_C then r * ncols + c + 1 else c * nrows + r + 1))
        as (ax & sp & y0 & y1 & x0 & x1 & Ha & Hs & Hco & Hb);
        [destruct order_C; nia|].
      apply default_array_box in Hb as (-> & -> & -> & ->); [|lia|lia].
      replace (Z.to_nat ((if order_C then r * ncols + c + 1
                          else c * nrows + r + 1) - 1))
        with (Z.to_nat (if order_C then r * ncols + c else c * nrows + r))
        in Ha by (destruct order_C; lia).
      unfold m. rewrite Ha. cbn. eauto. }
    assert (Hgrid : holds_grid (fig_axes fig) nrows ncols order_C m).
    { split; [lia|]. split; [lia|]. split; [exact Hlen|].
      intros r c Hr Hc. apply Hm; assumption. }
    destruct (grid_init _ _ _ _ _ _ Hgrid Hinit) as (Ei & En & Eo & Esh).
    split; [exact HR'|]. split; [exact HC'|]. split; [exact Hlen|].
    split; [exact Esh|].
    intros i j Hi Hj.
    destruct (Hm i j Hi Hj) as (_ & sp & Hs & Hco).
    exists (m i j), sp. split; [|split; [exact Hs|exact Hco]].
    pose proof (grid_getitem _ _ _ _ _ i j Hgrid Hi Hj) as G.
    unfold axes_grid_getitem. cbn -[Z.div Z.mul Z.add getitem_Z].
    rewrite Ei, En, Eo, Hlen.
    destruct (Z.ltb_spec i 0); [lia|]. destruct (Z.ltb_spec j 0); [lia|].
    destruct order_C; cbn -[Z.div Z.mul Z.add getitem_Z] in G |- *.
    - destruct (Z.eqb_spec ncols 0); [lia|]. cbn -[Z.div Z.mul Z.add getitem_Z].
      rewrite G. reflexivity.
    - destruct (Z.eqb_spec nrows 0); [lia|]. cbn -[Z.div Z.mul Z.add getitem_Z].
      rewrite G. reflexivity.
  Qed.
End SubplotsProperties.

Lemma subplots_draws_boxes_witness :
  exists fig axs ax sp y0 y1 x0 x1,
    subplots example_rc (Array2D [[1; 1]; [2; 3]]) 1 1 1 3 3 true
      example_kw example_orig 0.1%Q 0.1%Q 0.05%Q 100%Q = Ok (fig, axs) /\
    fig_axes fig !! 0%nat = Some ax /\ subplotspec ax = Some sp /\
    has_coords sp (y0, y1, x0, x1) /\
    bounding_box [[1; 1]; [2; 3]] 1 y0 y1 x0 x1.
Proof.
  destruct (subplots example_rc (Array2D [[1; 1]; [2; 3]]) 1 1 1 3 3 true
              example_kw example_orig 0.1%Q 0.1%Q 0.05%Q 100%Q)
    as [[fig axs]|e] eqn:E; [|vm_compute in E; discriminate E].
  destruct (subplots_draws_boxes example_rc (Array2D [[1; 1]; [2; 3]])
              1 1 1 3 3 true example_kw example_orig 0.1%Q 0.1%Q 0.05%Q 100%Q
              [[1; 1]; [2; 3]] fig axs eq_refl E)
    as (n & Hnum & _ & _ & Hbox).
  destruct (Hbox 1) as (ax & sp & y0 & y1 & x0 & x1 & Ha & Hs & Hc & Hb).
  { pose proof (proj1 Hnum 0 0 1 eq_refl). lia. }
  exists fig, axs, ax, sp, y0, y1, x0, x1. auto.
Defined.

Lemma default_subplots_grid_witness :
  exists fig axs ax sp,
    subplots example_rc NoArray 2 2 1 3 3 false
      example_kw example_orig 0.1%Q 0.1%Q 0.05%Q 100%Q = Ok (fig, axs) /\
    shape axs = (2, 2) /\
    axes_grid_getitem axs (Tuple [KInt 1; KInt 0]) = Ok (One ax) /\
    subplotspec ax = Some sp /\ has_coords sp (1, 1, 0, 0).
Proof.
  destruct (subplots example_rc NoArray 2 2 1 3 3 false
              example_kw example_orig 0.1%Q 0.1%Q 0.05%Q 100%Q)
    as [[fig axs]|e] eqn:E; [|vm_compute in E; discriminate E].
  destruct (default_subplots_grid example_rc 2 2 1 3 3 false
              example_kw example_orig 0.1%Q 0.1%Q 0.05%Q 100%Q fig axs E)
    as (_ & _ & _ & Hs & Hg).
  destruct (Hg 1 0) as (ax & sp & Hax & Hsp & Hc); [lia|lia|].
  exists fig, axs, ax, sp. auto.
Defined.
